(** * Sentinel DDoS: admission pipeline, rate limiter, detection and challenge

    A shallow embedding of the Python sources under [src/] and the
    properties stated about them.

    Conventions of the embedding.
    - Python [str] is [string], one character per code point: the model
      covers the strings whose code points are all below 256 (the range
      in which Starlette hands over header values); text with other
      characters (further Unicode digits and white space among them) is
      outside it.  [.encode()] belongs to the platform.
    - Python [int] is [Z].
    - Python [float] is [Q]: clock readings, scores and ratios are exact
      rationals, so rounding, infinities and NaN are outside the model.
      Where the source compares floats, the model compares the
      rationals.  Where the source turns an [int] into a float, the
      model does so with [PyFloat.of_int], which raises beyond the range
      of floats as Python does.
    - The Redis server is an explicit state ([Redis.t]); the client handle
      [redis_manager.client] is an [option] of it ([None] = no connection).
    - The clock ([time.time()]) and the random sources ([uuid.uuid4()],
      [secrets.token_hex]) are inputs of the functions that read them.
    - Library code that is not part of the repository (hashlib, hmac,
      ipaddress, float formatting, the scikit-learn model) is an interface,
      the class [Platform]; the properties hold for every platform, and
      [Example.platform] (with SHA-256 and HMAC written out) runs the
      model on concrete inputs.
    - A function that can raise returns an [option] ([None] = the
      exception), the handler an [outcome]. *)

From Stdlib Require Import ZArith QArith Qabs Qminmax Qround Lqa Lia Bool Ascii String List Sorted.
From Stdlib Require Import DecimalString DecimalPos.
From stdpp Require Import base option list gmap strings.

Import ListNotations.
Local Open Scope string_scope.
Local Open Scope list_scope.

(* ===================================================================== *)
(** * Part I. The program                                                *)
(* ===================================================================== *)

(* --------------------------------------------------------------------- *)
(** ** Python string primitives used by the sources                      *)
(* --------------------------------------------------------------------- *)

Module PyStr.

(** [sep.join(parts)]. *)
Fixpoint join (sep : string) (parts : list string) : string :=
  match parts with
  | [] => ""
  | [p] => p
  | p :: rest => p +:+ sep +:+ join sep rest
  end.

(** [s.split(c)] for a one-character separator [c]: the list of maximal
    separator-free pieces, never empty. *)
Fixpoint split (c : ascii) (s : string) : list string :=
  match s with
  | EmptyString => [""]
  | String a s' =>
      if Ascii.eqb a c then "" :: split c s'
      else match split c s' with
           | [] => [String a ""]
           | p :: ps => String a p :: ps
           end
  end.

(** [s.startswith(p)]. *)
Definition startswith (s p : string) : bool := String.prefix p s.

(** [s.startswith((p1, p2, ...))]. *)
Definition startswith_any (s : string) (ps : list string) : bool :=
  existsb (startswith s) ps.

(** [sub in s]. *)
Fixpoint contains (sub s : string) : bool :=
  String.prefix sub s ||
  match s with
  | EmptyString => false
  | String _ s' => contains sub s'
  end.

Definition rev_string (s : string) : string :=
  string_of_list_ascii (List.rev (list_ascii_of_string s)).

(** [s.endswith(p)]. *)
Definition endswith (s p : string) : bool :=
  String.prefix (rev_string p) (rev_string s).

(** [s[:-1]]. *)
Definition drop_last (s : string) : string :=
  string_of_list_ascii (List.removelast (list_ascii_of_string s)).

Definition is_upper (a : ascii) : bool :=
  let n := nat_of_ascii a in (65 <=? n)%nat && (n <=? 90)%nat.

Definition lower_ascii (a : ascii) : ascii :=
  if is_upper a then ascii_of_nat (nat_of_ascii a + 32) else a.

Definition upper_ascii (a : ascii) : ascii :=
  let n := nat_of_ascii a in
  if (97 <=? n)%nat && (n <=? 122)%nat then ascii_of_nat (n - 32) else a.

Fixpoint map_string (f : ascii -> ascii) (s : string) : string :=
  match s with
  | EmptyString => EmptyString
  | String a s' => String (f a) (map_string f s')
  end.

(** [s.lower()] and [s.upper()] on ASCII letters. *)
Definition lower : string -> string := map_string lower_ascii.
Definition upper : string -> string := map_string upper_ascii.

(** White space as [str.strip()] removes it: the code points below 256
    for which [str.isspace] holds. *)
Definition is_space (a : ascii) : bool :=
  let n := nat_of_ascii a in
  ((9 <=? n)%nat && (n <=? 13)%nat) || (n =? 32)%nat || ((28 <=? n)%nat && (n <=? 31)%nat)
  || (n =? 133)%nat || (n =? 160)%nat.

Fixpoint lstrip (s : string) : string :=
  match s with
  | EmptyString => EmptyString
  | String a s' => if is_space a then lstrip s' else s
  end.

(** [s.strip()]. *)
Definition strip (s : string) : string :=
  rev_string (lstrip (rev_string (lstrip s))).

Definition digit_val (a : ascii) : option Z :=
  let n := nat_of_ascii a in
  if (48 <=? n)%nat && (n <=? 57)%nat then Some (Z.of_nat (n - 48)) else None.

Definition is_digit (a : ascii) : bool :=
  match digit_val a with Some _ => true | None => false end.

(** White space as [int()] skips it around a literal: as [str.strip()],
    but without the separators 28 to 31. *)
Definition is_int_space (a : ascii) : bool :=
  let n := nat_of_ascii a in
  ((9 <=? n)%nat && (n <=? 13)%nat) || (n =? 32)%nat || (n =? 133)%nat || (n =? 160)%nat.

Fixpoint int_lstrip (s : string) : string :=
  match s with
  | EmptyString => EmptyString
  | String a s' => if is_int_space a then int_lstrip s' else s
  end.

Definition int_strip (s : string) : string :=
  rev_string (int_lstrip (rev_string (int_lstrip s))).

(** The digits of an [int()] literal after the sign: decimal digits, a
    single underscore allowed between two digits.  [acc] is the value so
    far, [prev] tells whether the previous character was a digit. *)
Fixpoint int_digits (acc : Z) (prev : bool) (s : string) : option Z :=
  match s with
  | EmptyString => if prev then Some acc else None
  | String a s' =>
      match digit_val a with
      | Some d => int_digits (10 * acc + d) true s'
      | None =>
          if Ascii.eqb a "_" && prev
          then match s' with
               | EmptyString => None
               | String b _ => if is_digit b then int_digits acc false s' else None
               end
          else None
      end
  end.

(** [sys.get_int_max_str_digits()], as the interpreter starts with. *)
Definition MAX_STR_DIGITS : Z := 4300.

(** The number of digits of a literal; underscores do not count. *)
Fixpoint count_digits (s : string) : nat :=
  match s with
  | EmptyString => 0
  | String a s' => if is_digit a then S (count_digits s') else count_digits s'
  end.

(** [int(s)] for a string [s]: [None] stands for [ValueError].  White
    space around the literal is skipped, one sign is accepted, and a
    literal of more than [MAX_STR_DIGITS] digits is refused. *)
Definition int (s : string) : option Z :=
  let '(negative, ds) :=
    match int_strip s with
    | String "-" ds => (true, ds)
    | String "+" ds => (false, ds)
    | ds => (false, ds)
    end in
  match int_digits 0 false ds with
  | Some n =>
      if (MAX_STR_DIGITS <? Z.of_nat (count_digits ds))%Z then None
      else Some (if negative then - n else n)%Z
  | None => None
  end.

(** [int(x)] for a float [x]: truncation toward zero. *)
Definition int_of_float (x : Q) : Z :=
  if Qle_bool 0 x then Qfloor x else Qceiling x.

(** [str(n)] for an [int]. *)
Definition str_of_int (n : Z) : string :=
  NilZero.string_of_int (Z.to_int n).

End PyStr.

(** Conversions between [int] and [float]. *)
Module PyFloat.

(** The integers from [2^1024 - 2^970] on round to [2^1024], which is no
    float. *)
Definition OVERFLOW : Z := 2 ^ 1024 - 2 ^ 970.

(** [float(n)], also where an [int] meets a float in arithmetic or is
    stored in a [float64] array: [None] stands for [OverflowError]. *)
Definition of_int (n : Z) : option Q :=
  if (Z.abs n <? OVERFLOW)%Z then Some (inject_Z n) else None.

End PyFloat.

Example split_colon : PyStr.split ":" "a:b::c" = ["a"; "b"; ""; "c"].
Proof. reflexivity. Qed.
Example split_none : PyStr.split "/" "5" = ["5"].
Proof. reflexivity. Qed.
Example int_plain : PyStr.int " 42 " = Some 42%Z.
Proof. reflexivity. Qed.
Example int_underscore : PyStr.int "1_000" = Some 1000%Z.
Proof. reflexivity. Qed.
Example int_bad : PyStr.int "5m" = None.
Proof. reflexivity. Qed.
Example int_neg : PyStr.int "-7" = Some (-7)%Z.
Proof. reflexivity. Qed.
Example int_separator : PyStr.int (String (ascii_of_nat 28) "5") = None.
Proof. reflexivity. Qed.
Example strip_separator : PyStr.strip (String (ascii_of_nat 28) "5") = "5".
Proof. reflexivity. Qed.
Example int_no_break_space : PyStr.int (String (ascii_of_nat 160) "5") = Some 5%Z.
Proof. reflexivity. Qed.
Example str_of_int_ex : PyStr.str_of_int 1700000000 = "1700000000".
Proof. reflexivity. Qed.
Example endswith_star : PyStr.endswith "/api/login*" "*" = true.
Proof. reflexivity. Qed.

(* --------------------------------------------------------------------- *)
(** ** Python dictionaries with string keys, in insertion order          *)
(* --------------------------------------------------------------------- *)

Module PyDict.

(** [d.get(k)]. *)
Fixpoint get {V} (k : string) (d : list (string * V)) : option V :=
  match d with
  | [] => None
  | (k', v) :: rest => if String.eqb k k' then Some v else get k rest
  end.

(** [d[k] = v]: in place when the key is present, at the end otherwise. *)
Fixpoint set {V} (k : string) (v : V) (d : list (string * V)) : list (string * V) :=
  match d with
  | [] => [(k, v)]
  | (k', v') :: rest =>
      if String.eqb k k' then (k, v) :: rest else (k', v') :: set k v rest
  end.

(** [del d[k]]. *)
Definition del {V} (k : string) (d : list (string * V)) : list (string * V) :=
  List.filter (fun kv => negb (String.eqb k kv.1)) d.

(** [dict(pairs)]. *)
Definition of_pairs {V} (l : list (string * V)) : list (string * V) :=
  fold_left (fun d kv => set kv.1 kv.2 d) l [].

End PyDict.

(* --------------------------------------------------------------------- *)
(** ** Library interfaces and configuration                              *)
(* --------------------------------------------------------------------- *)

(** What the sources use of the Python run time and of third-party
    packages.  Every function of the program is parametric in it. *)
Class Platform := {
  (** [hashlib.sha256(s.encode()).hexdigest()] *)
  sha256_hexdigest : string -> string;
  (** [hmac.new(key, msg.encode(), hashlib.sha256).hexdigest()] *)
  hmac_sha256_hexdigest : string -> string -> string;
  (** [hashlib.md5(json.dumps(keys).encode()).hexdigest()] *)
  md5_json_hexdigest : list string -> string;
  (** [str(IPv4Network(f"{IPv4Address(ip)}/24", strict=False))], [None]
      when [IPv4Address] raises [ValueError] *)
  ipv4_network24 : string -> option string;
  (** the text of a float in an f-string *)
  format_float : Q -> string;
  (** [round(x, ndigits)] *)
  round_float : Q -> Z -> Q;
  (** [f"{x:.2f}"] *)
  format_2f : Q -> string;
  (** [math.sqrt] *)
  math_sqrt : Q -> Q;
  (** [model.decision_function(scaler.transform(X))[0]] of the trained
      scikit-learn model, on one feature vector *)
  ml_decision_function : list Q -> Q;
}.

(** src/config.py: [ProtectionLevel]. *)
Inductive ProtectionLevel := MONITOR | JS_CHALLENGE | RATE_LIMIT | BLOCK | BLACKHOLE.

(** src/config.py: the fields of [Settings] the pipeline reads. *)
Record Settings := {
  rate_limit_per_ip : Z;
  rate_limit_per_subnet : Z;
  rate_limit_global : Z;
  anomaly_threshold : Q;
  protection_level : ProtectionLevel;
  under_attack_mode : bool;
  jwt_secret : string;
}.

Definition default_settings : Settings := {|
  rate_limit_per_ip := 100;
  rate_limit_per_subnet := 1000;
  rate_limit_global := 10000;
  anomaly_threshold := 0.75;
  protection_level := MONITOR;
  under_attack_mode := false;
  jwt_secret := "change-me-in-production";
|}.

(* --------------------------------------------------------------------- *)
(** ** The Redis server, as far as the sources use it                    *)
(* --------------------------------------------------------------------- *)

Module Redis.

(** The key space, by the type of value a key holds: sorted sets (member
    to score), plain sets, string values, and the time to live last set on
    a key.  The passing of server time (a key vanishing when its time to
    live runs out) is not part of the state. *)
Record t := {
  zsets : gmap string (gmap string Q);
  sets : gmap string (gset string);
  strs : gmap string string;
  ttls : gmap string Z;
}.

Definition empty : t :=
  {| zsets := ∅; sets := ∅; strs := ∅; ttls := ∅ |}.

Definition zset_of (key : string) (r : t) : gmap string Q :=
  default ∅ (zsets r !! key).

Definition set_of (key : string) (r : t) : gset string :=
  default ∅ (sets r !! key).

Definition with_zset (key : string) (zs : gmap string Q) (r : t) : t :=
  {| zsets := <[key := zs]> (zsets r); sets := sets r; strs := strs r; ttls := ttls r |}.

(** A member survives [ZREMRANGEBYSCORE key -inf max] when its score is
    above [max]. *)
Definition above (max : Q) (e : string * Q) : Prop := Qle_bool e.2 max = false.

(** A member is counted by [ZCOUNT key min +inf] when its score is at
    least [min]. *)
Definition at_least (min : Q) (e : string * Q) : Prop := Qle_bool min e.2 = true.

#[global]
Instance above_dec max e : Decision (above max e).
Proof. unfold above. apply _. Defined.

#[global]
Instance at_least_dec min e : Decision (at_least min e).
Proof. unfold at_least. apply _. Defined.

(** The commands queued on a pipeline. *)
Inductive command :=
| ZREMRANGEBYSCORE (key : string) (max : Q)      (* from -inf to max *)
| ZADD (key member : string) (score : Q)
| ZCARD (key : string)
| EXPIRE (key : string) (secs : Z).

(** One command: its integer reply and the state after it. *)
Definition exec (c : command) (r : t) : Z * t :=
  match c with
  | ZREMRANGEBYSCORE key max =>
      let zs := zset_of key r in
      let kept := filter (above max) zs in
      (Z.of_nat (size zs) - Z.of_nat (size kept), with_zset key kept r)%Z
  | ZADD key member score =>
      let zs := zset_of key r in
      (match zs !! member with Some _ => 0 | None => 1 end%Z, with_zset key (<[member := score]> zs) r)
  | ZCARD key => (Z.of_nat (size (zset_of key r)), r)
  | EXPIRE key secs =>
      (1%Z, {| zsets := zsets r; sets := sets r; strs := strs r;
               ttls := <[key := secs]> (ttls r) |})
  end.

(** [pipe.execute()]: the commands in order, their replies in order. *)
Fixpoint execute (pipe : list command) (r : t) : list Z * t :=
  match pipe with
  | [] => ([], r)
  | c :: rest =>
      let '(x, r1) := exec c r in
      let '(xs, r2) := execute rest r1 in
      (x :: xs, r2)
  end.

(** [ZCOUNT key min +inf]. *)
Definition zcount (key : string) (min : Q) (r : t) : Z :=
  Z.of_nat (size (filter (at_least min) (zset_of key r))).

(** [SISMEMBER key member]. *)
Definition sismember (key member : string) (r : t) : bool :=
  bool_decide (member ∈ set_of key r).

(** [SADD key member]. *)
Definition sadd (key member : string) (r : t) : t :=
  {| zsets := zsets r; sets := <[key := {[member]} ∪ set_of key r]> (sets r);
     strs := strs r; ttls := ttls r |}.

(** [SREM key member]. *)
Definition srem (key member : string) (r : t) : t :=
  {| zsets := zsets r; sets := <[key := set_of key r ∖ {[member]}]> (sets r);
     strs := strs r; ttls := ttls r |}.

(** [EXISTS key], for the string keys the blocker writes. *)
Definition exists_ (key : string) (r : t) : bool :=
  bool_decide (is_Some (strs r !! key)).

(** [SET key value EX secs] is answered with an error ("invalid expire
    time") unless [secs] is positive.  (The server also refuses a time
    it cannot count, beyond some [9 * 10^15] seconds, depending on its
    clock; that bound is not part of the model.) *)
Definition valid_ex (secs : Z) : bool := (0 <? secs)%Z.

(** [SET key value EX secs], for a valid [secs].  The key vanishes when
    the time has run out; see the remark on [t]. *)
Definition set_ex (key value : string) (secs : Z) (r : t) : t :=
  {| zsets := zsets r; sets := sets r; strs := <[key := value]> (strs r);
     ttls := <[key := secs]> (ttls r) |}.

(** [DEL key]. *)
Definition delete (key : string) (r : t) : t :=
  {| zsets := zsets r; sets := sets r; strs := base.delete key (strs r);
     ttls := base.delete key (ttls r) |}.

End Redis.

(* --------------------------------------------------------------------- *)
(** ** src/mitigation/rate_limiter.py                                    *)
(* --------------------------------------------------------------------- *)

Module RateLimiter.
Section WithPlatform.
Context `{Platform}.

Definition WINDOW_SEC : Z := 60.

(** The member of one request: [f"{now}:{uuid.uuid4().hex[:8]}"]. *)
Definition member_of (now : Q) (uuid8 : string) : string :=
  format_float now +:+ ":" +:+ uuid8.

(** The four queued commands of a sliding-window check and the reply of
    [ZCARD] ([results[2]]). *)
Definition window_pipeline (key : string) (now window_start : Q) (member : string)
    (ttl : Z) : list Redis.command :=
  [Redis.ZREMRANGEBYSCORE key window_start; Redis.ZADD key member now;
   Redis.ZCARD key; Redis.EXPIRE key ttl].

(** The pipeline of [_check_key] and the count it reads from the
    replies. *)
Definition _check_key_count (key : string) (now window_start : Q) (member : string)
    (r : Redis.t) : Z * Redis.t :=
  let '(results, r') :=
    Redis.execute (window_pipeline key now window_start member (WINDOW_SEC + 10)) r in
  (nth 2 results 0%Z, r').

(** [_check_key]: [count <= limit]; [True] without a client. *)
Definition _check_key (key : string) (now window_start : Q) (member : string)
    (limit : Z) (client : option Redis.t) : bool * option Redis.t :=
  match client with
  | None => (true, None)
  | Some r =>
      let '(count, r') := _check_key_count key now window_start member r in
      ((count <=? limit)%Z, Some r')
  end.

(** [_get_count]: the members from [window_start] on; 0 without a
    client. *)
Definition _get_count (key : string) (window_start : Q) (client : option Redis.t) : Z :=
  match client with
  | None => 0%Z
  | Some r => Redis.zcount key window_start r
  end.

(** [_ip_to_subnet]: the /24 network of an IPv4 address, the string
    itself otherwise. *)
Definition _ip_to_subnet (ip : string) : string :=
  match ipv4_network24 ip with
  | Some network => network
  | None => ip
  end.

(** [allow]: per IP, then per subnet, then global; the first rejection
    ends the call.  [now] and [uuid8] are the clock reading and the
    random suffix of this call. *)
Definition allow (cfg : Settings) (now : Q) (uuid8 : string) (client_ip : string)
    (client : option Redis.t) : bool * option Redis.t :=
  match client with
  | None => (true, None)
  | Some _ =>
      let window_start := (now - inject_Z WINDOW_SEC)%Q in
      let member := member_of now uuid8 in
      let ip_key := "rl:ip:" +:+ client_ip in
      let '(ok_ip, c1) := _check_key ip_key now window_start member (rate_limit_per_ip cfg) client in
      if negb ok_ip then (false, c1) else
      let subnet := _ip_to_subnet client_ip in
      let sub_key := "rl:sub:" +:+ subnet in
      let '(ok_sub, c2) := _check_key sub_key now window_start member (rate_limit_per_subnet cfg) c1 in
      if negb ok_sub then (false, c2) else
      let global_key := "rl:global" in
      let '(ok_glob, c3) := _check_key global_key now window_start member (rate_limit_global cfg) c2 in
      if negb ok_glob then (false, c3) else
      (true, c3)
  end.

(** [allow_with_count]: the same checks, and the per-IP count read after
    them. *)
Definition allow_with_count (cfg : Settings) (now : Q) (uuid8 : string) (client_ip : string)
    (client : option Redis.t) : (bool * Z) * option Redis.t :=
  match client with
  | None => ((true, 0%Z), None)
  | Some _ =>
      let window_start := (now - inject_Z WINDOW_SEC)%Q in
      let member := member_of now uuid8 in
      let ip_key := "rl:ip:" +:+ client_ip in
      let '(ok_ip, c1) := _check_key ip_key now window_start member (rate_limit_per_ip cfg) client in
      if negb ok_ip then ((false, _get_count ip_key window_start c1), c1) else
      let subnet := _ip_to_subnet client_ip in
      let sub_key := "rl:sub:" +:+ subnet in
      let '(ok_sub, c2) := _check_key sub_key now window_start member (rate_limit_per_subnet cfg) c1 in
      if negb ok_sub then ((false, _get_count ip_key window_start c2), c2) else
      let global_key := "rl:global" in
      let '(ok_glob, c3) := _check_key global_key now window_start member (rate_limit_global cfg) c2 in
      if negb ok_glob then ((false, _get_count ip_key window_start c3), c3) else
      ((true, _get_count ip_key window_start c3), c3)
  end.

(** [check_rule_limit]: an own window per rule and address. *)
Definition check_rule_limit (now : Q) (uuid8 : string) (client_ip rule_name : string)
    (limit window_sec : Z) (client : option Redis.t) : (bool * Z) * option Redis.t :=
  match client with
  | None => ((true, 0%Z), None)
  | Some r =>
      let window_start := (now - inject_Z window_sec)%Q in
      let member := member_of now uuid8 in
      let key := "rl:rule:" +:+ rule_name +:+ ":" +:+ client_ip in
      let '(results, r') :=
        Redis.execute (window_pipeline key now window_start member (window_sec + 10)) r in
      let count := nth 2 results 0%Z in
      (((count <=? limit)%Z, count), Some r')
  end.

(** [get_ip_count]. *)
Definition get_ip_count (now : Q) (client_ip : string) (client : option Redis.t) : Z :=
  match client with
  | None => 0%Z
  | Some _ =>
      let window_start := (now - inject_Z WINDOW_SEC)%Q in
      _get_count ("rl:ip:" +:+ client_ip) window_start client
  end.

End WithPlatform.
End RateLimiter.

(* --------------------------------------------------------------------- *)
(** ** src/mitigation/blocker.py                                         *)
(* --------------------------------------------------------------------- *)

Module IPBlocker.

Definition BLOCKLIST_KEY : string := "sentinel:blocklist".
Definition ALLOWLIST_KEY : string := "sentinel:allowlist".

(** [is_blocked]: the allow list first, then the key of a temporary
    block, then the permanent block list; [False] without a client. *)
Definition is_blocked (ip : string) (client : option Redis.t) : bool :=
  match client with
  | None => false
  | Some r =>
      if Redis.sismember ALLOWLIST_KEY ip r then false
      else if Redis.exists_ ("block:" +:+ ip) r then true
      else Redis.sismember BLOCKLIST_KEY ip r
  end.

(** Whether [block] raises: the [ResponseError] of [redis.set] for a
    duration that Redis refuses.  [duration_sec] is [Optional[int]];
    [if duration_sec:] fails for [None] and for [0], which never reach
    [redis.set]. *)
Definition block_raises (duration_sec : option Z) (client : option Redis.t) : bool :=
  match client, duration_sec with
  | Some _, Some d => negb (d =? 0)%Z && negb (Redis.valid_ex d)
  | _, _ => false
  end.

(** [block]: the client after the call.  When the call raises nothing
    has been written. *)
Definition block (ip reason : string) (duration_sec : option Z)
    (client : option Redis.t) : option Redis.t :=
  match client with
  | None => None
  | Some r =>
      match duration_sec with
      | Some d =>
          if (d =? 0)%Z then Some (Redis.sadd BLOCKLIST_KEY ip r)
          else if Redis.valid_ex d then Some (Redis.set_ex ("block:" +:+ ip) reason d r)
          else Some r
      | None => Some (Redis.sadd BLOCKLIST_KEY ip r)
      end
  end.

Definition unblock (ip : string) (client : option Redis.t) : option Redis.t :=
  match client with
  | None => None
  | Some r => Some (Redis.srem BLOCKLIST_KEY ip (Redis.delete ("block:" +:+ ip) r))
  end.

Definition allow (ip : string) (client : option Redis.t) : option Redis.t :=
  match client with
  | None => None
  | Some r => Some (Redis.sadd ALLOWLIST_KEY ip r)
  end.

(** [get_blocked_ips]: the members of the permanent block list (with
    [decode_responses=True] they are [str] already). *)
Definition get_blocked_ips (client : option Redis.t) : list string :=
  match client with
  | None => []
  | Some r => elements (Redis.set_of BLOCKLIST_KEY r)
  end.

End IPBlocker.

(* --------------------------------------------------------------------- *)
(** ** HTTP requests and responses (the part of FastAPI the code reads)  *)
(* --------------------------------------------------------------------- *)

Module Http.

(** The body of a response built by the proxy.  [ChallengePage token] is
    the constant HTML template of [_render_challenge_page] with [token]
    substituted; [Relayed] is a body copied from the upstream answer. *)
Inductive content :=
| Empty
| Text (s : string)
| ChallengePage (token : string)
| Relayed (body : string).

Record Response := {
  status_code : Z;
  body : content;
  media_type : option string;
  resp_headers : list (string * string);
}.

Definition plain (code : Z) (c : content) : Response :=
  {| status_code := code; body := c; media_type := None; resp_headers := [] |}.

(** Header names are lower case, in the order received. *)
Record Request := {
  url_path : string;                       (* request.url.path *)
  url_query : string;                      (* request.url.query *)
  method : string;                         (* request.method *)
  headers : list (string * string);        (* request.headers *)
  cookies : list (string * string);        (* request.cookies *)
  client_host : option string;             (* request.client.host *)
  req_body : string;
}.

(** [request.headers.get(k)]: the first header of that name. *)
Fixpoint get_first (k : string) (l : list (string * string)) : option string :=
  match l with
  | [] => None
  | (k', v) :: rest => if String.eqb k k' then Some v else get_first k rest
  end.

(** [list(dict(request.headers).keys())]: each name once, in the order of
    its first occurrence. *)
Fixpoint dict_keys (l : list (string * string)) (seen : list string) : list string :=
  match l with
  | [] => []
  | (k, _) :: rest =>
      if bool_decide (k ∈ seen) then dict_keys rest seen
      else k :: dict_keys rest (k :: seen)
  end.

(** [dict(request.headers)]: [dict] asks the mapping for its keys and
    then for the value of each, and [Headers.__getitem__] answers with
    the first header of a name.  So each name is there once, at the
    place of its first occurrence and with its first value. *)
Fixpoint to_dict_from (l : list (string * string)) (seen : list string)
    : list (string * string) :=
  match l with
  | [] => []
  | (k, v) :: rest =>
      if bool_decide (k ∈ seen) then to_dict_from rest seen
      else (k, v) :: to_dict_from rest (k :: seen)
  end.

Definition to_dict (l : list (string * string)) : list (string * string) :=
  to_dict_from l [].

(** [headers.items()] of an httpx response, [raw] being the headers as
    received: each name once, in lower case, at the place of its first
    occurrence; the values of a repeated name are joined with [", "]. *)
Definition httpx_items (raw : list (string * string)) : list (string * string) :=
  fold_left
    (fun d kv =>
       let k := PyStr.lower kv.1 in
       match PyDict.get k d with
       | Some v => PyDict.set k (v +:+ ", " +:+ kv.2) d
       | None => PyDict.set k kv.2 d
       end)
    raw [].

End Http.

(** Truthiness of an [Optional[str]]: [None] and the empty string fail. *)
Definition truthy (o : option string) : bool :=
  match o with
  | Some (String _ _) => true
  | _ => false
  end.

(* --------------------------------------------------------------------- *)
(** ** src/rules/engine.py                                               *)
(* --------------------------------------------------------------------- *)

Module RulesEngine.

Record RateLimit := {
  per_ip : option string;
  per_subnet : option string;
}.

Record EscalationStep := {
  threshold : Q;
  action : string;
  duration : option string;
}.

Record Rule := {
  name : string;
  match_path : option string;
  match_method : option string;
  limits : option RateLimit;
  escalation : list EscalationStep;
  enabled : bool;
}.

Definition _path_matches (request_path rule_path : string) : bool :=
  if PyStr.endswith rule_path "*"
  then PyStr.startswith request_path (PyStr.drop_last rule_path)
  else String.eqb request_path rule_path.

Definition rule_matches (path method : string) (rule : Rule) : bool :=
  enabled rule
  && negb (truthy (match_path rule) && negb (_path_matches path (default "" (match_path rule))))
  && negb (truthy (match_method rule)
           && negb (String.eqb (PyStr.upper (default "" (match_method rule))) (PyStr.upper method))).

(** [match_request]: the rules that pass the three tests, in file order. *)
Definition match_request (rules : list Rule) (path method : string) : list Rule :=
  List.filter (rule_matches path method) rules.

Definition unit_map (unit : string) : option Z :=
  if String.eqb unit "second" then Some 1%Z
  else if String.eqb unit "minute" then Some 60%Z
  else if String.eqb unit "hour" then Some 3600%Z
  else if String.eqb unit "day" then Some 86400%Z
  else None.

(** [parse_rate_string]: [None] stands for the [ValueError] of [int]. *)
Definition parse_rate_string (rate_str : string) : option (Z * Z) :=
  let parts := PyStr.split "/" rate_str in
  match PyStr.int (nth 0 parts "") with
  | None => None
  | Some count =>
      let unit := match parts with
                  | _ :: u :: _ => PyStr.lower u
                  | _ => "minute"
                  end in
      let window := default 60%Z (unit_map unit) in
      Some (count, window)
  end.

End RulesEngine.

Example parse_rate_5_minute : RulesEngine.parse_rate_string "5/minute" = Some (5, 60)%Z.
Proof. reflexivity. Qed.
Example parse_rate_100_hour : RulesEngine.parse_rate_string "100/hour" = Some (100, 3600)%Z.
Proof. reflexivity. Qed.

(* --------------------------------------------------------------------- *)
(** ** src/mitigation/challenge.py                                       *)
(* --------------------------------------------------------------------- *)

Module ChallengeManager.
Section WithPlatform.
Context `{Platform}.

Definition CHALLENGE_COOKIE : string := "sentinel_challenge".
Definition CHALLENGE_TTL : Z := 3600.

(** [_generate_challenge]; [nonce] is [secrets.token_hex(16)]. *)
Definition _generate_challenge (secret : string) (now : Q) (nonce client_ip : string) : string :=
  let ts := PyStr.str_of_int (PyStr.int_of_float now) in
  let data := client_ip +:+ ":" +:+ nonce +:+ ":" +:+ ts in
  let sig := hmac_sha256_hexdigest secret data in
  data +:+ ":" +:+ sig.

(** [_verify_token].  Every exception inside the [try] gives [False]:
    the [ValueError] of [int(ts)] is the [None] of [PyStr.int], the
    [OverflowError] of [time.time() - int(ts)] the [None] of
    [PyFloat.of_int].  [hmac.compare_digest] is equality of the two
    strings. *)
Definition _verify_token (secret : string) (now : Q) (token client_ip : string) : bool :=
  match PyStr.split ":" token with
  | [ip; nonce; ts; sig; pow_nonce] =>
      if negb (String.eqb ip client_ip) then false else
      match PyStr.int ts with
      | None => false
      | Some t =>
          match PyFloat.of_int t with
          | None => false
          | Some issued =>
              if negb (Qle_bool (now - issued) (inject_Z CHALLENGE_TTL)) then false else
              let original := ip +:+ ":" +:+ nonce +:+ ":" +:+ ts in
              let expected := hmac_sha256_hexdigest secret original in
              if negb (String.eqb sig expected) then false else
              let full_token := original +:+ ":" +:+ sig in
              let pow_input := full_token +:+ ":" +:+ pow_nonce in
              let pow_hash := sha256_hexdigest pow_input in
              PyStr.startswith pow_hash "00"
          end
      end
  | _ => false
  end.

(** [maybe_challenge]: [None] lets the request through, otherwise the
    503 page carrying a fresh token. *)
Definition maybe_challenge (secret : string) (now : Q) (nonce : string)
    (request : Http.Request) (client_ip : string) : option Http.Response :=
  let cookie := Http.get_first CHALLENGE_COOKIE (Http.cookies request) in
  if truthy cookie && _verify_token secret now (default "" cookie) client_ip then None
  else
    let token := _generate_challenge secret now nonce client_ip in
    Some {| Http.status_code := 503; Http.body := Http.ChallengePage token;
            Http.media_type := Some "text/html"; Http.resp_headers := [] |}.

End WithPlatform.
End ChallengeManager.

(* --------------------------------------------------------------------- *)
(** ** src/proxy/fingerprint.py                                          *)
(* --------------------------------------------------------------------- *)

Module Fingerprint.
Section WithPlatform.
Context `{Platform}.

Record RequestFingerprint := {
  client_ip : string;
  ja3_hash : option string;
  header_order_hash : option string;
  user_agent : option string;
  accept_language : option string;
  accept_encoding : option string;
  connection_type : option string;
  raw_headers : list (string * string);
}.

(** [x or ""] for an [Optional[str]]. *)
Definition or_empty (o : option string) : string := default "" o.

(** [s[:n]]. *)
Definition take_string (n : nat) (s : string) : string := String.substring 0 n s.

Definition composite_id (fp : RequestFingerprint) : string :=
  let parts := [or_empty (ja3_hash fp); or_empty (header_order_hash fp);
                or_empty (user_agent fp); or_empty (accept_language fp)] in
  let digest := take_string 16 (sha256_hexdigest (PyStr.join "|" parts)) in
  client_ip fp +:+ ":" +:+ digest.

(** [compute_header_order_hash(dict(request.headers))]; the argument is
    the header list the dict is built from. *)
Definition compute_header_order_hash (headers : list (string * string)) : string :=
  md5_json_hexdigest (Http.dict_keys headers []).

Definition fingerprint_request (request : Http.Request) (ip : string)
    (ja3 : option string) : RequestFingerprint :=
  let headers := Http.to_dict (Http.headers request) in
  {| client_ip := ip;
     ja3_hash := ja3;
     header_order_hash := Some (compute_header_order_hash (Http.headers request));
     user_agent := PyDict.get "user-agent" headers;
     accept_language := PyDict.get "accept-language" headers;
     accept_encoding := PyDict.get "accept-encoding" headers;
     connection_type := PyDict.get "connection" headers;
     raw_headers := headers |}.

End WithPlatform.
End Fingerprint.

(* --------------------------------------------------------------------- *)
(** ** The feature dictionary of src/detection/engine.py                 *)
(* --------------------------------------------------------------------- *)

(** The [features] dict.  A field is [None] when the key is absent, which
    is what the [.get(key, default)] calls of the readers provide for;
    [_extract_features] sets them all. *)
Record Features := {
  f_timestamp : option Q;
  f_client_ip : option string;
  f_method : option string;
  f_path : option string;
  f_query : option string;
  f_user_agent : option string;
  f_content_length : option Z;
  f_header_count : option Z;
  f_accept_language : option string;
  f_raw_headers : option (list (string * string));
}.

(** [min(1.0, max(0.0, x))]. *)
Definition clamp01 (x : Q) : Q := Qmin 1 (Qmax 0 x).

(** [sum(...)] of floats: from 0, left to right. *)
Definition Qsum (l : list Q) : Q := fold_left Qplus l 0%Q.

(** [a > b] on floats. *)
Definition Qgt_bool (a b : Q) : bool := negb (Qle_bool a b).
(** [a < b] on floats. *)
Definition Qlt_bool (a b : Q) : bool := negb (Qle_bool b a).

(* --------------------------------------------------------------------- *)
(** ** src/detection/classifier.py                                       *)
(* --------------------------------------------------------------------- *)

Module AttackClassifier.

Inductive AttackType :=
| HTTP_FLOOD | SLOWLORIS | API_ABUSE | CREDENTIAL_STUFFING | SCRAPING | UNKNOWN.

Definition login_paths : list string :=
  ["/login"; "/auth"; "/api/login"; "/api/auth"; "/signin"; "/api/signin"].

Definition mem_string (s : string) (l : list string) : bool :=
  existsb (String.eqb s) l.

(** [rate_count / rate_limit if rate_limit > 0 else 0.0]. *)
Definition rate_ratio_of (rate_count rate_limit : Z) : Q :=
  if (0 <? rate_limit)%Z then (inject_Z rate_count / inject_Z rate_limit)%Q else 0%Q.

Definition classify (features : Features) (rate_count rate_limit : Z)
    (behavior_score : Q) : option AttackType :=
  let method := default "GET" (f_method features) in
  let path := default "/" (f_path features) in
  let ua := default "" (f_user_agent features) in
  let content_length := default 0%Z (f_content_length features) in
  let rate_ratio := rate_ratio_of rate_count rate_limit in
  if Qgt_bool rate_ratio 0.6 && (String.eqb ua "" || Qgt_bool behavior_score 0.5)
  then Some HTTP_FLOOD
  else if Qgt_bool rate_ratio 0.85
  then Some HTTP_FLOOD
  else if (content_length =? 0)%Z && String.eqb method "POST" && Qgt_bool behavior_score 0.3
  then Some SLOWLORIS
  else if mem_string (PyStr.lower path) login_paths && String.eqb method "POST"
          && Qgt_bool rate_ratio 0.3
  then Some CREDENTIAL_STUFFING
  else if PyStr.contains "/api/" path && mem_string method ["POST"; "PUT"; "DELETE"]
          && (Qgt_bool rate_ratio 0.5 || Qgt_bool behavior_score 0.6)
  then Some API_ABUSE
  else if String.eqb method "GET" && Qgt_bool behavior_score 0.6 && Qgt_bool rate_ratio 0.4
  then Some SCRAPING
  else None.

End AttackClassifier.

(* --------------------------------------------------------------------- *)
(** ** src/detection/baseline.py (the statistics the scorer reads)       *)
(* --------------------------------------------------------------------- *)

Module BaselineModel.

Record t := {
  window_sec : Z;
  observations : list Features;
  ips_seen : gset string;
  mean_rps : Q;
  std_rps : Q;
  mean_header_count : Q;
  std_header_count : Q;
  mean_content_length : Q;
  std_content_length : Q;
  is_ready : bool;
}.

(** [_evict_old]: pop from the left while the oldest observation is older
    than the cut-off.  [o["timestamp"]] raises [KeyError] for an
    observation without a time stamp; what was popped before stays
    popped.  The result is the deque that is left, and [false] when the
    loop ended with the exception. *)
Fixpoint evict (cutoff : Q) (obs : list Features) : list Features * bool :=
  match obs with
  | [] => ([], true)
  | o :: rest =>
      match f_timestamp o with
      | Some ts => if Qlt_bool ts cutoff then evict cutoff rest else (obs, true)
      | None => (obs, false)
      end
  end.

(** [record_observation]: append, note the address, evict.  The flag is
    [false] when [_evict_old] raised, which it does after the
    observation and the address were recorded: with the [KeyError] of
    [evict], or with the [OverflowError] of [time.time() - window_sec]
    for a window beyond the range of floats. *)
Definition record_observation (now : Q) (features : Features) (b : t) : t * bool :=
  let appended := observations b ++ [features] in
  let '(kept, evicted) :=
    match PyFloat.of_int (window_sec b) with
    | Some window => evict (now - window) appended
    | None => (appended, false)
    end in
  ({| window_sec := window_sec b;
      observations := kept;
      ips_seen := match f_client_ip features with
                  | Some ip => {[ip]} ∪ ips_seen b
                  | None => ips_seen b
                  end;
      mean_rps := mean_rps b; std_rps := std_rps b;
      mean_header_count := mean_header_count b; std_header_count := std_header_count b;
      mean_content_length := mean_content_length b; std_content_length := std_content_length b;
      is_ready := is_ready b |}, evicted).

End BaselineModel.

(* --------------------------------------------------------------------- *)
(** ** src/detection/scorer.py                                           *)
(* --------------------------------------------------------------------- *)

Module AnomalyScorer.

Definition WEIGHTS : list (string * Q) :=
  [("header_count", 0.15); ("content_length", 0.10); ("user_agent", 0.20);
   ("path_entropy", 0.10); ("rate", 0.20); ("behavior", 0.25)]%Q.

(** [_z_to_score]; [if std] fails exactly for [std = 0]. *)
Definition _z_to_score (value mean std : Q) : Q :=
  let z := if Qeq_bool std 0 then 0%Q else (Qabs (value - mean) / std)%Q in
  if Qlt_bool z 1.5 then 0%Q
  else if Qlt_bool z 3 then ((z - 1.5) / 1.5)%Q
  else 1%Q.

Definition suspicious : list string :=
  ["python-requests"; "curl"; "wget"; "go-http-client";
   "httpclient"; "java/"; "libwww"; "okhttp"].

Definition _score_user_agent (ua : string) : Q :=
  if String.eqb ua "" then 0.9%Q
  else if existsb (fun s => PyStr.contains s (PyStr.lower ua)) suspicious then 0.5%Q
  else 0%Q.

(** [len(set(path))]. *)
Definition unique_chars (path : string) : nat :=
  length (remove_dups (list_ascii_of_string path)).

Definition _score_path (path : string) : Q :=
  if (512 <? String.length path)%nat then 0.8%Q
  else if (40 <? unique_chars path)%nat then 0.5%Q
  else 0%Q.

(** [signals.get(k, 0)]. *)
Definition signal (signals : list (string * Q)) (k : string) : Q :=
  match List.find (fun kv => String.eqb kv.1 k) signals with
  | Some kv => kv.2
  | None => 0%Q
  end.

Definition score (features : Features) (baseline : BaselineModel.t)
    (rate_ratio behavior_score : Q) : Q :=
  if negb (BaselineModel.is_ready baseline) then 0%Q else
  let hc := inject_Z (default 0%Z (f_header_count features)) in
  let cl := inject_Z (default 0%Z (f_content_length features)) in
  let ua := default "" (f_user_agent features) in
  let path := default "/" (f_path features) in
  let signals :=
    [("header_count", _z_to_score hc (BaselineModel.mean_header_count baseline)
                         (BaselineModel.std_header_count baseline));
     ("content_length", _z_to_score cl (BaselineModel.mean_content_length baseline)
                           (BaselineModel.std_content_length baseline));
     ("user_agent", _score_user_agent ua);
     ("path_entropy", _score_path path);
     ("rate", clamp01 rate_ratio);
     ("behavior", clamp01 behavior_score)] in
  let composite := Qsum (List.map (fun kw => signal signals kw.1 * kw.2)%Q WEIGHTS) in
  clamp01 composite.

(** [value - mean] in [_z_to_score] turns an [int] value into a float,
    unless [std] is zero and the difference is not computed: whether
    that raises [OverflowError]. *)
Definition _z_overflows (value : Z) (std : Q) : bool :=
  negb (Qeq_bool std 0)
  && match PyFloat.of_int value with Some _ => false | None => true end.

(** Whether [score] raises: [header_count] and [content_length] are
    integers, and [score] above is the value when it does not. *)
Definition overflows (features : Features) (baseline : BaselineModel.t) : bool :=
  BaselineModel.is_ready baseline
  && (_z_overflows (default 0%Z (f_header_count features))
        (BaselineModel.std_header_count baseline)
      || _z_overflows (default 0%Z (f_content_length features))
           (BaselineModel.std_content_length baseline)).

End AnomalyScorer.

(* --------------------------------------------------------------------- *)
(** ** src/detection/behavior.py                                         *)
(* --------------------------------------------------------------------- *)

Module BehaviorAnalyzer.
Section WithPlatform.
Context `{Platform}.

Definition SESSION_TTL : Z := 600.
Definition MAX_TRACKED : Z := 50000.

Record IPSession := {
  first_seen : Q;
  last_seen : Q;
  request_count : Z;
  inter_arrival_times : list Q;      (* deque(maxlen=200) *)
  paths_visited : list string;       (* deque(maxlen=100) *)
  methods_used : gset string;
  has_referer : bool;
  has_cookies : bool;
  user_agents : gset string;
  accept_languages : gset string;
  header_order_hashes : gset string;
}.

(** [IPSession()]. *)
Definition new_session : IPSession := {|
  first_seen := 0; last_seen := 0; request_count := 0;
  inter_arrival_times := []; paths_visited := [];
  methods_used := ∅; has_referer := false; has_cookies := false;
  user_agents := ∅; accept_languages := ∅; header_order_hashes := ∅ |}.

(** [d.append(x)] on a [deque(maxlen=n)]: the oldest entries fall off
    on the left. *)
Definition deque_append {A} (maxlen : Z) (d : list A) (x : A) : list A :=
  let d' := d ++ [x] in
  drop (Z.to_nat (Z.of_nat (length d') - maxlen)) d'.

Definition nonempty (s : string) : bool := negb (String.eqb s "").

(** [IPSession.record]. *)
Definition record (now : Q) (path method user_agent accept_language : string)
    (referer cookie : option string) (header_order_hash : string)
    (s : IPSession) : IPSession :=
  {| first_seen := if Qeq_bool (first_seen s) 0 then now else first_seen s;
     last_seen := now;
     request_count := request_count s + 1;
     inter_arrival_times :=
       if Qgt_bool (last_seen s) 0
       then deque_append 200 (inter_arrival_times s) (now - last_seen s)%Q
       else inter_arrival_times s;
     paths_visited := deque_append 100 (paths_visited s) path;
     methods_used := {[method]} ∪ methods_used s;
     has_referer := if truthy referer then true else has_referer s;
     has_cookies := if truthy cookie then true else has_cookies s;
     user_agents := if nonempty user_agent then {[user_agent]} ∪ user_agents s
                    else user_agents s;
     accept_languages := if nonempty accept_language
                         then {[accept_language]} ∪ accept_languages s
                         else accept_languages s;
     header_order_hashes := {[header_order_hash]} ∪ header_order_hashes s |}.

Definition Qlen {A} (l : list A) : Q := inject_Z (Z.of_nat (length l)).

Definition _timing_regularity (s : IPSession) : Q :=
  let intervals := inter_arrival_times s in
  if (length intervals <? 5)%nat then 0%Q else
  let mean_iat := (Qsum intervals / Qlen intervals)%Q in
  if Qeq_bool mean_iat 0 then 1%Q else
  let variance :=
    (Qsum (List.map (fun x => (x - mean_iat) ^ 2) intervals) / Qlen intervals)%Q in
  let std_iat := math_sqrt variance in
  let cv := (std_iat / mean_iat)%Q in
  if Qlt_bool cv 0.05 then 1%Q
  else if Qlt_bool cv 0.15 then 0.7%Q
  else if Qlt_bool cv 0.3 then 0.3%Q
  else 0%Q.

Definition _path_diversity (s : IPSession) : Q :=
  let paths := paths_visited s in
  match paths with
  | [] => 0%Q
  | _ => (Qlen (remove_dups paths) / Qlen paths)%Q
  end.

Definition _header_consistency (s : IPSession) : Q :=
  let score := 0%Q in
  let score := if (1 <? size (user_agents s))%nat then (score + 0.5)%Q else score in
  let score := if (2 <? size (accept_languages s))%nat then (score + 0.3)%Q else score in
  let score := if (2 <? size (header_order_hashes s))%nat then (score + 0.2)%Q else score in
  Qmin 1 score.

Definition _rate_score (s : IPSession) : Q :=
  let duration := (last_seen s - first_seen s)%Q in
  if Qlt_bool duration 1 then 0%Q else
  let rps := (inject_Z (request_count s) / duration)%Q in
  if Qgt_bool rps 20 then 1%Q
  else if Qgt_bool rps 10 then 0.7%Q
  else if Qgt_bool rps 5 then 0.3%Q
  else 0%Q.

Definition _browser_indicators (s : IPSession) : Q :=
  let score := 0%Q in
  let score := if negb (has_referer s) && (5 <? request_count s)%Z
               then (score + 0.4)%Q else score in
  let score := if negb (has_cookies s) && (3 <? request_count s)%Z
               then (score + 0.3)%Q else score in
  let score := if (size (accept_languages s) =? 0)%nat then (score + 0.3)%Q else score in
  Qmin 1 score.

(** The list [signals] of (value, weight) pairs, in the order appended. *)
Definition signals_of (s : IPSession) : list (Q * Q) :=
  [(_timing_regularity s, 0.30); ((1 - _path_diversity s), 0.15);
   (_header_consistency s, 0.15); (_rate_score s, 0.20);
   (_browser_indicators s, 0.20)]%Q.

Definition _compute_score (s : IPSession) : Q :=
  if (request_count s <? 3)%Z then 0%Q else
  let signals := signals_of s in
  let composite := Qsum (List.map (fun vw => vw.1 * vw.2)%Q signals) in
  clamp01 composite.

(** The analyzer: [_sessions] is a [dict], kept as the list of its items
    in insertion order. *)
Record t := {
  sessions : list (string * IPSession);
  last_cleanup : Q;
}.

(** [BehaviorAnalyzer()]. *)
Definition init : t := {| sessions := []; last_cleanup := 0 |}.

(** [min(d, key=lambda k: d[k].last_seen)]: the first key, in iteration
    order, whose session has the least [last_seen]. *)
Fixpoint oldest_from (best : string * IPSession) (d : list (string * IPSession)) : string :=
  match d with
  | [] => best.1
  | kv :: rest =>
      if Qlt_bool (last_seen kv.2) (last_seen best.2) then oldest_from kv rest
      else oldest_from best rest
  end.

Definition _maybe_cleanup (now : Q) (a : t) : t :=
  if Qlt_bool (now - last_cleanup a) 60 then a else
  let cutoff := (now - inject_Z SESSION_TTL)%Q in
  {| sessions := List.filter (fun kv => negb (Qlt_bool (last_seen kv.2) cutoff)) (sessions a);
     last_cleanup := now |}.

Definition get_session (client_ip : string) (a : t) : option IPSession :=
  PyDict.get client_ip (sessions a).

Definition record_and_score (now : Q) (client_ip path method user_agent accept_language : string)
    (referer cookie : option string) (header_order_hash : string)
    (a : t) : Q * t :=
  let a := _maybe_cleanup now a in
  let '(session, d) :=
    match PyDict.get client_ip (sessions a) with
    | Some session => (session, sessions a)
    | None =>
        let d := match sessions a with
                 | kv :: rest =>
                     if (MAX_TRACKED <=? Z.of_nat (length (sessions a)))%Z
                     then PyDict.del (oldest_from kv rest) (sessions a)
                     else sessions a
                 | [] => []
                 end in
        (new_session, d)
    end in
  let session := record now path method user_agent accept_language referer cookie
                   header_order_hash session in
  (_compute_score session,
   {| sessions := PyDict.set client_ip session d; last_cleanup := last_cleanup a |}).

End WithPlatform.
End BehaviorAnalyzer.

(* --------------------------------------------------------------------- *)
(** ** src/detection/ml_model.py (scoring and sample recording)          *)
(* --------------------------------------------------------------------- *)

Module MLAnomalyModel.
Section WithPlatform.
Context `{Platform}.

(** The trained model and scaler live in [ml_decision_function]; the
    state keeps whether one is resident and the training buffer. *)
Record t := {
  is_trained : bool;
  has_model : bool;                  (* [_model is not None] *)
  max_samples : Z;
  training_buffer : list (list Q);   (* deque(maxlen = max_samples * 4) *)
}.

Definition is_ready (m : t) : bool := is_trained m && has_model m.

Definition bool_Q (b : bool) : Q := if b then 1%Q else 0%Q.

(** [extract_vector]: [np.array(..., dtype=np.float64)] turns the four
    integers among the entries into floats; [None] stands for the
    [OverflowError] of an integer beyond their range. *)
Definition extract_vector (features : Features) (rate_ratio behavior_score : Q)
    : option (list Q) :=
  let ua := default "" (f_user_agent features) in
  let ua_lower := PyStr.lower ua in
  let ua_score :=
    if String.eqb ua "" then 0.9%Q
    else if existsb (fun token => PyStr.contains token ua_lower) AnomalyScorer.suspicious
    then 0.5%Q else 0%Q in
  let path := default "/" (f_path features) in
  let headers := default [] (f_raw_headers features) in
  header_count ← PyFloat.of_int (default 0%Z (f_header_count features));
  content_length ← PyFloat.of_int (default 0%Z (f_content_length features));
  path_length ← PyFloat.of_int (Z.of_nat (String.length path));
  path_unique_chars ← PyFloat.of_int (Z.of_nat (AnomalyScorer.unique_chars path));
  Some [header_count;
        content_length;
        ua_score;
        path_length;
        path_unique_chars;
        bool_Q (String.eqb (default "GET" (f_method features)) "POST");
        bool_Q (truthy (PyDict.get "cookie" headers));
        bool_Q (truthy (PyDict.get "referer" headers));
        bool_Q (truthy (f_accept_language features));
        rate_ratio;
        behavior_score].

(** [record_sample]: [None] when [extract_vector] raises, the buffer
    then being as before. *)
Definition record_sample (features : Features) (rate_ratio behavior_score : Q) (m : t)
    : option t :=
  vec ← extract_vector features rate_ratio behavior_score;
  Some {| is_trained := is_trained m; has_model := has_model m; max_samples := max_samples m;
          training_buffer :=
            BehaviorAnalyzer.deque_append (max_samples m * 4) (training_buffer m) vec |}.

(** [score]: 0 without a trained model, before any vector is built. *)
Definition score (features : Features) (rate_ratio behavior_score : Q) (m : t) : option Q :=
  if negb (is_ready m) then Some 0%Q else
  vec ← extract_vector features rate_ratio behavior_score;
  let raw_score := ml_decision_function vec in
  let normalized := (1 - (raw_score + 0.5))%Q in
  Some (clamp01 normalized).

End WithPlatform.
End MLAnomalyModel.

(* --------------------------------------------------------------------- *)
(** ** src/detection/engine.py                                           *)
(* --------------------------------------------------------------------- *)

Module DetectionEngine.
Section WithPlatform.
Context `{Platform}.

Definition ML_BLEND_WEIGHT : Q := 0.4.

(** The engine with the module-level singletons it works on. *)
Record t := {
  baseline : BaselineModel.t;
  ml : MLAnomalyModel.t;
  analyzer : BehaviorAnalyzer.t;     (* the [behavior_analyzer] singleton *)
}.

(** [_extract_features]: [None] stands for the [ValueError] of
    [int(request.headers.get("content-length", 0))]. *)
Definition _extract_features (now : Q) (request : Http.Request) (client_ip : string)
    : option Features :=
  let hs := Http.headers request in
  match match Http.get_first "content-length" hs with
        | Some v => PyStr.int v
        | None => Some 0%Z
        end with
  | None => None
  | Some cl =>
      Some {| f_timestamp := Some now;
              f_client_ip := Some client_ip;
              f_method := Some (Http.method request);
              f_path := Some (Http.url_path request);
              f_query := Some (Http.url_query request);
              f_user_agent := Some (default "" (Http.get_first "user-agent" hs));
              f_content_length := Some cl;
              f_header_count := Some (Z.of_nat (length hs));
              f_accept_language := Some (default "" (Http.get_first "accept-language" hs));
              f_raw_headers := None |}
  end.

Definition with_raw_headers (hs : list (string * string)) (f : Features) : Features :=
  {| f_timestamp := f_timestamp f; f_client_ip := f_client_ip f; f_method := f_method f;
     f_path := f_path f; f_query := f_query f; f_user_agent := f_user_agent f;
     f_content_length := f_content_length f; f_header_count := f_header_count f;
     f_accept_language := f_accept_language f; f_raw_headers := Some hs |}.

(** The clock readings of one call of [score_request]. *)
Record clock := {
  t_features : Q;
  t_behavior : Q;
  t_baseline : Q;
}.

(** [score_request], with the behaviour score it computed on the way
    (the source keeps it in a local variable).  [None] stands for an
    exception, and the engine beside it is the state the exception
    leaves: untouched when [_extract_features] raises; with the request
    recorded in the analyzer when the scorer, the ML score or
    [record_sample] raises [OverflowError]; with the sample and the
    observation recorded too when [record_observation] raises. *)
Definition score_request_with_behavior (ck : clock) (request : Http.Request)
    (client_ip : string) (rate_count rate_limit : Z) (e : t) : option (Q * Q) * t :=
  match _extract_features (t_features ck) request client_ip with
  | None => (None, e)
  | Some features =>
      let rate_ratio := AttackClassifier.rate_ratio_of rate_count rate_limit in
      let headers := Http.to_dict (Http.headers request) in
      let header_order_hash := Fingerprint.compute_header_order_hash (Http.headers request) in
      let '(behavior_score, analyzer') :=
        BehaviorAnalyzer.record_and_score (t_behavior ck) client_ip
          (default "/" (f_path features)) (default "GET" (f_method features))
          (default "" (f_user_agent features)) (default "" (f_accept_language features))
          (PyDict.get "referer" headers) (PyDict.get "cookie" headers)
          header_order_hash (analyzer e) in
      let features := with_raw_headers headers features in
      let recorded := {| baseline := baseline e; ml := ml e; analyzer := analyzer' |} in
      if AnomalyScorer.overflows features (baseline e) then (None, recorded) else
      let heuristic_score :=
        AnomalyScorer.score features (baseline e) rate_ratio behavior_score in
      match MLAnomalyModel.score features rate_ratio behavior_score (ml e) with
      | None => (None, recorded)
      | Some ml_score =>
          let score :=
            if MLAnomalyModel.is_ready (ml e)
            then ((1 - ML_BLEND_WEIGHT) * heuristic_score + ML_BLEND_WEIGHT * ml_score)%Q
            else heuristic_score in
          match MLAnomalyModel.record_sample features rate_ratio behavior_score (ml e) with
          | None => (None, recorded)
          | Some ml' =>
              let '(baseline', observed) :=
                BaselineModel.record_observation (t_baseline ck) features (baseline e) in
              let e' := {| baseline := baseline'; ml := ml'; analyzer := analyzer' |} in
              if observed then (Some (clamp01 score, behavior_score), e') else (None, e')
          end
      end
  end.

Definition score_request (ck : clock) (request : Http.Request) (client_ip : string)
    (rate_count rate_limit : Z) (e : t) : option Q * t :=
  let '(r, e') := score_request_with_behavior ck request client_ip rate_count rate_limit e in
  (option_map fst r, e').

Definition classify_attack (now : Q) (request : Http.Request) (client_ip : string)
    (rate_count rate_limit : Z) (behavior_score : Q)
    : option (option AttackClassifier.AttackType) :=
  match _extract_features now request client_ip with
  | None => None
  | Some features =>
      Some (AttackClassifier.classify features rate_count rate_limit behavior_score)
  end.

End WithPlatform.
End DetectionEngine.

(* --------------------------------------------------------------------- *)
(** ** src/proxy/handler.py                                              *)
(* --------------------------------------------------------------------- *)

Module Handler.
Section WithPlatform.
Context `{Platform}.

Import RulesEngine.

(** An entry of [traffic.recent_events] (the GeoIP data of [_make_event]
    comes from an external resolver and is left out). *)
Record Event := {
  ev_time : Q;
  ev_ip : string;
  ev_action : string;
  ev_path : string;
  ev_method : string;
  ev_rule : option string;
  ev_score : option Q;
  ev_attack_type : option (option AttackClassifier.AttackType);
}.

Record TrafficCounters := {
  total_requests : Z;
  blocked_requests : Z;
  rate_limited_requests : Z;
  forwarded_requests : Z;
  challenged_requests : Z;
  active_ips : gset string;
  recent_events : list Event;        (* deque(maxlen=200) *)
  _request_times : list Q;           (* deque(maxlen=10000) *)
}.

(** The side tasks started with [asyncio.create_task]; the text of an
    alert's message is left out. *)
Inductive task :=
| LogAttack (source_ip action : string) (threat_score : Q) (path method user_agent : string)
    (attack_type : option string) (metadata : list (string * string))
| SendAlert (level title : string) (source_ip : option string) (attack_type : option string).

(** What the handler passes to [client.request] and what comes back. *)
Record UpstreamCall := {
  up_method : string;
  up_url : string;
  up_headers : list (string * string);
  up_content : string;
  up_query : string;
}.

Record UpstreamResponse := {
  up_status : Z;
  up_resp_headers : list (string * string);   (* as received *)
  up_body : string;
}.

(** Everything one request reads from outside: clock readings, random
    values, and the upstream server ([None] = [httpx.RequestError]). *)
Record Env := {
  t_record : Q;
  t_event : Q;
  rule_now : nat -> Q;
  rule_uuid : nat -> string;
  rate_now : Q;
  rate_uuid : string;
  detect_clock : DetectionEngine.clock;
  t_classify : Q;
  t_challenge : Q;
  challenge_nonce : string;
  upstream : UpstreamCall -> option UpstreamResponse;
}.

(** The process state the handler works on. *)
Record World := {
  redis : option Redis.t;
  engine : DetectionEngine.t;
  traffic : TrafficCounters;
  tasks : list task;
}.

(** How a call of the handler ends: with a response, or with an exception
    that nothing in the handler catches. *)
Inductive outcome :=
| Returned (r : Http.Response)
| Raised.

Definition get_client_ip (request : Http.Request) : string :=
  let forwarded := Http.get_first "x-forwarded-for" (Http.headers request) in
  if truthy forwarded
  then PyStr.strip (nth 0 (PyStr.split "," (default "" forwarded)) "")
  else default "0.0.0.0" (Http.client_host request).

Definition _make_event (env : Env) (client_ip action path method : string)
    (rule : option string) (score : option Q)
    (attack_type : option (option AttackClassifier.AttackType)) : Event :=
  {| ev_time := t_event env; ev_ip := client_ip; ev_action := action; ev_path := path;
     ev_method := method; ev_rule := rule; ev_score := score; ev_attack_type := attack_type |}.

(** [sorted(steps, key=lambda s: s.threshold)]: stable. *)
Fixpoint insert_step (s : EscalationStep) (l : list EscalationStep) : list EscalationStep :=
  match l with
  | [] => [s]
  | x :: rest =>
      if Qlt_bool (threshold s) (threshold x) then s :: l else x :: insert_step s rest
  end.

Definition sorted_steps (steps : list EscalationStep) : list EscalationStep :=
  fold_left (fun acc s => insert_step s acc) steps [].

Definition _resolve_escalation (steps : list EscalationStep) (usage_pct : Q) : string :=
  fold_left
    (fun action step => if Qle_bool (threshold step) usage_pct then RulesEngine.action step else action)
    (sorted_steps steps) "rate_limit".

(** [None] stands for the [ValueError] of [int]. *)
Definition _duration_to_seconds (dur : string) : option Z :=
  let dur := PyStr.lower (PyStr.strip dur) in
  if PyStr.endswith dur "m" then option_map (fun n => n * 60)%Z (PyStr.int (PyStr.drop_last dur))
  else if PyStr.endswith dur "h" then option_map (fun n => n * 3600)%Z (PyStr.int (PyStr.drop_last dur))
  else if PyStr.endswith dur "d" then option_map (fun n => n * 86400)%Z (PyStr.int (PyStr.drop_last dur))
  else if PyStr.endswith dur "s" then PyStr.int (PyStr.drop_last dur)
  else PyStr.int dur.

(** [Some None]: no step has a duration; [None]: [ValueError]. *)
Fixpoint first_duration (steps : list EscalationStep) : option (option Z) :=
  match steps with
  | [] => Some None
  | step :: rest =>
      if truthy (duration step)
      then option_map Some (_duration_to_seconds (default "" (duration step)))
      else first_duration rest
  end.

Definition _parse_duration (steps : list EscalationStep) : option (option Z) :=
  first_duration (List.rev (sorted_steps steps)).

(** Updates of the counters. *)
Definition upd_traffic (f : TrafficCounters -> TrafficCounters) (w : World) : World :=
  {| redis := redis w; engine := engine w; traffic := f (traffic w); tasks := tasks w |}.

Definition with_redis (c : option Redis.t) (w : World) : World :=
  {| redis := c; engine := engine w; traffic := traffic w; tasks := tasks w |}.

Definition with_engine (e : DetectionEngine.t) (w : World) : World :=
  {| redis := redis w; engine := e; traffic := traffic w; tasks := tasks w |}.

Definition create_task (t : task) (w : World) : World :=
  {| redis := redis w; engine := engine w; traffic := traffic w; tasks := tasks w ++ [t] |}.

Definition record_request (now : Q) (ip : string) (tc : TrafficCounters) : TrafficCounters :=
  {| total_requests := total_requests tc + 1;
     blocked_requests := blocked_requests tc;
     rate_limited_requests := rate_limited_requests tc;
     forwarded_requests := forwarded_requests tc;
     challenged_requests := challenged_requests tc;
     active_ips := {[ip]} ∪ active_ips tc;
     recent_events := recent_events tc;
     _request_times := BehaviorAnalyzer.deque_append 10000 (_request_times tc) now |}.

(** [TrafficCounters.requests_per_second]: the requests of the last ten
    seconds, divided by ten. *)
Definition requests_per_second (now : Q) (tc : TrafficCounters) : Q :=
  let cutoff := (now - 10)%Q in
  let count := length (List.filter (fun t => Qgt_bool t cutoff) (_request_times tc)) in
  (inject_Z (Z.of_nat count) / 10)%Q.

Definition add_event (ev : Event) (tc : TrafficCounters) : TrafficCounters :=
  {| total_requests := total_requests tc;
     blocked_requests := blocked_requests tc;
     rate_limited_requests := rate_limited_requests tc;
     forwarded_requests := forwarded_requests tc;
     challenged_requests := challenged_requests tc;
     active_ips := active_ips tc;
     recent_events := BehaviorAnalyzer.deque_append 200 (recent_events tc) ev;
     _request_times := _request_times tc |}.

Definition bump (blocked limited forwarded challenged : Z) (tc : TrafficCounters)
    : TrafficCounters :=
  {| total_requests := total_requests tc;
     blocked_requests := blocked_requests tc + blocked;
     rate_limited_requests := rate_limited_requests tc + limited;
     forwarded_requests := forwarded_requests tc + forwarded;
     challenged_requests := challenged_requests tc + challenged;
     active_ips := active_ips tc;
     recent_events := recent_events tc;
     _request_times := _request_times tc |}.

Definition bump_blocked := bump 1 0 0 0.
Definition bump_rate_limited := bump 0 1 0 0.
Definition bump_forwarded := bump 0 0 1 0.
Definition bump_challenged := bump 0 0 0 1.

Definition forbidden : Http.Response := Http.plain 403 (Http.Text "Forbidden").
Definition too_many : Http.Response := Http.plain 429 (Http.Text "Too Many Requests").
Definition bad_gateway : Http.Response := Http.plain 502 (Http.Text "Bad Gateway").

(** The reserved prefixes of the first test of [reverse_proxy]. *)
Definition internal_prefixes : list string := ["/api/"; "/ws/"; "/openapi.json"].

(** What happens when rule number [i] of the matched ones has rejected
    the request with [count] requests counted against [limit_count]. *)
Definition rule_exceeded (cfg : Settings) (env : Env) (request : Http.Request)
    (client_ip url_path ua : string) (rule : Rule) (count limit_count limit_window : Z)
    (w : World) : outcome * World :=
  let w := upd_traffic bump_rate_limited w in
  let w := upd_traffic (add_event (_make_event env client_ip "rate_limited" url_path
                          (Http.method request) (Some (name rule)) None None)) w in
  let usage_pct :=
    if (limit_count =? 0)%Z then 0%Q
    else (inject_Z count / inject_Z limit_count * 100)%Q in
  let escalation_action := _resolve_escalation (escalation rule) usage_pct in
  if String.eqb escalation_action "block" then
    match _parse_duration (escalation rule) with
    | None => (Raised, w)
    | Some duration =>
        if IPBlocker.block_raises duration (redis w) then (Raised, w) else
        let w := with_redis (IPBlocker.block client_ip ("Rule escalation: " +:+ name rule)
                               duration (redis w)) w in
        let w := upd_traffic bump_blocked w in
        let w := create_task (LogAttack client_ip "rule_blocked" 0 url_path
                    (Http.method request) ua (Some "rule_violation")
                    [("rule", name rule); ("count", PyStr.str_of_int count)]) w in
        let w := create_task (SendAlert "warning" ("Rule escalation: " +:+ name rule)
                    (Some client_ip) None) w in
        (Returned forbidden, w)
    end
  else
    match (if String.eqb escalation_action "js_challenge"
           then ChallengeManager.maybe_challenge (jwt_secret cfg) (t_challenge env)
                  (challenge_nonce env) request client_ip
           else None) with
    | Some challenge_resp => (Returned challenge_resp, upd_traffic bump_challenged w)
    | None => (Returned too_many, w)
    end.

(** The loop over the matched rules, from rule number [i]; [None] when
    no rule ended the request. *)
Fixpoint rules_phase (cfg : Settings) (env : Env) (request : Http.Request)
    (client_ip url_path ua : string) (i : nat) (matched : list Rule)
    (w : World) : option outcome * World :=
  match matched with
  | [] => (None, w)
  | rule :: rest =>
      match limits rule with
      | Some lim =>
          if truthy (per_ip lim) then
            match parse_rate_string (default "" (per_ip lim)) with
            | None => (Some Raised, w)
            | Some (limit_count, limit_window) =>
                let '((allowed, count), c) :=
                  RateLimiter.check_rule_limit (rule_now env i) (rule_uuid env i)
                    client_ip (name rule) limit_count limit_window (redis w) in
                let w := with_redis c w in
                if negb allowed then
                  let '(o, w) := rule_exceeded cfg env request client_ip url_path ua rule
                                   count limit_count limit_window w in
                  (Some o, w)
                else rules_phase cfg env request client_ip url_path ua (S i) rest w
            end
          else rules_phase cfg env request client_ip url_path ua (S i) rest w
      | None => rules_phase cfg env request client_ip url_path ua (S i) rest w
      end
  end.

Definition attack_value (a : AttackClassifier.AttackType) : string :=
  match a with
  | AttackClassifier.HTTP_FLOOD => "http_flood"
  | AttackClassifier.SLOWLORIS => "slowloris"
  | AttackClassifier.API_ABUSE => "api_abuse"
  | AttackClassifier.CREDENTIAL_STUFFING => "credential_stuffing"
  | AttackClassifier.SCRAPING => "scraping"
  | AttackClassifier.UNKNOWN => "unknown"
  end.

(** The behaviour score the handler computes again before classifying:
    [get_session], then [_compute_score] when the session has at least
    three requests. *)
Definition recomputed_behavior (client_ip : string) (a : BehaviorAnalyzer.t) : Q :=
  match BehaviorAnalyzer.get_session client_ip a with
  | Some bscore =>
      if (3 <=? BehaviorAnalyzer.request_count bscore)%Z
      then BehaviorAnalyzer._compute_score bscore
      else 0%Q
  | None => 0%Q
  end.

(** Step 6: forward to the upstream and relay its answer. *)
Definition forward (env : Env) (request : Http.Request) (client_ip url_path : string)
    (threat_score : Q) (w : World) : outcome * World :=
  let headers := Http.to_dict (Http.headers request) in
  let headers := PyDict.del "host" headers in
  let headers := PyDict.set "x-forwarded-for" client_ip headers in
  let headers := PyDict.set "x-sentinel-score" (format_float (round_float threat_score 4))
                   headers in
  match upstream env {| up_method := Http.method request; up_url := url_path;
                        up_headers := headers; up_content := Http.req_body request;
                        up_query := Http.url_query request |} with
  | None => (Returned bad_gateway, w)
  | Some resp =>
      let w := upd_traffic bump_forwarded w in
      let skip_headers := ["transfer-encoding"; "connection"; "keep-alive"] in
      let resp_headers :=
        PyDict.of_pairs
          (List.filter (fun kv => negb (AttackClassifier.mem_string (PyStr.lower kv.1) skip_headers))
             (Http.httpx_items (up_resp_headers resp))) in
      (Returned {| Http.status_code := up_status resp; Http.body := Http.Relayed (up_body resp);
                   Http.media_type := None; Http.resp_headers := resp_headers |}, w)
  end.

(** Step 5 after the behaviour score [bscore_val] is known: the graduated
    mitigation once the threat score has reached the threshold.  [None]:
    the request goes on to the upstream. *)
Definition mitigate_scored (cfg : Settings) (env : Env) (request : Http.Request)
    (client_ip url_path ua : string) (rate_count : Z) (threat_score bscore_val : Q)
    (w : World) : option outcome * World :=
  let level := if under_attack_mode cfg then BLOCK else protection_level cfg in
  match DetectionEngine.classify_attack (t_classify env) request client_ip rate_count
          (rate_limit_per_ip cfg) bscore_val with
  | None => (Some Raised, w)
  | Some attack_type =>
      let attack_str := option_map attack_value attack_type in
      let event_data action :=
        _make_event env client_ip action url_path (Http.method request) None
          (Some (round_float threat_score 3)) (Some attack_type) in
      match level with
      | MONITOR =>
          let w := upd_traffic (add_event (event_data "monitored")) w in
          let w := create_task (LogAttack client_ip "monitored" threat_score url_path
                      (Http.method request) ua attack_str []) w in
          (None, w)
      | JS_CHALLENGE =>
          match ChallengeManager.maybe_challenge (jwt_secret cfg) (t_challenge env)
                  (challenge_nonce env) request client_ip with
          | Some challenge_resp =>
              let w := upd_traffic (add_event (event_data "challenged")) w in
              let w := upd_traffic bump_challenged w in
              let w := create_task (LogAttack client_ip "challenged" threat_score url_path
                          (Http.method request) ua attack_str []) w in
              (Some (Returned challenge_resp), w)
          | None => (None, w)
          end
      | RATE_LIMIT =>
          let w := upd_traffic (add_event (event_data "rate_limited")) w in
          let w := upd_traffic bump_rate_limited w in
          let w := create_task (LogAttack client_ip "rate_limited" threat_score url_path
                      (Http.method request) ua attack_str []) w in
          (Some (Returned too_many), w)
      | BLOCK | BLACKHOLE =>
          let w := with_redis (IPBlocker.block client_ip
                                 ("threat score " +:+ format_2f threat_score) None (redis w)) w in
          let w := upd_traffic (add_event (event_data "auto_blocked")) w in
          let w := upd_traffic bump_blocked w in
          let w := create_task (LogAttack client_ip "blocked" threat_score url_path
                      (Http.method request) ua attack_str []) w in
          let w := create_task (SendAlert "critical"
                      ("Attack detected: " +:+ default "unknown" attack_str)
                      (Some client_ip) attack_str) w in
          (Some (Returned forbidden), w)
      end
  end.

(** Step 5: below the threshold nothing happens; at or above it the
    handler looks the session up again, computes the behaviour score a
    second time and mitigates. *)
Definition mitigate (cfg : Settings) (env : Env) (request : Http.Request)
    (client_ip url_path ua : string) (rate_count : Z) (threat_score : Q)
    (w : World) : option outcome * World :=
  if negb (Qle_bool (anomaly_threshold cfg) threat_score) then (None, w) else
  let bscore_val := recomputed_behavior client_ip (DetectionEngine.analyzer (engine w)) in
  mitigate_scored cfg env request client_ip url_path ua rate_count threat_score bscore_val w.

(** Steps 4 to 6: detection scoring, graduated mitigation, upstream. *)
Definition detect_and_forward (cfg : Settings) (env : Env) (request : Http.Request)
    (client_ip url_path ua : string) (rate_count : Z) (w : World) : outcome * World :=
  let '(scored, e) :=
    DetectionEngine.score_request (detect_clock env) request client_ip rate_count
      (rate_limit_per_ip cfg) (engine w) in
  let w := with_engine e w in
  match scored with
  | None => (Raised, w)
  | Some threat_score =>
      match mitigate cfg env request client_ip url_path ua rate_count threat_score w with
      | (Some o, w) => (o, w)
      | (None, w) => forward env request client_ip url_path threat_score w
      end
  end.

(** [reverse_proxy(request, path)]. *)
Definition reverse_proxy (cfg : Settings) (rules : list Rule) (env : Env)
    (request : Http.Request) (path : string) (w : World) : outcome * World :=
  let request_path := Http.url_path request in
  if PyStr.startswith_any request_path internal_prefixes
  then (Returned (Http.plain 404 Http.Empty), w) else
  let client_ip := get_client_ip request in
  let url_path := if String.eqb path "" then "/" else "/" +:+ path in
  let ua := default "" (Http.get_first "user-agent" (Http.headers request)) in
  let w := upd_traffic (record_request (t_record env) client_ip) w in
  (* 1. block list *)
  if IPBlocker.is_blocked client_ip (redis w) then
    let w := upd_traffic bump_blocked w in
    let w := upd_traffic (add_event (_make_event env client_ip "blocked" url_path
                            (Http.method request) None None None)) w in
    (Returned forbidden, w)
  else
  (* 2. per-rule limits *)
  let matched_rules := match_request rules url_path (Http.method request) in
  match rules_phase cfg env request client_ip url_path ua 0 matched_rules w with
  | (Some o, w) => (o, w)
  | (None, w) =>
  (* 3. global rate limiting *)
  let '((rate_allowed, rate_count), c) :=
    RateLimiter.allow_with_count cfg (rate_now env) (rate_uuid env) client_ip (redis w) in
  let w := with_redis c w in
  if negb rate_allowed then
    let w := upd_traffic bump_rate_limited w in
    let w := upd_traffic (add_event (_make_event env client_ip "rate_limited" url_path
                            (Http.method request) None None None)) w in
    let w := create_task (LogAttack client_ip "rate_limited" 0 url_path
                (Http.method request) ua None
                [("rate_count", PyStr.str_of_int rate_count)]) w in
    (Returned too_many, w)
  else
  (* 4-6. detection, mitigation, upstream *)
  detect_and_forward cfg env request client_ip url_path ua rate_count w
  end.

(** The variant the specification asks for: the behaviour score computed
    during detection scoring is passed on to the classification instead
    of being computed a second time. *)
Definition detect_and_forward_reusing (cfg : Settings) (env : Env) (request : Http.Request)
    (client_ip url_path ua : string) (rate_count : Z) (w : World) : outcome * World :=
  let '(scored, e) :=
    DetectionEngine.score_request_with_behavior (detect_clock env) request client_ip
      rate_count (rate_limit_per_ip cfg) (engine w) in
  let w := with_engine e w in
  match scored with
  | None => (Raised, w)
  | Some (threat_score, behavior_score) =>
      match (if negb (Qle_bool (anomaly_threshold cfg) threat_score) then (None, w)
             else mitigate_scored cfg env request client_ip url_path ua rate_count
                    threat_score behavior_score w) with
      | (Some o, w) => (o, w)
      | (None, w) => forward env request client_ip url_path threat_score w
      end
  end.

End WithPlatform.
End Handler.

(* --------------------------------------------------------------------- *)
(** ** An executable platform                                            *)
(* --------------------------------------------------------------------- *)

(** SHA-256 (FIPS 180-4) and HMAC (RFC 2104) on byte strings, 32-bit
    words as [N] with the wrap-around written out. *)
Module Sha256.

Local Open Scope N_scope.

Definition mask32 : N := 4294967295.
Definition add32 (a b : N) : N := N.land (a + b) mask32.
Definition rotr (n x : N) : N :=
  N.lor (N.shiftr x n) (N.land (N.shiftl x (32 - n)) mask32).
Definition not32 (x : N) : N := N.lxor x mask32.

Definition Ch (x y z : N) : N := N.lxor (N.land x y) (N.land (not32 x) z).
Definition Maj (x y z : N) : N :=
  N.lxor (N.lxor (N.land x y) (N.land x z)) (N.land y z).
Definition Sigma0 (x : N) : N := N.lxor (N.lxor (rotr 2 x) (rotr 13 x)) (rotr 22 x).
Definition Sigma1 (x : N) : N := N.lxor (N.lxor (rotr 6 x) (rotr 11 x)) (rotr 25 x).
Definition sigma0 (x : N) : N := N.lxor (N.lxor (rotr 7 x) (rotr 18 x)) (N.shiftr x 3).
Definition sigma1 (x : N) : N := N.lxor (N.lxor (rotr 17 x) (rotr 19 x)) (N.shiftr x 10).

Definition K : list N :=
  [1116352408; 1899447441; 3049323471; 3921009573; 961987163; 1508970993;
   2453635748; 2870763221; 3624381080; 310598401; 607225278; 1426881987;
   1925078388; 2162078206; 2614888103; 3248222580; 3835390401; 4022224774;
   264347078; 604807628; 770255983; 1249150122; 1555081692; 1996064986;
   2554220882; 2821834349; 2952996808; 3210313671; 3336571891; 3584528711;
   113926993; 338241895; 666307205; 773529912; 1294757372; 1396182291;
   1695183700; 1986661051; 2177026350; 2456956037; 2730485921; 2820302411;
   3259730800; 3345764771; 3516065817; 3600352804; 4094571909; 275423344;
   430227734; 506948616; 659060556; 883997877; 958139571; 1322822218;
   1537002063; 1747873779; 1955562222; 2024104815; 2227730452; 2361852424;
   2428436474; 2756734187; 3204031479; 3329325298].

Definition H0 : list N :=
  [1779033703; 3144134277; 1013904242; 2773480762;
   1359893119; 2600822924; 528734635; 1541459225].

(** The padded message: a 1 bit, zeros, the bit length on 8 bytes. *)
Definition be_bytes (width : nat) (x : N) : list N :=
  List.map (fun i => N.land (N.shiftr x (8 * N.of_nat (width - 1 - i))) 255) (seq 0 width).

Definition pad (msg : list N) : list N :=
  let len := length msg in
  let zeros := ((64 - (len + 9) mod 64) mod 64)%nat in
  msg ++ [128] ++ List.repeat 0 zeros ++ be_bytes 8 (8 * N.of_nat len).

Fixpoint words (fuel : nat) (bytes : list N) : list N :=
  match fuel, bytes with
  | S fuel', a :: b :: c :: d :: rest =>
      (N.shiftl a 24 + N.shiftl b 16 + N.shiftl c 8 + d) :: words fuel' rest
  | _, _ => []
  end.

(** The message schedule, newest word first: [w] holds W(t-1) ... W(0). *)
Fixpoint schedule (n : nat) (w : list N) : list N :=
  match n with
  | O => w
  | S n' =>
      let x := add32 (add32 (sigma1 (nth 1 w 0)) (nth 6 w 0))
                     (add32 (sigma0 (nth 14 w 0)) (nth 15 w 0)) in
      schedule n' (x :: w)
  end.

Definition round (st : list N) (kw : N * N) : list N :=
  match st with
  | [a; b; c; d; e; f; g; h] =>
      let t1 := add32 (add32 (add32 h (Sigma1 e)) (add32 (Ch e f g) kw.1)) kw.2 in
      let t2 := add32 (Sigma0 a) (Maj a b c) in
      [add32 t1 t2; a; b; c; add32 d t1; e; f; g]
  | _ => st
  end.

Definition compress (h : list N) (block : list N) : list N :=
  let w := List.rev (schedule 48 (List.rev block)) in
  let st := fold_left round (List.combine K w) h in
  List.map (fun p => add32 p.1 p.2) (List.combine h st).

Fixpoint blocks (fuel : nat) (h : list N) (ws : list N) : list N :=
  match fuel with
  | O => h
  | S fuel' =>
      match ws with
      | [] => h
      | _ => blocks fuel' (compress h (List.firstn 16 ws)) (List.skipn 16 ws)
      end
  end.

Definition digest (msg : list N) : list N :=
  let bytes := pad msg in
  let ws := words (length bytes) bytes in
  List.concat (List.map (be_bytes 4) (blocks (length ws) H0 ws)).

Definition hex_digit (n : N) : ascii :=
  ascii_of_N (if n <? 10 then 48 + n else 87 + n).

Fixpoint hex (bytes : list N) : string :=
  match bytes with
  | [] => EmptyString
  | b :: rest => String (hex_digit (b / 16)) (String (hex_digit (b mod 16)) (hex rest))
  end.

Definition bytes_of (s : string) : list N :=
  List.map N_of_ascii (list_ascii_of_string s).

Definition hexdigest (s : string) : string := hex (digest (bytes_of s)).

Definition hmac_digest (key msg : list N) : list N :=
  let key := if (64 <? length key)%nat then digest key else key in
  let key := key ++ List.repeat 0 (64 - length key)%nat in
  let inner := digest (List.map (N.lxor 54) key ++ msg) in
  digest (List.map (N.lxor 92) key ++ inner).

Definition hmac_hexdigest (key msg : string) : string :=
  hex (hmac_digest (bytes_of key) (bytes_of msg)).

End Sha256.

Example sha256_abc :
  Sha256.hexdigest "abc"
  = "ba7816bf8f01cfea414140de5dae2223b00361a396177a9cb410ff61f20015ad".
Proof. vm_compute. reflexivity. Qed.
Example sha256_empty :
  Sha256.hexdigest ""
  = "e3b0c44298fc1c149afbf4c8996fb92427ae41e4649b934ca495991b7852b855".
Proof. vm_compute. reflexivity. Qed.
Example sha256_two_blocks :
  Sha256.hexdigest
    "aaaaaaaaaaaaaaaaaaaaaaaaaaaaaaaaaaaaaaaaaaaaaaaaaaaaaaaaaaaaaaaaaaaaaaaaaaaaaaaaaaaaaaaaaaaaaaaaaaaa"
  = "2816597888e4a0d3a36b82b83316ab32680eb8f00f8cd3b904d681246d285a0e".
Proof. vm_compute. reflexivity. Qed.
Example hmac_sha256_fox :
  Sha256.hmac_hexdigest "key" "The quick brown fox jumps over the lazy dog"
  = "f7bc83f430538424b13298e6aa6fb143ef4d59a14946175997479dbc2d1a3cd8".
Proof. vm_compute. reflexivity. Qed.

(** A platform to run the model on examples.  SHA-256 and HMAC are the
    functions above and the /24 network is computed from the dotted quad.
    The remaining entries are stand-ins of the right type: the header
    hash is the JSON-like text of the key list instead of its MD5 digest,
    floats are printed in fixed point, rounding is to the nearest decimal,
    the square root is taken to six decimals, and the anomaly model
    answers 0 for every vector. *)
Module Example.

Definition octet (s : string) : option Z :=
  let n := String.length s in
  if (n =? 0)%nat || (3 <? n)%nat then None
  else if (1 <? n)%nat && PyStr.startswith s "0" then None
  else match PyStr.int_digits 0 false s with
       | Some v => if PyStr.contains "_" s then None
                   else if (v <=? 255)%Z then Some v else None
       | None => None
       end.

Definition network24 (ip : string) : option string :=
  match List.map octet (PyStr.split "." ip) with
  | [Some a; Some b; Some c; Some _] =>
      Some (PyStr.str_of_int a +:+ "." +:+ PyStr.str_of_int b +:+ "."
            +:+ PyStr.str_of_int c +:+ ".0/24")
  | _ => None
  end.

(** [q] in fixed point with [digits] decimals, rounded down. *)
Definition fixed (digits : nat) (q : Q) : string :=
  let scale := (10 ^ Z.of_nat digits)%Z in
  let n := Qfloor (q * inject_Z scale)%Q in
  let frac := PyStr.str_of_int (Z.abs n mod scale) in
  (if (n <? 0)%Z then "-" else "") +:+ PyStr.str_of_int (Z.abs n / scale) +:+ "."
  +:+ string_of_list_ascii (List.repeat "0"%char (digits - String.length frac)) +:+ frac.

Definition round_to (q : Q) (ndigits : Z) : Q :=
  let scale := (10 ^ ndigits)%Z in
  (inject_Z (Qfloor (q * inject_Z scale + (1 # 2))%Q) / inject_Z scale)%Q.

Definition sqrt6 (q : Q) : Q :=
  (inject_Z (Z.sqrt (Qfloor (q * 1000000000000)%Q)) / 1000000)%Q.

Definition platform : Platform := {|
  sha256_hexdigest := Sha256.hexdigest;
  hmac_sha256_hexdigest := Sha256.hmac_hexdigest;
  md5_json_hexdigest := fun keys => "[" +:+ PyStr.join ", " keys +:+ "]";
  ipv4_network24 := network24;
  format_float := fixed 6;
  round_float := round_to;
  format_2f := fixed 2;
  math_sqrt := sqrt6;
  ml_decision_function := fun _ => 0%Q;
|}.

End Example.

Example subnet_of_ipv4 :
  @RateLimiter._ip_to_subnet Example.platform "192.168.1.77" = "192.168.1.0/24".
Proof. reflexivity. Qed.
Example subnet_of_other :
  @RateLimiter._ip_to_subnet Example.platform "2001:db8::1" = "2001:db8::1".
Proof. reflexivity. Qed.
Example member_text :
  @RateLimiter.member_of Example.platform 1000.5 "ab12cd34" = "1000.500000:ab12cd34".
Proof. reflexivity. Qed.

(* --------------------------------------------------------------------- *)
(** ** Runs of the rate limiter                                          *)
(* --------------------------------------------------------------------- *)

Module Scenario.
Section WithPlatform.
Context `{Platform}.

(** [allow(client_ip)] called once per entry of [calls], in order; an
    entry is the clock reading and the random suffix of that call. *)
Fixpoint allow_run (cfg : Settings) (client_ip : string) (calls : list (Q * string))
    (client : option Redis.t) : list bool * option Redis.t :=
  match calls with
  | [] => ([], client)
  | (now, uuid8) :: rest =>
      let '(b, c) := RateLimiter.allow cfg now uuid8 client_ip client in
      let '(bs, c') := allow_run cfg client_ip rest c in
      (b :: bs, c')
  end.

(** How many calls of a run returned [True]. *)
Definition allowed_count (results : list bool) : Z :=
  Z.of_nat (length (List.filter (fun b => b) results)).

(** The sorted set of a key when the client is connected. *)
Definition zset_at (key : string) (client : option Redis.t) : gmap string Q :=
  match client with
  | Some r => Redis.zset_of key r
  | None => ∅
  end.

End WithPlatform.
End Scenario.

(* --------------------------------------------------------------------- *)
(** ** Vocabulary of the properties and example data                     *)
(* --------------------------------------------------------------------- *)

(** The sorted set a key holds after one sliding-window check. *)
Definition after_check (key : string) (now window_start : Q) (member : string)
    (r : Redis.t) : gmap string Q :=
  <[member := now]> (filter (Redis.above window_start) (Redis.zset_of key r)).

(** The answers of a run that starts with [k] live members under the
    per-IP key: call number [i] (from 0) sees [k + i + 1] members. *)
Definition answers (limit : Z) (k n : nat) : list bool :=
  List.map (fun i => (Z.of_nat k + Z.of_nat i + 1 <=? limit)%Z) (seq 0 n).

(** A configuration with a per-IP limit of 2, and three calls within
    three seconds. *)
Definition window_cfg : Settings := {|
  rate_limit_per_ip := 2; rate_limit_per_subnet := 1000; rate_limit_global := 10000;
  anomaly_threshold := 0.75; protection_level := MONITOR; under_attack_mode := false;
  jwt_secret := "change-me-in-production" |}.

Definition window_calls : list (Q * string) :=
  [(1000, "00000001"); (1001, "00000002"); (1002, "00000003")]%Q.

(** A string of decimal digits and its value. *)
Definition all_digits (s : string) : bool :=
  forallb PyStr.is_digit (list_ascii_of_string s).

Fixpoint decimal_from (acc : Z) (s : string) : Z :=
  match s with
  | EmptyString => acc
  | String a s' => decimal_from (10 * acc + default 0%Z (PyStr.digit_val a)) s'
  end.

Definition decimal (s : string) : Z := decimal_from 0 s.

(** No occurrence of the character [c]. *)
Definition free_of (c : ascii) (s : string) : bool :=
  forallb (fun a => negb (Ascii.eqb a c)) (list_ascii_of_string s).

(** The grammar as the specification words it,
    [^(\d+)/(second|minute|hour|day)$]: a non-empty run of digits, one
    slash, one of the four unit names. *)
Definition rate_units : list string := ["second"; "minute"; "hour"; "day"].

Definition matches_rate_grammar (s : string) : bool :=
  match PyStr.split "/" s with
  | [d; u] => negb (String.eqb d "") && all_digits d && AttackClassifier.mem_string u rate_units
  | _ => false
  end.


(** The token issued for 203.0.113.9 at time 1700000000 with the nonce
    00 01 ... 0f under the default secret. *)
Definition solved_token : string :=
  "203.0.113.9:000102030405060708090a0b0c0d0e0f:1700000000:65621e950035b88bddd41ffe29682e99dfe18be2b8b6e9e50452f0dba941fef9".

(** A token whose time stamp is [10^309], beyond the range of floats:
    signed under the default secret for 203.0.113.9 and completed with
    the proof-of-work nonce 230. *)
Definition far_ts : string :=
  String "1" (string_of_list_ascii (List.repeat "0"%char 309)).

Definition far_token : string :=
  "203.0.113.9:000102030405060708090a0b0c0d0e0f:" +:+ far_ts
  +:+ ":3e31cac58922d6b88915beb1e480575ef6542e723d981328954e37c08c429d17:230".

(** The fingerprint with another [accept_encoding] and [connection_type]. *)
Definition with_encoding (ae ct : option string) (fp : Fingerprint.RequestFingerprint)
    : Fingerprint.RequestFingerprint :=
  {| Fingerprint.client_ip := Fingerprint.client_ip fp;
     Fingerprint.ja3_hash := Fingerprint.ja3_hash fp;
     Fingerprint.header_order_hash := Fingerprint.header_order_hash fp;
     Fingerprint.user_agent := Fingerprint.user_agent fp;
     Fingerprint.accept_language := Fingerprint.accept_language fp;
     Fingerprint.accept_encoding := ae;
     Fingerprint.connection_type := ct;
     Fingerprint.raw_headers := Fingerprint.raw_headers fp |}.

Definition browser_fp : Fingerprint.RequestFingerprint :=
  {| Fingerprint.client_ip := "192.0.2.7";
     Fingerprint.ja3_hash := None;
     Fingerprint.header_order_hash := Some "0123456789abcdef0123456789abcdef";
     Fingerprint.user_agent := Some "Mozilla/5.0 Chrome/120";
     Fingerprint.accept_language := Some "en-US";
     Fingerprint.accept_encoding := Some "gzip";
     Fingerprint.connection_type := Some "keep-alive";
     Fingerprint.raw_headers := [] |}.

Section ClassifierVocabulary.
Import AttackClassifier.

(** The rules as the specification lists them: guards in a fixed order,
    each with its label; the answer is the label of the first guard that
    holds. *)
Definition classifier_rules (method path ua : string) (content_length : Z) (r behavior : Q)
    : list (bool * AttackType) :=
  [ (Qgt_bool r 0.6 && (String.eqb ua "" || Qgt_bool behavior 0.5), HTTP_FLOOD);
    (Qgt_bool r 0.85, HTTP_FLOOD);
    ((content_length =? 0)%Z && String.eqb method "POST" && Qgt_bool behavior 0.3, SLOWLORIS);
    (mem_string (PyStr.lower path) login_paths && String.eqb method "POST" && Qgt_bool r 0.3,
     CREDENTIAL_STUFFING);
    (PyStr.contains "/api/" path && mem_string method ["POST"; "PUT"; "DELETE"]
     && (Qgt_bool r 0.5 || Qgt_bool behavior 0.6), API_ABUSE);
    (String.eqb method "GET" && Qgt_bool behavior 0.6 && Qgt_bool r 0.4, SCRAPING) ].

Fixpoint first_match {A} (rules : list (bool * A)) : option A :=
  match rules with
  | [] => None
  | (guard, label) :: rest => if guard then Some label else first_match rest
  end.

(** The same rules with their guards as propositions. *)
Definition classifier_props (method path ua : string) (content_length : Z) (r behavior : Q)
    : list (Prop * AttackType) :=
  [ ((0.6 < r)%Q ∧ (ua = "" ∨ (0.5 < behavior)%Q), HTTP_FLOOD);
    ((0.85 < r)%Q, HTTP_FLOOD);
    (content_length = 0%Z ∧ method = "POST" ∧ (0.3 < behavior)%Q, SLOWLORIS);
    (In (PyStr.lower path) login_paths ∧ method = "POST" ∧ (0.3 < r)%Q, CREDENTIAL_STUFFING);
    (PyStr.contains "/api/" path = true ∧ In method ["POST"; "PUT"; "DELETE"]
     ∧ ((0.5 < r)%Q ∨ (0.6 < behavior)%Q), API_ABUSE);
    (method = "GET" ∧ (0.6 < behavior)%Q ∧ (0.4 < r)%Q, SCRAPING) ].

(** [first_holds rules o]: [o] is the label of the first rule of the
    list whose guard holds, [None] when no guard holds. *)
Inductive first_holds {A} : list (Prop * A) -> option A -> Prop :=
| first_none : first_holds [] None
| first_here (P : Prop) label rest : P -> first_holds ((P, label) :: rest) (Some label)
| first_later (P : Prop) label rest o :
    ~ P -> first_holds rest o -> first_holds ((P, label) :: rest) o.

End ClassifierVocabulary.

(** A feature dictionary as tests/test_classifier.py builds them. *)
Definition features_of (method path ua : string) (content_length : Z) : Features :=
  {| f_timestamp := None; f_client_ip := None; f_method := Some method; f_path := Some path;
     f_query := None; f_user_agent := Some ua; f_content_length := Some content_length;
     f_header_count := None; f_accept_language := None; f_raw_headers := None |}.

(** The three pieces of the z-score ramp as a function of [z]. *)
Definition ramp (z : Q) : Q :=
  (if Qlt_bool z 1.5 then 0 else if Qlt_bool z 3 then (z - 1.5) / 1.5 else 1)%Q.

(** The escalation ladder and the rule of the specification's YAML
    example (and of tests/test_rules.py). *)
Definition login_ladder : list RulesEngine.EscalationStep :=
  [ {| RulesEngine.threshold := 80; RulesEngine.action := "js_challenge";
       RulesEngine.duration := None |};
    {| RulesEngine.threshold := 95; RulesEngine.action := "block";
       RulesEngine.duration := Some "1h" |} ].

Definition login_limits : RulesEngine.RateLimit :=
  {| RulesEngine.per_ip := Some "5/minute"; RulesEngine.per_subnet := Some "50/minute" |}.

Definition login_rule : RulesEngine.Rule :=
  {| RulesEngine.name := "Login Protection";
     RulesEngine.match_path := Some "/api/login";
     RulesEngine.match_method := Some "POST";
     RulesEngine.limits := Some login_limits;
     RulesEngine.escalation := login_ladder;
     RulesEngine.enabled := true |}.

(** The same protection on a path the proxy forwards. *)
Definition signin_rule : RulesEngine.Rule :=
  {| RulesEngine.name := "Signin Protection";
     RulesEngine.match_path := Some "/signin";
     RulesEngine.match_method := Some "POST";
     RulesEngine.limits := Some login_limits;
     RulesEngine.escalation := login_ladder;
     RulesEngine.enabled := true |}.

(** A POST of a login form, and the outside world of one request: the
    clock at 1000 s, an upstream that answers 200. *)
Definition post_to (path ip : string) : Http.Request :=
  {| Http.url_path := path; Http.url_query := ""; Http.method := "POST";
     Http.headers := [("host", "shop.example"); ("user-agent", "Mozilla/5.0");
                      ("content-length", "27")];
     Http.cookies := []; Http.client_host := Some ip; Http.req_body := "user=alice&password=secret" |}.

Definition example_env : Handler.Env :=
  {| Handler.t_record := 1000; Handler.t_event := 1000;
     Handler.rule_now := fun _ => 1000%Q; Handler.rule_uuid := fun _ => "0badcafe";
     Handler.rate_now := 1000; Handler.rate_uuid := "0badcafe";
     Handler.detect_clock := {| DetectionEngine.t_features := 1000;
                                DetectionEngine.t_behavior := 1000;
                                DetectionEngine.t_baseline := 1000 |};
     Handler.t_classify := 1000; Handler.t_challenge := 1000;
     Handler.challenge_nonce := "000102030405060708090a0b0c0d0e0f";
     Handler.upstream := fun _ => Some {| Handler.up_status := 200;
                                          Handler.up_resp_headers := [];
                                          Handler.up_body := "ok" |} |}.

(** The state of a process that has just started. *)
Definition fresh_baseline : BaselineModel.t :=
  {| BaselineModel.window_sec := 86400; BaselineModel.observations := [];
     BaselineModel.ips_seen := ∅;
     BaselineModel.mean_rps := 0; BaselineModel.std_rps := 1;
     BaselineModel.mean_header_count := 0; BaselineModel.std_header_count := 1;
     BaselineModel.mean_content_length := 0; BaselineModel.std_content_length := 1;
     BaselineModel.is_ready := false |}.

Definition fresh_engine : DetectionEngine.t :=
  {| DetectionEngine.baseline := fresh_baseline;
     DetectionEngine.ml := {| MLAnomalyModel.is_trained := false;
                              MLAnomalyModel.has_model := false;
                              MLAnomalyModel.max_samples := 2048;
                              MLAnomalyModel.training_buffer := [] |};
     DetectionEngine.analyzer := BehaviorAnalyzer.init |}.

Definition fresh_traffic : Handler.TrafficCounters :=
  {| Handler.total_requests := 0; Handler.blocked_requests := 0;
     Handler.rate_limited_requests := 0; Handler.forwarded_requests := 0;
     Handler.challenged_requests := 0; Handler.active_ips := ∅;
     Handler.recent_events := []; Handler._request_times := [] |}.

Definition world_with (r : Redis.t) : Handler.World :=
  {| Handler.redis := Some r; Handler.engine := fresh_engine;
     Handler.traffic := fresh_traffic; Handler.tasks := [] |}.

(** A process whose baseline has been learnt (about 8 headers and no
    body per request), under a strict configuration: threshold 0.2 and
    protection level [BLOCK]. *)
Definition learnt_engine : DetectionEngine.t :=
  {| DetectionEngine.baseline :=
       {| BaselineModel.window_sec := 86400; BaselineModel.observations := [];
          BaselineModel.ips_seen := ∅;
          BaselineModel.mean_rps := 2; BaselineModel.std_rps := 1;
          BaselineModel.mean_header_count := 8; BaselineModel.std_header_count := 1;
          BaselineModel.mean_content_length := 0; BaselineModel.std_content_length := 1;
          BaselineModel.is_ready := true |};
     DetectionEngine.ml := DetectionEngine.ml fresh_engine;
     DetectionEngine.analyzer := BehaviorAnalyzer.init |}.

Definition strict_cfg : Settings := {|
  rate_limit_per_ip := 100; rate_limit_per_subnet := 1000; rate_limit_global := 10000;
  anomaly_threshold := 0.2; protection_level := BLOCK; under_attack_mode := false;
  jwt_secret := "change-me-in-production" |}.

Definition learnt_world : Handler.World :=
  {| Handler.redis := Some Redis.empty; Handler.engine := learnt_engine;
     Handler.traffic := fresh_traffic; Handler.tasks := [] |}.

(** Five requests of the last five seconds counted under a rule key. *)
Definition five_recent (key : string) : Redis.t :=
  Redis.with_zset key
    (list_to_map [("995.000000:00000001", 995); ("996.000000:00000002", 996);
                  ("997.000000:00000003", 997); ("998.000000:00000004", 998);
                  ("999.000000:00000005", 999)]%Q)
    Redis.empty.

(** The usage percentage the handler computes for a rejected request. *)
Definition usage_pct (count limit_count : Z) : Q :=
  (inject_Z count / inject_Z limit_count * 100)%Q.

Definition signin_world : Handler.World :=
  world_with (five_recent "rl:rule:Signin Protection:198.51.100.4").




(** The durations Redis accepts for [SET ... EX]: none, or not negative
    ([0] never reaches Redis, see [IPBlocker.block]). *)
Definition valid_duration (d : option Z) : Prop :=
  match d with Some n => (0 <= n)%Z | None => True end.

(** The operations of the blocker, to state what holds after any
    sequence of them. *)
Inductive blocker_op :=
| OpBlock (ip reason : string) (duration_sec : option Z)
| OpUnblock (ip : string)
| OpAllow (ip : string).

Definition run_op (op : blocker_op) (client : option Redis.t) : option Redis.t :=
  match op with
  | OpBlock ip reason d => IPBlocker.block ip reason d client
  | OpUnblock ip => IPBlocker.unblock ip client
  | OpAllow ip => IPBlocker.allow ip client
  end.

Definition run_ops (ops : list blocker_op) (client : option Redis.t) : option Redis.t :=
  fold_left (fun c op => run_op op c) ops client.

(** The counters [tc'] against the counters [tc] before: the number of
    requests, the addresses and the request times are the same, the
    counters of blocked, rate-limited, forwarded and challenged requests
    have grown by at most [b], [l], [f] and [c], and the events are
    within the bound of their deque. *)
Definition counts_within (b l f c : Z) (tc tc' : Handler.TrafficCounters) : Prop :=
  Handler.total_requests tc' = Handler.total_requests tc
  ∧ Handler.active_ips tc' = Handler.active_ips tc
  ∧ Handler._request_times tc' = Handler._request_times tc
  ∧ (Handler.blocked_requests tc <= Handler.blocked_requests tc'
     <= Handler.blocked_requests tc + b)%Z
  ∧ (Handler.rate_limited_requests tc <= Handler.rate_limited_requests tc'
     <= Handler.rate_limited_requests tc + l)%Z
  ∧ (Handler.forwarded_requests tc <= Handler.forwarded_requests tc'
     <= Handler.forwarded_requests tc + f)%Z
  ∧ (Handler.challenged_requests tc <= Handler.challenged_requests tc'
     <= Handler.challenged_requests tc + c)%Z
  ∧ (length (Handler.recent_events tc')
     <= Nat.max 200 (length (Handler.recent_events tc)))%nat.

(** One request as [IPSession.record] sees it, and the session of an
    address after a run of requests, the first one starting it. *)
Record Hit := {
  hit_time : Q;
  hit_path : string;
  hit_method : string;
  hit_user_agent : string;
  hit_accept_language : string;
  hit_referer : option string;
  hit_cookie : option string;
  hit_header_order : string;
}.

Definition record_hit (s : BehaviorAnalyzer.IPSession) (h : Hit) : BehaviorAnalyzer.IPSession :=
  BehaviorAnalyzer.record (hit_time h) (hit_path h) (hit_method h) (hit_user_agent h)
    (hit_accept_language h) (hit_referer h) (hit_cookie h) (hit_header_order h) s.

Definition session_after (hits : list Hit) : BehaviorAnalyzer.IPSession :=
  fold_left record_hit hits BehaviorAnalyzer.new_session.

(* ===================================================================== *)
(** * Part II. Properties                                                *)
(* ===================================================================== *)

(* --------------------------------------------------------------------- *)
(** ** The sliding-window primitive                                      *)
(* --------------------------------------------------------------------- *)

Section RedisFacts.

Lemma zset_of_with_zset_eq key zs r :
  Redis.zset_of key (Redis.with_zset key zs r) = zs.
Proof. unfold Redis.zset_of, Redis.with_zset; simpl. by rewrite lookup_insert_eq. Qed.

Lemma zset_of_with_zset_ne key key' zs r :
  key ≠ key' → Redis.zset_of key' (Redis.with_zset key zs r) = Redis.zset_of key' r.
Proof. intros Hne. unfold Redis.zset_of, Redis.with_zset; simpl. by rewrite lookup_insert_ne. Qed.

Lemma execute_window `{Platform} key now ws member ttl r :
  ∃ removed added r',
    Redis.execute (RateLimiter.window_pipeline key now ws member ttl) r
      = ([removed; added; Z.of_nat (size (after_check key now ws member r)); 1%Z], r')
    ∧ Redis.zset_of key r' = after_check key now ws member r
    ∧ (∀ key', key ≠ key' → Redis.zset_of key' r' = Redis.zset_of key' r)
    ∧ Redis.sets r' = Redis.sets r
    ∧ Redis.strs r' = Redis.strs r.
Proof.
  unfold RateLimiter.window_pipeline, after_check.
  cbn [Redis.execute Redis.exec].
  rewrite !zset_of_with_zset_eq.
  do 3 eexists. split; [reflexivity|].
  unfold Redis.zset_of, Redis.with_zset; cbn.
  split; [by rewrite lookup_insert_eq|].
  split; [|done].
  intros key' Hne. by rewrite !lookup_insert_ne.
Qed.

Lemma after_check_member key now ws member r :
  after_check key now ws member r !! member = Some now.
Proof. unfold after_check. by rewrite lookup_insert_eq. Qed.

Lemma after_check_size_le key now ws member r :
  (size (after_check key now ws member r) <= S (size (Redis.zset_of key r)))%nat.
Proof.
  unfold after_check. rewrite map_size_insert.
  pose proof (map_subseteq_size _ _
    (map_filter_subseteq (Redis.above ws) (Redis.zset_of key r))) as Hle.
  destruct (filter _ _ !! member); simpl; lia.
Qed.

End RedisFacts.

(* --------------------------------------------------------------------- *)
(** ** The rate limiter                                                  *)
(* --------------------------------------------------------------------- *)

Section RateLimiterFacts.
Context `{Platform}.

Lemma check_key_count_spec key now ws member r :
  ∃ r',
    RateLimiter._check_key_count key now ws member r
      = (Z.of_nat (size (after_check key now ws member r)), r')
    ∧ Redis.zset_of key r' = after_check key now ws member r
    ∧ (∀ key', key ≠ key' → Redis.zset_of key' r' = Redis.zset_of key' r)
    ∧ Redis.sets r' = Redis.sets r
    ∧ Redis.strs r' = Redis.strs r.
Proof.
  unfold RateLimiter._check_key_count.
  destruct (execute_window key now ws member (RateLimiter.WINDOW_SEC + 10) r)
    as (removed & added & r' & -> & Hrest).
  exists r'. split; [reflexivity | exact Hrest].
Qed.

Lemma check_key_spec key now ws member limit r :
  ∃ r',
    RateLimiter._check_key key now ws member limit (Some r)
      = ((Z.of_nat (size (after_check key now ws member r)) <=? limit)%Z, Some r')
    ∧ Redis.zset_of key r' = after_check key now ws member r
    ∧ (∀ key', key ≠ key' → Redis.zset_of key' r' = Redis.zset_of key' r)
    ∧ Redis.sets r' = Redis.sets r
    ∧ Redis.strs r' = Redis.strs r.
Proof.
  unfold RateLimiter._check_key.
  destruct (check_key_count_spec key now ws member r) as (r' & -> & Hrest).
  exists r'. split; [reflexivity | exact Hrest].
Qed.

Lemma ip_key_not_sub_key a b : "rl:ip:" +:+ a ≠ "rl:sub:" +:+ b.
Proof. cbn. discriminate. Qed.

Lemma ip_key_not_global_key a : "rl:ip:" +:+ a ≠ "rl:global".
Proof. cbn. discriminate. Qed.

Lemma sub_key_not_global_key b : "rl:sub:" +:+ b ≠ "rl:global".
Proof. cbn. discriminate. Qed.

(** One call of [allow] when the subnet and global windows have room:
    the answer is the per-IP test on the count that includes the new
    member, and the member is in the per-IP window afterwards, whatever
    the answer. *)
Lemma allow_step cfg now uuid8 ip r :
  let ws := (now - inject_Z RateLimiter.WINDOW_SEC)%Q in
  let m := RateLimiter.member_of now uuid8 in
  let ipk := "rl:ip:" +:+ ip in
  let subk := "rl:sub:" +:+ RateLimiter._ip_to_subnet ip in
  (Z.of_nat (size (Redis.zset_of subk r)) < rate_limit_per_subnet cfg)%Z →
  (Z.of_nat (size (Redis.zset_of "rl:global" r)) < rate_limit_global cfg)%Z →
  ∃ r',
    RateLimiter.allow cfg now uuid8 ip (Some r)
      = ((Z.of_nat (size (after_check ipk now ws m r)) <=? rate_limit_per_ip cfg)%Z, Some r')
    ∧ Redis.zset_of ipk r' = after_check ipk now ws m r
    ∧ (size (Redis.zset_of subk r') <= S (size (Redis.zset_of subk r)))%nat
    ∧ (size (Redis.zset_of "rl:global" r') <= S (size (Redis.zset_of "rl:global" r)))%nat.
Proof.
  intros ws m ipk subk Hsub Hglob.
  unfold RateLimiter.allow. fold ws m ipk subk.
  destruct (check_key_spec ipk now ws m (rate_limit_per_ip cfg) r)
    as (r1 & -> & Hip1 & Hoth1 & _).
  destruct (Z.of_nat (size (after_check ipk now ws m r)) <=? rate_limit_per_ip cfg)%Z eqn:Eip;
    cbn [negb].
  2:{ exists r1. split; [reflexivity|]. split; [exact Hip1|].
      rewrite !Hoth1 by (apply ip_key_not_sub_key || apply ip_key_not_global_key).
      split; lia. }
  destruct (check_key_spec subk now ws m (rate_limit_per_subnet cfg) r1)
    as (r2 & -> & Hsub2 & Hoth2 & _).
  pose proof (after_check_size_le subk now ws m r1) as Hle2.
  rewrite (Hoth1 subk) in Hle2 by apply ip_key_not_sub_key.
  destruct (Z.of_nat (size (after_check subk now ws m r1)) <=? rate_limit_per_subnet cfg)%Z
    eqn:Esub; [|apply Z.leb_gt in Esub; lia].
  cbn [negb].
  destruct (check_key_spec "rl:global" now ws m (rate_limit_global cfg) r2)
    as (r3 & -> & Hglob3 & Hoth3 & _).
  pose proof (after_check_size_le "rl:global" now ws m r2) as Hle3.
  rewrite (Hoth2 "rl:global") in Hle3 by apply sub_key_not_global_key.
  rewrite (Hoth1 "rl:global") in Hle3 by apply ip_key_not_global_key.
  destruct (Z.of_nat (size (after_check "rl:global" now ws m r2)) <=? rate_limit_global cfg)%Z
    eqn:Eglob; [|apply Z.leb_gt in Eglob; lia].
  cbn [negb].
  exists r3. split; [reflexivity|].
  assert (Hne_gi : "rl:global" ≠ ipk) by (intros E; symmetry in E; revert E; apply ip_key_not_global_key).
  assert (Hne_si : subk ≠ ipk) by (intros E; symmetry in E; revert E; apply ip_key_not_sub_key).
  assert (Hne_gs : "rl:global" ≠ subk) by (intros E; symmetry in E; revert E; apply sub_key_not_global_key).
  split; [by rewrite (Hoth3 ipk), (Hoth2 ipk), Hip1|].
  split.
  - rewrite (Hoth3 subk), Hsub2 by done. exact Hle2.
  - rewrite Hglob3. exact Hle3.
Qed.

End RateLimiterFacts.

Section SlidingWindowRun.
Context `{Platform}.

Lemma above_iff ws (e : string * Q) : Redis.above ws e ↔ (ws < e.2)%Q.
Proof.
  unfold Redis.above. split.
  - intros Hb. apply Qnot_le_lt. intros Hle. apply Qle_bool_iff in Hle. congruence.
  - intros Hlt. destruct (Qle_bool e.2 ws) eqn:E; [|done].
    apply Qle_bool_iff in E. exfalso. exact (Qlt_not_le _ _ Hlt E).
Qed.

Lemma answers_S limit k n :
  answers limit k (S n) = (Z.of_nat k + 1 <=? limit)%Z :: answers limit (S k) n.
Proof.
  unfold answers. cbn [seq List.map]. f_equal.
  - f_equal. lia.
  - rewrite <- seq_shift, List.map_map. apply List.map_ext. intros i. f_equal. lia.
Qed.

Lemma allowed_count_answers limit k n :
  (0 <= limit - Z.of_nat k)%Z →
  Scenario.allowed_count (answers limit k n) = Z.min (Z.of_nat n) (limit - Z.of_nat k).
Proof.
  revert k. induction n as [|n IH]; intros k Hk.
  - unfold Scenario.allowed_count. cbn. lia.
  - rewrite answers_S. unfold Scenario.allowed_count in *. cbn [List.filter].
    destruct (Z.of_nat k + 1 <=? limit)%Z eqn:E.
    + apply Z.leb_le in E. cbn [length]. rewrite Nat2Z.inj_succ, IH by lia. lia.
    + apply Z.leb_gt in E.
      assert (Hnil : List.filter (fun b : bool => b) (answers limit (S k) n) = []).
      { unfold answers. clear IH. induction (seq 0 n) as [|i l IHl]; [done|].
        cbn [List.map List.filter].
        destruct (Z.of_nat (S k) + Z.of_nat i + 1 <=? limit)%Z eqn:E'; [|exact IHl].
        apply Z.leb_le in E'. lia. }
      rewrite Hnil. cbn. lia.
Qed.

(** A run all of whose calls fall in one window, from a state whose
    per-IP members are all inside that window. *)
Lemma allow_run_live cfg ip calls : ∀ r,
  let ipk := "rl:ip:" +:+ ip in
  let subk := "rl:sub:" +:+ RateLimiter._ip_to_subnet ip in
  NoDup (List.map (fun c => RateLimiter.member_of c.1 c.2) calls) →
  (∀ c c', c ∈ calls → c' ∈ calls → (c'.1 - inject_Z RateLimiter.WINDOW_SEC < c.1)%Q) →
  (∀ c m s, c ∈ calls → Redis.zset_of ipk r !! m = Some s →
            (c.1 - inject_Z RateLimiter.WINDOW_SEC < s)%Q) →
  (∀ c, c ∈ calls → Redis.zset_of ipk r !! RateLimiter.member_of c.1 c.2 = None) →
  (Z.of_nat (size (Redis.zset_of subk r)) + Z.of_nat (length calls)
     <= rate_limit_per_subnet cfg)%Z →
  (Z.of_nat (size (Redis.zset_of "rl:global" r)) + Z.of_nat (length calls)
     <= rate_limit_global cfg)%Z →
  ∃ r',
    Scenario.allow_run cfg ip calls (Some r)
      = (answers (rate_limit_per_ip cfg) (size (Redis.zset_of ipk r)) (length calls), Some r')
    ∧ size (Redis.zset_of ipk r') = (size (Redis.zset_of ipk r) + length calls)%nat.
Proof.
  induction calls as [|[now uuid8] rest IH]; intros r ipk subk Hnd Hwin Hlive Hfresh Hsub Hglob.
  - exists r. split; [reflexivity | cbn; lia].
  - cbn [length] in *. cbn [List.map] in Hnd. apply NoDup_cons in Hnd as [Hm Hnd].
    destruct (allow_step cfg now uuid8 ip r) as (r1 & Hallow & Hip1 & Hsub1 & Hglob1);
      [fold subk; lia | lia |].
    fold ipk subk in Hallow, Hip1, Hsub1.
    assert (Hafter : after_check ipk now (now - inject_Z RateLimiter.WINDOW_SEC)
                       (RateLimiter.member_of now uuid8) r
                     = <[RateLimiter.member_of now uuid8 := now]> (Redis.zset_of ipk r)).
    { unfold after_check. f_equal. apply map_filter_id. intros m s Hms.
      apply above_iff. cbn. apply (Hlive (now, uuid8) m s); [left | exact Hms]. }
    rewrite Hafter in Hallow, Hip1.
    assert (Hsize : size (Redis.zset_of ipk r1) = S (size (Redis.zset_of ipk r))).
    { rewrite Hip1. apply map_size_insert_None. apply (Hfresh (now, uuid8)). left. }
    destruct (IH r1) as (r' & Hrun & Hfinal).
    + exact Hnd.
    + intros c c' Hc Hc'. apply Hwin; by right.
    + intros c m s Hc. fold ipk. rewrite Hip1. intros Hms.
      apply lookup_insert_Some in Hms as [[_ <-] | [_ Hms]].
      * apply (Hwin (now, uuid8) c); [left | by right].
      * apply (Hlive c m s); [by right | exact Hms].
    + intros c Hc. fold ipk. rewrite Hip1. apply lookup_insert_None. split.
      * apply Hfresh. by right.
      * intros Heq. apply Hm. cbn [fst snd]. rewrite Heq.
        apply list_elem_of_In. apply list_elem_of_In in Hc.
        exact (List.in_map (fun c => RateLimiter.member_of c.1 c.2) _ _ Hc).
    + fold subk. lia.
    + lia.
    + exists r'. fold ipk in Hrun, Hfinal. split.
      * cbn [Scenario.allow_run]. rewrite Hallow, Hrun, answers_S.
        rewrite map_size_insert_None by (apply (Hfresh (now, uuid8)); left).
        rewrite Hsize. do 3 f_equal. lia.
      * rewrite Hfinal, Hsize. lia.
Qed.

End SlidingWindowRun.

(* --------------------------------------------------------------------- *)
(** ** C1 and C8: the sliding window and the fail-open rule              *)
(* --------------------------------------------------------------------- *)

Section FailOpen.
Context `{Platform}.

(** Without a client the loop over the matched rules ends no request
    with a response: it runs through, or a rate string fails to parse. *)
Lemma rules_phase_without_redis cfg env request ip url_path ua matched : ∀ i w,
  Handler.redis w = None →
  Handler.rules_phase cfg env request ip url_path ua i matched w = (None, w)
  ∨ Handler.rules_phase cfg env request ip url_path ua i matched w = (Some Handler.Raised, w).
Proof.
  induction matched as [|rule rest IH]; intros i w Hredis; cbn [Handler.rules_phase].
  - by left.
  - destruct (RulesEngine.limits rule) as [lim|]; [|by apply IH].
    destruct (truthy (RulesEngine.per_ip lim)); [|by apply IH].
    destruct (RulesEngine.parse_rate_string _) as [[limit_count limit_window]|]; [|by right].
    rewrite Hredis. cbn [RateLimiter.check_rule_limit negb].
    assert (Hw : Handler.with_redis None w = w) by (destruct w; cbn in *; by subst).
    rewrite Hw. by apply IH.
Qed.

(** C8. With no Redis client ([redis_manager.client is None]) every entry
    point of the rate limiter fails open: [allow] answers [True],
    [allow_with_count] and [check_rule_limit] answer [(True, 0)],
    [get_ip_count] answers 0, the internal helpers answer [True] and 0,
    and [is_blocked] answers [False]; the client stays disconnected.
    In the pipeline, a request outside the reserved prefixes is then
    never answered by the block check, a rule or the global limit: it
    reaches detection scoring with a count of 0 (unless a rate string of
    a matched rule fails to parse). *)
Theorem fail_open_without_redis (cfg : Settings) (now ws : Q)
    (uuid8 ip rule_name key member : string) (limit window_sec : Z) :
  RateLimiter.allow cfg now uuid8 ip None = (true, None)
  ∧ RateLimiter.allow_with_count cfg now uuid8 ip None = ((true, 0%Z), None)
  ∧ RateLimiter.check_rule_limit now uuid8 ip rule_name limit window_sec None
      = ((true, 0%Z), None)
  ∧ RateLimiter.get_ip_count now ip None = 0%Z
  ∧ RateLimiter._check_key key now ws member limit None = (true, None)
  ∧ RateLimiter._get_count key ws None = 0%Z
  ∧ IPBlocker.is_blocked ip None = false
  ∧ ∀ rules env request path w,
      Handler.redis w = None →
      PyStr.startswith_any (Http.url_path request) Handler.internal_prefixes = false →
      let client_ip := Handler.get_client_ip request in
      let url_path := if String.eqb path "" then "/" else "/" +:+ path in
      let ua := default "" (Http.get_first "user-agent" (Http.headers request)) in
      let w1 := Handler.upd_traffic (Handler.record_request (Handler.t_record env) client_ip) w in
      Handler.reverse_proxy cfg rules env request path w
        = Handler.detect_and_forward cfg env request client_ip url_path ua 0 w1
      ∨ Handler.reverse_proxy cfg rules env request path w = (Handler.Raised, w1).
Proof.
  repeat (split; [reflexivity|]).
  intros rules env request path w Hredis Hguard client_ip url_path ua w1.
  unfold Handler.reverse_proxy. rewrite Hguard. fold client_ip url_path ua w1.
  assert (Hr1 : Handler.redis w1 = None) by exact Hredis.
  rewrite Hr1. cbn [IPBlocker.is_blocked].
  destruct (rules_phase_without_redis cfg env request client_ip url_path ua
              (RulesEngine.match_request rules url_path (Http.method request)) 0 w1 Hr1)
    as [-> | ->]; [|by right].
  left. rewrite Hr1. cbn [RateLimiter.allow_with_count negb].
  assert (Hw : Handler.with_redis None w1 = w1).
  { unfold Handler.with_redis. destruct w1; cbn in *. by subst. }
  by rewrite Hw.
Qed.

End FailOpen.

Section SlidingWindowClaim.
Context `{Platform}.

Lemma expired_filter_empty ws (zs : gmap string Q) :
  (∀ m s, zs !! m = Some s → (s <= ws)%Q) → filter (Redis.above ws) zs = ∅.
Proof.
  intros Hexp. apply map_empty. intros m. apply map_lookup_filter_None_2.
  destruct (zs !! m) as [s|] eqn:E; [right | by left].
  intros x [= <-] Habove. apply above_iff in Habove. cbn in Habove.
  exact (Qlt_not_le _ _ Habove (Hexp m s E)).
Qed.

(** C1. [allow(ip)] is called once per entry of [calls].  The calls lie
    in one 60-second window, their members are pairwise distinct, what
    the per-IP key held before has left the window, the per-IP limit [L]
    is not negative, and the subnet and global limits leave room for
    all [N] calls.  Then (a) every check returns the cardinality of the
    key after its own member was added, and answers by [count <= limit];
    (b) call number [i] (from 0) answers [i + 1 <= L]; (c) exactly
    [min N L] calls answer [True]; (d) all [N] members are in the per-IP
    window at the end, those of the rejected calls included. *)
Theorem allow_counts_window (cfg : Settings) (ip : string) (calls : list (Q * string))
    (r : Redis.t) :
  let ipk := "rl:ip:" +:+ ip in
  let subk := "rl:sub:" +:+ RateLimiter._ip_to_subnet ip in
  let N := length calls in
  let L := rate_limit_per_ip cfg in
  (0 <= L)%Z →
  NoDup (List.map (fun c => RateLimiter.member_of c.1 c.2) calls) →
  (∀ c c', c ∈ calls → c' ∈ calls → (c'.1 - inject_Z RateLimiter.WINDOW_SEC < c.1)%Q) →
  (∀ c m s, c ∈ calls → Redis.zset_of ipk r !! m = Some s →
            (s <= c.1 - inject_Z RateLimiter.WINDOW_SEC)%Q) →
  (Z.of_nat (size (Redis.zset_of subk r)) + Z.of_nat N <= rate_limit_per_subnet cfg)%Z →
  (Z.of_nat (size (Redis.zset_of "rl:global" r)) + Z.of_nat N <= rate_limit_global cfg)%Z →
  (∀ key now ws member limit r0, ∃ count r1,
      RateLimiter._check_key_count key now ws member r0 = (count, r1)
      ∧ count = Z.of_nat (size (Redis.zset_of key r1))
      ∧ Redis.zset_of key r1 !! member = Some now
      ∧ RateLimiter._check_key key now ws member limit (Some r0)
          = ((count <=? limit)%Z, Some r1))
  ∧ ∃ r',
      Scenario.allow_run cfg ip calls (Some r)
        = (List.map (fun i => (Z.of_nat i + 1 <=? L)%Z) (seq 0 N), Some r')
      ∧ Scenario.allowed_count (Scenario.allow_run cfg ip calls (Some r)).1
          = Z.min (Z.of_nat N) L
      ∧ (calls = [] ∨ size (Redis.zset_of ipk r') = N).
Proof.
  intros ipk subk N L HL Hnd Hwin Hold Hsub Hglob. split.
  { intros key now ws member limit r0.
    destruct (check_key_count_spec key now ws member r0) as (r1 & Hc & Hz & _).
    exists (Z.of_nat (size (after_check key now ws member r0))), r1.
    split; [exact Hc|]. split; [by rewrite Hz|].
    split; [rewrite Hz; apply after_check_member|].
    unfold RateLimiter._check_key. by rewrite Hc. }
  assert (Hans : ∀ n, answers L 0 n = List.map (fun i => (Z.of_nat i + 1 <=? L)%Z) (seq 0 n)).
  { intros n. unfold answers. apply List.map_ext. intros i. f_equal. }
  assert (Hgoal : ∃ r', Scenario.allow_run cfg ip calls (Some r) = (answers L 0 N, Some r')
                        ∧ (calls = [] ∨ size (Redis.zset_of ipk r') = N)).
  { subst N. destruct calls as [|[now uuid8] rest].
    { exists r. split; [reflexivity | by left]. }
    cbn [length] in *. cbn [List.map] in Hnd. apply NoDup_cons in Hnd as [Hm Hnd].
    destruct (allow_step cfg now uuid8 ip r) as (r1 & Hallow & Hip1 & Hsub1 & Hglob1);
      [fold subk; lia | lia |].
    fold ipk subk in Hallow, Hip1, Hsub1.
    assert (Hafter : after_check ipk now (now - inject_Z RateLimiter.WINDOW_SEC)
                       (RateLimiter.member_of now uuid8) r
                     = {[RateLimiter.member_of now uuid8 := now]}).
    { unfold after_check. rewrite expired_filter_empty; [reflexivity|].
      intros m s Hms. apply (Hold (now, uuid8) m s); [left | exact Hms]. }
    rewrite Hafter in Hallow, Hip1.
    assert (Hsize : size (Redis.zset_of ipk r1) = 1%nat) by (rewrite Hip1; apply map_size_singleton).
    destruct (allow_run_live cfg ip rest r1) as (r' & Hrun & Hfinal).
    - exact Hnd.
    - intros c c' Hc Hc'. apply Hwin; by right.
    - intros c m s Hc. fold ipk. rewrite Hip1. intros Hms.
      apply lookup_singleton_Some in Hms as [_ <-].
      apply (Hwin (now, uuid8) c); [left | by right].
    - intros c Hc. fold ipk. rewrite Hip1. apply lookup_singleton_None.
      intros Heq. apply Hm. cbn [fst snd]. rewrite Heq.
      apply list_elem_of_In. apply list_elem_of_In in Hc.
      exact (List.in_map (fun c => RateLimiter.member_of c.1 c.2) _ _ Hc).
    - fold subk. lia.
    - lia.
    - exists r'. fold ipk in Hrun, Hfinal. split.
      + cbn [Scenario.allow_run]. rewrite Hallow, Hrun, answers_S.
        rewrite map_size_singleton, Hsize. do 3 f_equal.
      + right. rewrite Hfinal, Hsize. lia. }
  destruct Hgoal as (r' & Hrun & Hsize). exists r'.
  rewrite Hrun, <- Hans. cbn [fst]. split; [reflexivity|]. split; [|exact Hsize].
  rewrite allowed_count_answers; lia.
Qed.

End SlidingWindowClaim.

(** Three calls within three seconds against a limit of 2: the third is
    rejected. *)
Example allow_three_calls :
  (@Scenario.allow_run Example.platform window_cfg "10.0.0.1" window_calls
     (Some Redis.empty)).1 = [true; true; false].
Proof. vm_compute. reflexivity. Qed.

Lemma zset_of_empty key : Redis.zset_of key Redis.empty = ∅.
Proof. unfold Redis.zset_of, Redis.empty; cbn. by rewrite lookup_empty. Qed.

Lemma allow_counts_window_witness :
  Scenario.allowed_count
    (@Scenario.allow_run Example.platform window_cfg "10.0.0.1" window_calls
       (Some Redis.empty)).1 = 2%Z.
Proof.
  destruct (@allow_counts_window Example.platform window_cfg "10.0.0.1" window_calls
              Redis.empty) as [_ (r' & _ & Hcount & _)].
  - cbn. lia.
  - apply (bool_decide_unpack _). vm_compute. exact I.
  - intros c c' Hc Hc'. apply list_elem_of_In in Hc, Hc'. cbn in Hc, Hc'.
    destruct Hc as [<-|[<-|[<-|[]]]], Hc' as [<-|[<-|[<-|[]]]]; reflexivity.
  - intros c m s _. rewrite zset_of_empty, lookup_empty. discriminate.
  - rewrite zset_of_empty. vm_compute. discriminate.
  - rewrite zset_of_empty. vm_compute. discriminate.
  - exact Hcount.
Defined.

(* --------------------------------------------------------------------- *)
(** ** Facts about the string primitives                                 *)
(* --------------------------------------------------------------------- *)

Section StringFacts.

Lemma digit_not_special a :
  PyStr.is_digit a = true →
  PyStr.is_space a = false ∧ a ≠ "-"%char ∧ a ≠ "+"%char ∧ a ≠ "/"%char ∧ a ≠ ":"%char.
Proof.
  destruct a as [[] [] [] [] [] [] [] []]; vm_compute; intros Hd;
    try discriminate Hd; repeat split; discriminate.
Qed.

Lemma int_space_is_space a : PyStr.is_int_space a = true → PyStr.is_space a = true.
Proof. destruct a as [[] [] [] [] [] [] [] []]; vm_compute; intros Hd; congruence. Qed.

Lemma int_digits_all_digits s : ∀ acc prev,
  all_digits s = true → s ≠ "" ∨ prev = true →
  PyStr.int_digits acc prev s = Some (decimal_from acc s).
Proof.
  induction s as [|a s IH]; intros acc prev Hall Hne.
  - destruct Hne as [Hne | ->]; [done | reflexivity].
  - unfold all_digits in Hall. cbn in Hall. apply andb_true_iff in Hall as [Ha Hs].
    cbn [PyStr.int_digits decimal_from]. unfold PyStr.is_digit in Ha.
    destruct (PyStr.digit_val a) as [d|]; [|discriminate]. cbn.
    apply IH; [exact Hs | by right].
Qed.

Lemma count_digits_all s :
  all_digits s = true → PyStr.count_digits s = String.length s.
Proof.
  induction s as [|a s IH]; [reflexivity|].
  unfold all_digits. cbn [list_ascii_of_string forallb PyStr.count_digits String.length].
  intros Hall. apply andb_true_iff in Hall as [-> Hs]. by rewrite (IH Hs).
Qed.

Lemma rev_string_involutive s : PyStr.rev_string (PyStr.rev_string s) = s.
Proof.
  unfold PyStr.rev_string.
  by rewrite list_ascii_of_string_of_list_ascii, List.rev_involutive,
    string_of_list_ascii_of_string.
Qed.

Lemma lstrip_id s :
  forallb (fun a => negb (PyStr.is_space a)) (list_ascii_of_string s) = true →
  PyStr.lstrip s = s.
Proof.
  destruct s as [|a s]; [reflexivity|]. cbn. intros Hall.
  apply andb_true_iff in Hall as [Ha _]. by destruct (PyStr.is_space a).
Qed.

Lemma strip_id s :
  forallb (fun a => negb (PyStr.is_space a)) (list_ascii_of_string s) = true →
  PyStr.strip s = s.
Proof.
  intros Hall. unfold PyStr.strip. rewrite (lstrip_id s Hall).
  rewrite lstrip_id; [apply rev_string_involutive|].
  unfold PyStr.rev_string. rewrite list_ascii_of_string_of_list_ascii.
  rewrite forallb_forall in *. intros a Ha. apply Hall. by apply List.in_rev.
Qed.

Lemma int_lstrip_id s :
  forallb (fun a => negb (PyStr.is_space a)) (list_ascii_of_string s) = true →
  PyStr.int_lstrip s = s.
Proof.
  destruct s as [|a s]; [reflexivity|]. cbn. intros Hall.
  apply andb_true_iff in Hall as [Ha _].
  destruct (PyStr.is_int_space a) eqn:E; [|reflexivity].
  by rewrite (int_space_is_space a E) in Ha.
Qed.

(** A string without white space is its own literal. *)
Lemma int_strip_id s :
  forallb (fun a => negb (PyStr.is_space a)) (list_ascii_of_string s) = true →
  PyStr.int_strip s = s.
Proof.
  intros Hall. unfold PyStr.int_strip. rewrite (int_lstrip_id s Hall).
  rewrite int_lstrip_id; [apply rev_string_involutive|].
  unfold PyStr.rev_string. rewrite list_ascii_of_string_of_list_ascii.
  rewrite forallb_forall in *. intros a Ha. apply Hall. by apply List.in_rev.
Qed.

Lemma digits_no_space s :
  all_digits s = true →
  forallb (fun a => negb (PyStr.is_space a)) (list_ascii_of_string s) = true.
Proof.
  unfold all_digits. rewrite !forallb_forall. intros Hall a Ha.
  by destruct (digit_not_special a (Hall a Ha)) as [-> _].
Qed.

(** [int] reads a non-empty string of digits as its decimal value, unless
    there are more than 4300 of them. *)
Lemma int_of_digits s :
  all_digits s = true → s ≠ "" →
  PyStr.int s = if (PyStr.MAX_STR_DIGITS <? Z.of_nat (String.length s))%Z then None
                else Some (decimal s).
Proof.
  intros Hall Hne. unfold PyStr.int. rewrite (int_strip_id s (digits_no_space s Hall)).
  destruct s as [|a s']; [done|].
  assert (Ha : PyStr.is_digit a = true).
  { unfold all_digits in Hall. cbn in Hall. by apply andb_true_iff in Hall as [-> _]. }
  destruct (digit_not_special a Ha) as (_ & Hminus & Hplus & _).
  transitivity
    (match PyStr.int_digits 0 false (String a s') with
     | Some n =>
         if (PyStr.MAX_STR_DIGITS <? Z.of_nat (PyStr.count_digits (String a s')))%Z
         then None else Some n
     | None => None
     end).
  - destruct a as [[] [] [] [] [] [] [] []]; try reflexivity; congruence.
  - rewrite int_digits_all_digits by (done || by left).
    by rewrite (count_digits_all _ Hall).
Qed.

Lemma split_free c s : free_of c s = true → PyStr.split c s = [s].
Proof.
  induction s as [|a s IH]; [reflexivity|].
  unfold free_of. cbn. intros Hall. apply andb_true_iff in Hall as [Ha Hs].
  destruct (Ascii.eqb a c); [discriminate|]. by rewrite (IH Hs).
Qed.

(** Splitting [p c rest] when [p] has no [c]: the first piece is [p]. *)
Lemma split_app c p rest :
  free_of c p = true →
  PyStr.split c (p +:+ String c rest) = p :: PyStr.split c rest.
Proof.
  induction p as [|a p IH]; intros Hfree.
  - change ("" +:+ String c rest) with (String c rest).
    cbn [PyStr.split]. by rewrite Ascii.eqb_refl.
  - unfold free_of in Hfree. cbn in Hfree. apply andb_true_iff in Hfree as [Ha Hp].
    change (String a p +:+ String c rest) with (String a (p +:+ String c rest)).
    cbn [PyStr.split]. destruct (Ascii.eqb a c); [discriminate|]. by rewrite (IH Hp).
Qed.

Lemma digits_free_of c s :
  PyStr.is_digit c = false → all_digits s = true → free_of c s = true.
Proof.
  unfold all_digits, free_of. rewrite !forallb_forall. intros Hc Hall a Ha.
  destruct (Ascii.eqb_spec a c) as [->|]; [|reflexivity].
  rewrite (Hall c Ha) in Hc. discriminate.
Qed.

End StringFacts.

Section SplitJoin.

Lemma append_assoc (a b c : string) : (a +:+ b) +:+ c = a +:+ (b +:+ c).
Proof.
  induction a as [|x a IH]; [reflexivity|].
  change (String x (((a +:+ b) +:+ c)) = String x (a +:+ (b +:+ c))). by rewrite IH.
Qed.


Lemma join_cons_cons sep p q l :
  PyStr.join sep (p :: q :: l) = p +:+ sep +:+ PyStr.join sep (q :: l).
Proof. reflexivity. Qed.



Lemma split_app_sep c p rest :
  free_of c p = true →
  PyStr.split c (p +:+ String c "" +:+ rest) = p :: PyStr.split c rest.
Proof. exact (split_app c p rest). Qed.

(** Five separator-free pieces joined by the separator split back into
    the five pieces. *)
Lemma split_join5 c p1 p2 p3 p4 p5 :
  free_of c p1 = true → free_of c p2 = true → free_of c p3 = true →
  free_of c p4 = true → free_of c p5 = true →
  PyStr.split c (PyStr.join (String c "") [p1; p2; p3; p4; p5]) = [p1; p2; p3; p4; p5].
Proof.
  intros H1 H2 H3 H4 H5. rewrite !join_cons_cons. cbn [PyStr.join].
  rewrite !split_app_sep by done. by rewrite split_free.
Qed.

End SplitJoin.

(* --------------------------------------------------------------------- *)
(** ** C9: the rate-string parser                                        *)
(* --------------------------------------------------------------------- *)

Example grammar_5_minute : matches_rate_grammar "5/minute" = true.
Proof. reflexivity. Qed.
Example grammar_upper_unit : matches_rate_grammar "5/MINUTE" = false.
Proof. reflexivity. Qed.




(* --------------------------------------------------------------------- *)
(** ** C2: verification of a challenge token                             *)
(* --------------------------------------------------------------------- *)

Section ChallengeClaim.
Context `{Platform}.


End ChallengeClaim.

(** C2, as stated, fails: a token can meet the four conditions and be
    refused.  The time stamp of [far_token] is the integer [10^309], so
    [now - ts <= 3600] holds; the signature is the HMAC of
    [ip:nonce:ts], the address is the client's and the digest of the
    token begins with [00].  But [10^309] is no float: the subtraction
    [time.time() - int(ts)] raises [OverflowError] inside the [try], and
    the token is refused. *)
Lemma far_token_is_refused :
  far_token
  = PyStr.join ":"
      ["203.0.113.9"; "000102030405060708090a0b0c0d0e0f"; far_ts;
       "3e31cac58922d6b88915beb1e480575ef6542e723d981328954e37c08c429d17"; "230"]
  ∧ PyStr.int far_ts = Some (10 ^ 309)%Z
  ∧ (1700000000 - inject_Z (10 ^ 309) <= 3600)%Q
  ∧ @hmac_sha256_hexdigest Example.platform "change-me-in-production"
      (PyStr.join ":" ["203.0.113.9"; "000102030405060708090a0b0c0d0e0f"; far_ts])
    = "3e31cac58922d6b88915beb1e480575ef6542e723d981328954e37c08c429d17"
  ∧ PyStr.startswith (@sha256_hexdigest Example.platform far_token) "00" = true
  ∧ @ChallengeManager._verify_token Example.platform "change-me-in-production" 1700000000
      far_token "203.0.113.9" = false.
Proof.
  split; [vm_compute; reflexivity|]. split; [vm_compute; reflexivity|].
  split; [vm_compute; discriminate|]. split; [vm_compute; reflexivity|].
  split; vm_compute; reflexivity.
Qed.

(** The token of the example is the one [_generate_challenge] issues; with
    the proof-of-work nonce 699 it is accepted 100 seconds later; with
    the nonce 0, from another address, or after more than an hour it is
    not. *)
Example issued_token :
  @ChallengeManager._generate_challenge Example.platform "change-me-in-production"
    1700000000.25 "000102030405060708090a0b0c0d0e0f" "203.0.113.9" = solved_token.
Proof. vm_compute. reflexivity. Qed.
Example token_accepted :
  @ChallengeManager._verify_token Example.platform "change-me-in-production" 1700000100
    (solved_token +:+ ":699") "203.0.113.9" = true.
Proof. vm_compute. reflexivity. Qed.
Example token_without_work :
  @ChallengeManager._verify_token Example.platform "change-me-in-production" 1700000100
    (solved_token +:+ ":0") "203.0.113.9" = false.
Proof. vm_compute. reflexivity. Qed.
Example token_other_ip :
  @ChallengeManager._verify_token Example.platform "change-me-in-production" 1700000100
    (solved_token +:+ ":699") "203.0.113.10" = false.
Proof. vm_compute. reflexivity. Qed.
Example token_stale :
  @ChallengeManager._verify_token Example.platform "change-me-in-production" 1700003601
    (solved_token +:+ ":699") "203.0.113.9" = false.
Proof. vm_compute. reflexivity. Qed.

(** An address with colons in it (IPv6) never has an accepted token: the
    token issued for it has more than five parts. *)
Example token_for_ipv6 :
  length (PyStr.split ":"
            (@ChallengeManager._generate_challenge Example.platform "change-me-in-production"
               1700000000 "000102030405060708090a0b0c0d0e0f" "2001:db8::1" +:+ ":0"))
  = 8%nat.
Proof. vm_compute. reflexivity. Qed.

(* --------------------------------------------------------------------- *)
(** ** C4: the composite identifier of a fingerprint                     *)
(* --------------------------------------------------------------------- *)

(** C4, as stated, fails: two fingerprints that differ only in
    accept-encoding have the same composite id. *)
Lemma composite_id_same_for_encodings :
  Fingerprint.accept_encoding browser_fp
    ≠ Fingerprint.accept_encoding (with_encoding (Some "br") (Some "keep-alive") browser_fp)
  ∧ @Fingerprint.composite_id Example.platform browser_fp
    = @Fingerprint.composite_id Example.platform
        (with_encoding (Some "br") (Some "keep-alive") browser_fp)
  ∧ @Fingerprint.composite_id Example.platform browser_fp = "192.0.2.7:8ce0875493cb1392".
Proof. split; [discriminate|]. split; vm_compute; reflexivity. Qed.

(** C4, amended.  The composite id is the client IP, a colon, and the
    first 16 hex characters of the SHA-256 digest of four fields joined
    by [|]: the optional TLS hash, the header-order hash, the User-Agent
    and the accept-language, each empty when absent.  The
    accept-encoding and the connection type are not part of it: changing
    them leaves the id as it is. *)
Theorem composite_id_fields `{Platform} (fp : Fingerprint.RequestFingerprint)
    (ae ct : option string) :
  Fingerprint.composite_id fp
    = Fingerprint.client_ip fp +:+ ":"
      +:+ String.substring 0 16
            (sha256_hexdigest
               (default "" (Fingerprint.ja3_hash fp) +:+ "|"
                +:+ default "" (Fingerprint.header_order_hash fp) +:+ "|"
                +:+ default "" (Fingerprint.user_agent fp) +:+ "|"
                +:+ default "" (Fingerprint.accept_language fp)))
  ∧ Fingerprint.composite_id (with_encoding ae ct fp) = Fingerprint.composite_id fp.
Proof. split; reflexivity. Qed.

(* --------------------------------------------------------------------- *)
(** ** C5: the attack classifier                                         *)
(* --------------------------------------------------------------------- *)

Section ClassifierClaim.
Import AttackClassifier.

Lemma Qgt_bool_iff a b : Qgt_bool a b = true ↔ (b < a)%Q.
Proof.
  unfold Qgt_bool. rewrite negb_true_iff. split.
  - intros Hb. apply Qnot_le_lt. intros Hle. apply Qle_bool_iff in Hle. congruence.
  - intros Hlt. destruct (Qle_bool a b) eqn:E; [|done].
    apply Qle_bool_iff in E. exfalso. exact (Qlt_not_le _ _ Hlt E).
Qed.

Lemma mem_string_In s l : mem_string s l = true ↔ In s l.
Proof.
  unfold mem_string. rewrite existsb_exists. split.
  - intros (x & Hx & Heq). apply String.eqb_eq in Heq. by subst.
  - intros Hin. exists s. split; [exact Hin | apply String.eqb_refl].
Qed.

(** A table of boolean guards that mean the propositions of a table of
    rules picks the first rule that holds. *)
Lemma first_match_holds {A} (bools : list (bool * A)) (props : list (Prop * A)) :
  Forall2 (fun b p => (b.1 = true ↔ p.1) ∧ b.2 = p.2) bools props →
  first_holds props (first_match bools).
Proof.
  induction 1 as [|[g l] [P l'] bools props [Hiff Hl] _ IH]; cbn in *.
  - constructor.
  - subst l'. destruct g.
    + apply first_here. by apply Hiff.
    + apply first_later; [|exact IH]. intros HP. apply Hiff in HP. discriminate.
Qed.

(** C5.  [classify] is a function of its four arguments; with
    [r = rate_count / rate_limit] ([0] unless [rate_limit > 0]) its
    answer is the label of the first rule, in the fixed order
    HTTP_FLOOD, HTTP_FLOOD, SLOWLORIS, CREDENTIAL_STUFFING, API_ABUSE,
    SCRAPING, whose guard holds, and [None] when none does. *)
Theorem classify_first_match (features : Features) (rate_count rate_limit : Z) (behavior : Q) :
  let r := rate_ratio_of rate_count rate_limit in
  let method := default "GET" (f_method features) in
  let path := default "/" (f_path features) in
  let ua := default "" (f_user_agent features) in
  let content_length := default 0%Z (f_content_length features) in
  classify features rate_count rate_limit behavior
    = first_match (classifier_rules method path ua content_length r behavior)
  ∧ first_holds (classifier_props method path ua content_length r behavior)
      (classify features rate_count rate_limit behavior)
  ∧ ((0 < rate_limit)%Z ∧ r = (inject_Z rate_count / inject_Z rate_limit)%Q
     ∨ (rate_limit <= 0)%Z ∧ r = 0%Q).
Proof.
  intros r method path ua content_length.
  assert (Heq : classify features rate_count rate_limit behavior
                = first_match (classifier_rules method path ua content_length r behavior)).
  { unfold classify, classifier_rules. fold r method path ua content_length.
    cbn [first_match].
    repeat match goal with
           | |- (if ?g then _ else _) = (if ?g then _ else _) => destruct g; [reflexivity|]
           end.
    reflexivity. }
  split; [exact Heq|]. split.
  - rewrite Heq. apply first_match_holds. unfold classifier_rules, classifier_props.
    repeat (once constructor; [cbn [fst snd]; split; [|reflexivity] |]);
      [ .. | once constructor ].
    all: rewrite ?andb_true_iff, ?orb_true_iff, ?Qgt_bool_iff, ?String.eqb_eq, ?Z.eqb_eq,
        ?mem_string_In.
    all: tauto.
  - unfold r, rate_ratio_of. destruct (0 <? rate_limit)%Z eqn:E.
    + left. split; [by apply Z.ltb_lt | reflexivity].
    + right. split; [by apply Z.ltb_ge | reflexivity].
Qed.

End ClassifierClaim.

(** The cases of tests/test_classifier.py. *)
Example test_http_flood_detection :
  AttackClassifier.classify (features_of "GET" "/" "" 0) 80 100 0.6
  = Some AttackClassifier.HTTP_FLOOD.
Proof. reflexivity. Qed.
Example test_high_rate_alone_is_flood :
  AttackClassifier.classify (features_of "GET" "/" "Mozilla/5.0" 0) 90 100 0
  = Some AttackClassifier.HTTP_FLOOD.
Proof. reflexivity. Qed.
Example test_slowloris_detection :
  AttackClassifier.classify (features_of "POST" "/" "bot/1.0" 0) 10 100 0.5
  = Some AttackClassifier.SLOWLORIS.
Proof. reflexivity. Qed.
Example test_credential_stuffing :
  AttackClassifier.classify (features_of "POST" "/api/login" "Mozilla/5.0" 100) 40 100 0.2
  = Some AttackClassifier.CREDENTIAL_STUFFING.
Proof. reflexivity. Qed.
Example test_api_abuse :
  AttackClassifier.classify (features_of "POST" "/api/users" "okhttp/4.0" 200) 55 100 0.3
  = Some AttackClassifier.API_ABUSE.
Proof. reflexivity. Qed.
Example test_scraping :
  AttackClassifier.classify (features_of "GET" "/products" "Mozilla/5.0" 0) 50 100 0.7
  = Some AttackClassifier.SCRAPING.
Proof. reflexivity. Qed.
Example test_benign_traffic :
  AttackClassifier.classify (features_of "GET" "/about" "Mozilla/5.0 Chrome/120" 0) 5 100 0.1
  = None.
Proof. reflexivity. Qed.

(* --------------------------------------------------------------------- *)
(** ** C7: the z-score ramp of the scorer                                *)
(* --------------------------------------------------------------------- *)

Section RampClaim.
Local Open Scope Q_scope.

Lemma Qlt_bool_iff a b : Qlt_bool a b = true ↔ a < b.
Proof. unfold Qlt_bool. exact (Qgt_bool_iff b a). Qed.

Lemma Qlt_bool_false a b : Qlt_bool a b = false ↔ b <= a.
Proof.
  unfold Qlt_bool. rewrite negb_false_iff. apply Qle_bool_iff.
Qed.

Lemma z_to_score_ramp value mean std :
  ¬ std == 0 → AnomalyScorer._z_to_score value mean std = ramp (Qabs (value - mean) / std).
Proof.
  intros Hstd. unfold AnomalyScorer._z_to_score, ramp.
  destruct (Qeq_bool std 0) eqn:E; [|reflexivity].
  apply Qeq_bool_iff in E. contradiction.
Qed.

Lemma div_three_halves z : z / 1.5 == z * (2 # 3).
Proof. unfold Qdiv. apply Qmult_comp; reflexivity. Qed.

Ltac ramp_cases :=
  unfold ramp;
  repeat match goal with
         | |- context [Qlt_bool ?a ?b] =>
             let E := fresh "E" in
             destruct (Qlt_bool a b) eqn:E;
             [apply Qlt_bool_iff in E | apply Qlt_bool_false in E]
         end.

Lemma ramp_pieces z :
  (z <= 1.5 → ramp z == 0)
  ∧ (1.5 <= z → z <= 3 → ramp z == (z - 1.5) / 1.5)
  ∧ (3 <= z → ramp z == 1).
Proof.
  split; [|split]; intros; ramp_cases; try lra; try reflexivity;
    try (assert (Hz : z == 1.5) by lra; rewrite Hz; reflexivity);
    try (assert (Hz : z == 3) by lra; rewrite Hz; reflexivity).
Qed.

Lemma ramp_range z : 0 <= ramp z ∧ ramp z <= 1.
Proof.
  ramp_cases; [lra | | lra].
  rewrite div_three_halves. lra.
Qed.

(** The ramp rises, and by at most two thirds of the step taken. *)
Lemma ramp_step a b : a <= b → 0 <= ramp b - ramp a ∧ ramp b - ramp a <= (b - a) * (2 # 3).
Proof.
  intros Hab.
  ramp_cases; rewrite ?div_three_halves; lra.
Qed.

Lemma ramp_mono a b : a <= b → ramp a <= ramp b.
Proof. intros Hab. destruct (ramp_step a b Hab). lra. Qed.

Lemma ramp_ext a b : a == b → ramp a == ramp b.
Proof.
  intros Hab. apply Qle_antisym; apply ramp_mono; rewrite Hab; apply Qle_refl.
Qed.

Lemma ramp_lipschitz a b : Qabs (ramp a - ramp b) <= Qabs (a - b) * (2 # 3).
Proof.
  destruct (Qlt_le_dec a b) as [Hlt | Hle].
  - destruct (ramp_step a b) as [H0 H1]; [lra|].
    rewrite (Qabs_neg (ramp a - ramp b)) by lra.
    rewrite (Qabs_neg (a - b)) by lra. lra.
  - destruct (ramp_step b a Hle) as [H0 H1].
    rewrite (Qabs_pos (ramp a - ramp b)) by lra.
    rewrite (Qabs_pos (a - b)) by lra. lra.
Qed.

Lemma div_le_compat a b c : 0 < c → a <= b → a / c <= b / c.
Proof.
  intros Hc Hab. unfold Qdiv. apply Qmult_le_compat_r; [exact Hab|].
  apply Qlt_le_weak, Qinv_lt_0_compat, Hc.
Qed.

(** C7.  For a standard deviation [std > 0], with [z = |x - mean| / std]:
    the score is 0 for [z <= 1.5], [(z - 1.5) / 1.5] for
    [1.5 <= z <= 3] and 1 for [z >= 3] (the pieces agree at 1.5 and at 3);
    it depends on [x] through [|x - mean|] only, does not decrease when
    [|x - mean|] grows, and is continuous in [|x - mean|]: for every
    [eps > 0] there is a [delta > 0] such that moving [|x - mean|] by
    less than [delta] moves the score by less than [eps]. *)
Theorem z_to_score_piecewise (x mean std : Q) :
  0 < std →
  let z := Qabs (x - mean) / std in
  let f := fun v => AnomalyScorer._z_to_score v mean std in
  (z <= 1.5 → f x == 0)
  ∧ (1.5 <= z → z <= 3 → f x == (z - 1.5) / 1.5)
  ∧ (3 <= z → f x == 1)
  ∧ (∀ x', Qabs (x - mean) == Qabs (x' - mean) → f x == f x')
  ∧ (∀ x', Qabs (x - mean) <= Qabs (x' - mean) → f x <= f x')
  ∧ (∀ eps, 0 < eps → ∃ delta, 0 < delta ∧
       ∀ x', Qabs (Qabs (x' - mean) - Qabs (x - mean)) < delta →
             Qabs (f x' - f x) < eps).
Proof.
  intros Hstd z f.
  assert (Hne : ¬ std == 0) by lra.
  assert (Hf : ∀ v, f v = ramp (Qabs (v - mean) / std))
    by (intros v; apply z_to_score_ramp, Hne).
  destruct (ramp_pieces z) as (P1 & P2 & P3).
  rewrite (Hf x). fold z.
  split; [exact P1|]. split; [exact P2|]. split; [exact P3|].
  split; [|split].
  - intros x' Heq. rewrite Hf. apply ramp_ext. unfold z. by rewrite Heq.
  - intros x' Hle. rewrite Hf. apply ramp_mono. unfold z. by apply div_le_compat.
  - intros eps Heps. exists (eps * std). split.
    { apply Qmult_lt_0_compat; assumption. }
    intros x' Hclose. rewrite Hf.
    eapply Qle_lt_trans; [apply ramp_lipschitz|].
    set (d := Qabs (x' - mean) - Qabs (x - mean)) in *.
    assert (Hz : Qabs (x' - mean) / std - z == d / std) by (unfold z, d; field; exact Hne).
    rewrite Hz. unfold Qdiv. rewrite Qabs_Qmult.
    rewrite (Qabs_pos (/ std)) by (apply Qlt_le_weak, Qinv_lt_0_compat, Hstd).
    assert (Hq : Qabs d * / std < eps).
    { apply Qlt_shift_div_r; [exact Hstd | exact Hclose]. }
    pose proof (Qabs_nonneg d) as Hd0.
    assert (Hinv : 0 < / std) by (apply Qinv_lt_0_compat, Hstd).
    assert (Hprod : 0 <= Qabs d * / std) by (apply Qmult_le_0_compat; lra).
    lra.
Qed.

End RampClaim.

(** The score of a request whose header count lies two standard
    deviations from the mean: one third. *)
Lemma z_to_score_piecewise_witness : (AnomalyScorer._z_to_score 12 8 2 == 1 # 3)%Q.
Proof.
  destruct (z_to_score_piecewise 12 8 2) as (_ & P2 & _); [reflexivity|].
  rewrite P2; [reflexivity | discriminate | discriminate].
Defined.

(* --------------------------------------------------------------------- *)
(** ** C6: the behaviour score                                           *)
(* --------------------------------------------------------------------- *)

Section BehaviorClaim.
Context `{Platform}.
Import BehaviorAnalyzer.
Local Open Scope Q_scope.

Lemma clamp01_range x : 0 <= clamp01 x ∧ clamp01 x <= 1.
Proof.
  unfold clamp01. split.
  - apply Q.min_glb; [discriminate | apply Q.le_max_l].
  - apply Q.le_min_l.
Qed.

Lemma clamp01_ext x y : x == y → clamp01 x == clamp01 y.
Proof. intros Hxy. unfold clamp01. by rewrite Hxy. Qed.

Lemma dict_get_set {V} k (v : V) d : PyDict.get k (PyDict.set k v d) = Some v.
Proof.
  induction d as [|[k' v'] d IH]; cbn.
  - by rewrite String.eqb_refl.
  - destruct (String.eqb k k') eqn:E; cbn; rewrite ?String.eqb_refl, ?E; [reflexivity | exact IH].
Qed.

(** What [record_and_score] returns is [_compute_score] of the session it
    has just recorded into, and that session is the one stored for the
    address. *)
Lemma record_and_score_session now ip path method ua al referer cookie hoh a :
  ∃ s0,
    let s := record now path method ua al referer cookie hoh s0 in
    (record_and_score now ip path method ua al referer cookie hoh a).1 = _compute_score s
    ∧ get_session ip (record_and_score now ip path method ua al referer cookie hoh a).2 = Some s
    ∧ request_count s = (request_count s0 + 1)%Z.
Proof.
  unfold record_and_score, get_session.
  destruct (PyDict.get ip (sessions (_maybe_cleanup now a))) as [s0|].
  - exists s0. cbn. rewrite dict_get_set. repeat split.
  - exists new_session. cbn. rewrite dict_get_set. repeat split.
Qed.

(** C6.  For every session: the score is in [0, 1]; it is exactly 0
    when the session has fewer than 3 requests; otherwise it is the
    weighted sum of the five signals, with weights 0.30, 0.15, 0.15, 0.20
    and 0.20 (which add up to 1), clamped to [0, 1].  [record_and_score]
    records the request into the session of the address (a new one when
    the address has none after the clean-up), which raises its count of
    requests by one, stores that session, and returns its score: so the
    score returned is in [0, 1], exactly 0 when the count after
    recording is below 3, and the clamped weighted sum from 3 on. *)
Theorem behavior_score_bounds (now : Q) (ip path method ua al : string)
    (referer cookie : option string) (hoh : string) (a : BehaviorAnalyzer.t) :
  (∀ s,
     (0 <= _compute_score s ∧ _compute_score s <= 1)
     ∧ ((request_count s < 3)%Z → _compute_score s = 0)
     ∧ ((3 <= request_count s)%Z →
        _compute_score s
        == clamp01 (0.30 * _timing_regularity s + 0.15 * (1 - _path_diversity s)
                    + 0.15 * _header_consistency s + 0.20 * _rate_score s
                    + 0.20 * _browser_indicators s)))
  ∧ Qsum (List.map snd (signals_of new_session)) == 1
  ∧ let before := default new_session (get_session ip (_maybe_cleanup now a)) in
    let s := record now path method ua al referer cookie hoh before in
    let score := (record_and_score now ip path method ua al referer cookie hoh a).1 in
    get_session ip (record_and_score now ip path method ua al referer cookie hoh a).2 = Some s
    ∧ request_count s = (request_count before + 1)%Z
    ∧ score = _compute_score s
    ∧ (0 <= score ∧ score <= 1)
    ∧ ((request_count s < 3)%Z → score = 0)
    ∧ ((3 <= request_count s)%Z →
       score
       == clamp01 (0.30 * _timing_regularity s + 0.15 * (1 - _path_diversity s)
                   + 0.15 * _header_consistency s + 0.20 * _rate_score s
                   + 0.20 * _browser_indicators s)).
Proof.
  assert (Hall : ∀ s,
     (0 <= _compute_score s ∧ _compute_score s <= 1)
     ∧ ((request_count s < 3)%Z → _compute_score s = 0)
     ∧ ((3 <= request_count s)%Z →
        _compute_score s
        == clamp01 (0.30 * _timing_regularity s + 0.15 * (1 - _path_diversity s)
                    + 0.15 * _header_consistency s + 0.20 * _rate_score s
                    + 0.20 * _browser_indicators s))).
  { intros s. unfold _compute_score. split; [|split].
    + destruct (request_count s <? 3)%Z; [split; discriminate | apply clamp01_range].
    + intros Hlt. apply Z.ltb_lt in Hlt. by rewrite Hlt.
    + intros Hge. apply Z.ltb_ge in Hge. rewrite Hge.
      apply clamp01_ext. unfold Qsum, signals_of. cbn [List.map fold_left fst snd]. ring. }
  split; [exact Hall|]. split; [reflexivity|].
  intros before s score.
  assert (Hrec : get_session ip
                   (record_and_score now ip path method ua al referer cookie hoh a).2 = Some s
                 ∧ score = _compute_score s).
  { unfold score, s, before, record_and_score, get_session.
    destruct (PyDict.get ip (sessions (_maybe_cleanup now a))) as [s0|];
      cbn; by rewrite dict_get_set. }
  destruct Hrec as [Hget Hscore].
  split; [exact Hget|]. split; [reflexivity|]. split; [exact Hscore|].
  rewrite Hscore. destruct (Hall s) as (Hrange & Hzero & Hsum).
  split; [exact Hrange|]. split; [exact Hzero | exact Hsum].
Qed.

End BehaviorClaim.

(** tests/test_behavior.py: the first request of a new address scores 0,
    and its session is stored with one request. *)
Example test_new_ip_low_score :
  (@BehaviorAnalyzer.record_and_score Example.platform 1000 "1.2.3.4" "/" "GET"
     "Mozilla/5.0 Chrome/120.0" "en-US" None (Some "session=abc") "abc123"
     BehaviorAnalyzer.init).1 = 0%Q.
Proof. reflexivity. Qed.

(* --------------------------------------------------------------------- *)
(** ** C10: the behaviour score computed a second time by the handler    *)
(* --------------------------------------------------------------------- *)

Section RecomputedScore.
Context `{Platform}.

Lemma recomputed_is_compute_score ip a s :
  BehaviorAnalyzer.get_session ip a = Some s →
  Handler.recomputed_behavior ip a = BehaviorAnalyzer._compute_score s.
Proof.
  intros Hget. unfold Handler.recomputed_behavior. rewrite Hget.
  unfold BehaviorAnalyzer._compute_score.
  destruct (3 <=? BehaviorAnalyzer.request_count s)%Z eqn:E.
  - reflexivity.
  - apply Z.leb_gt in E. apply Z.ltb_lt in E. by rewrite E.
Qed.

Lemma scorer_overflow_in_vector features baseline r b :
  AnomalyScorer.overflows features baseline = true →
  MLAnomalyModel.extract_vector features r b = None.
Proof.
  unfold AnomalyScorer.overflows, AnomalyScorer._z_overflows, MLAnomalyModel.extract_vector.
  intros Ho. apply andb_true_iff in Ho as [_ Ho].
  apply orb_true_iff in Ho as [Ho|Ho]; apply andb_true_iff in Ho as [_ Ho].
  - by destruct (PyFloat.of_int (default 0%Z (f_header_count features))).
  - destruct (PyFloat.of_int (default 0%Z (f_content_length features))); [discriminate|].
    by destruct (PyFloat.of_int (default 0%Z (f_header_count features))).
Qed.

(** [score_request] once the features are extracted: what it returns and
    the engine it leaves, by whether the feature vector can be built and
    whether the observation could be recorded. *)
Lemma score_request_cases ck request ip rate_count rate_limit e features :
  DetectionEngine._extract_features (DetectionEngine.t_features ck) request ip
    = Some features →
  let headers := Http.to_dict (Http.headers request) in
  let recorded :=
    BehaviorAnalyzer.record_and_score (DetectionEngine.t_behavior ck) ip
      (default "/" (f_path features)) (default "GET" (f_method features))
      (default "" (f_user_agent features)) (default "" (f_accept_language features))
      (PyDict.get "referer" headers) (PyDict.get "cookie" headers)
      (Fingerprint.compute_header_order_hash (Http.headers request))
      (DetectionEngine.analyzer e) in
  let full := DetectionEngine.with_raw_headers headers features in
  let r := AttackClassifier.rate_ratio_of rate_count rate_limit in
  let observed :=
    BaselineModel.record_observation (DetectionEngine.t_baseline ck) full
      (DetectionEngine.baseline e) in
  DetectionEngine.score_request_with_behavior ck request ip rate_count rate_limit e
  = match MLAnomalyModel.extract_vector full r recorded.1 with
    | None =>
        (None, {| DetectionEngine.baseline := DetectionEngine.baseline e;
                  DetectionEngine.ml := DetectionEngine.ml e;
                  DetectionEngine.analyzer := recorded.2 |})
    | Some vec =>
        let heuristic := AnomalyScorer.score full (DetectionEngine.baseline e) r recorded.1 in
        let score :=
          if MLAnomalyModel.is_ready (DetectionEngine.ml e)
          then ((1 - DetectionEngine.ML_BLEND_WEIGHT) * heuristic
                + DetectionEngine.ML_BLEND_WEIGHT
                  * clamp01 (1 - (ml_decision_function vec + 0.5)))%Q
          else heuristic in
        (if observed.2 then Some (clamp01 score, recorded.1) else None,
         {| DetectionEngine.baseline := observed.1;
            DetectionEngine.ml :=
              {| MLAnomalyModel.is_trained := MLAnomalyModel.is_trained (DetectionEngine.ml e);
                 MLAnomalyModel.has_model := MLAnomalyModel.has_model (DetectionEngine.ml e);
                 MLAnomalyModel.max_samples := MLAnomalyModel.max_samples (DetectionEngine.ml e);
                 MLAnomalyModel.training_buffer :=
                   BehaviorAnalyzer.deque_append
                     (MLAnomalyModel.max_samples (DetectionEngine.ml e) * 4)
                     (MLAnomalyModel.training_buffer (DetectionEngine.ml e)) vec |};
            DetectionEngine.analyzer := recorded.2 |})
    end.
Proof.
  intros Hfeatures headers recorded full r observed.
  unfold DetectionEngine.score_request_with_behavior. rewrite Hfeatures. cbv zeta.
  fold headers. fold r. fold recorded.
  destruct recorded as [behavior analyzer'] eqn:Erec. cbn [fst snd]. fold full.
  fold observed. destruct observed as [baseline' done]. cbn [fst snd].
  destruct (AnomalyScorer.overflows full (DetectionEngine.baseline e)) eqn:Eover.
  { by rewrite (scorer_overflow_in_vector _ _ r behavior Eover). }
  unfold MLAnomalyModel.score, MLAnomalyModel.record_sample.
  destruct (MLAnomalyModel.extract_vector full r behavior) as [vec|]; cbn.
  - destruct (MLAnomalyModel.is_ready (DetectionEngine.ml e)); cbn; by destruct done.
  - by destruct (MLAnomalyModel.is_ready (DetectionEngine.ml e)).
Qed.

(** After detection scoring, the second computation gives the score of
    the first. *)
Lemma score_then_recompute ck request ip rate_count rate_limit e threat behavior e' :
  DetectionEngine.score_request_with_behavior ck request ip rate_count rate_limit e
    = (Some (threat, behavior), e') →
  Handler.recomputed_behavior ip (DetectionEngine.analyzer e') = behavior
  ∧ ∃ s, BehaviorAnalyzer.get_session ip (DetectionEngine.analyzer e') = Some s
         ∧ behavior = BehaviorAnalyzer._compute_score s
         ∧ ((BehaviorAnalyzer.request_count s < 3)%Z → behavior = 0%Q).
Proof.
  destruct (DetectionEngine._extract_features (DetectionEngine.t_features ck) request ip)
    as [features|] eqn:Efeatures.
  2:{ unfold DetectionEngine.score_request_with_behavior. by rewrite Efeatures. }
  rewrite (score_request_cases _ _ _ _ _ _ _ Efeatures). cbv zeta.
  match goal with
  | |- context [BehaviorAnalyzer.record_and_score ?now ?i ?p ?m ?u ?l ?rf ?ck ?h ?a] =>
      destruct (record_and_score_session now i p m u l rf ck h a) as (s0 & Hscore & Hget & _);
      destruct (BehaviorAnalyzer.record_and_score now i p m u l rf ck h a) as [b a'] eqn:E
  end.
  cbn [fst snd] in *.
  destruct (MLAnomalyModel.extract_vector _ _ _); [|discriminate].
  destruct (BaselineModel.record_observation _ _ _) as [baseline' [|]]; [|discriminate].
  cbn [fst snd]. intros [= _ <- <-]. cbn [DetectionEngine.analyzer].
  split; [rewrite (recomputed_is_compute_score _ _ _ Hget); by rewrite Hscore|].
  eexists. split; [exact Hget|]. split; [exact Hscore|].
  intros Hlt. rewrite Hscore. unfold BehaviorAnalyzer._compute_score.
  apply Z.ltb_lt in Hlt. by rewrite Hlt.
Qed.

(** C10.  For every request that gets through detection scoring, the
    behaviour score the handler computes again from the stored session
    ([get_session], then [_compute_score] when the session has at least 3
    requests, else 0) is the one [record_and_score] returned during
    scoring; both are 0 when the session has fewer than 3 requests.
    Hence the handler behaves as the variant that passes the first score
    on instead of computing it again.  When scoring raises because the
    content length is no integer, the engine is left as it was. *)
Theorem recomputed_behavior_is_recorded (cfg : Settings) (env : Handler.Env)
    (request : Http.Request) (ip url_path ua : string) (rate_count rate_limit : Z)
    (e : DetectionEngine.t) (w : Handler.World) :
  match DetectionEngine.score_request_with_behavior (Handler.detect_clock env) request ip
          rate_count rate_limit e with
  | (Some (threat, behavior), e') =>
      Handler.recomputed_behavior ip (DetectionEngine.analyzer e') = behavior
      ∧ ∃ s, BehaviorAnalyzer.get_session ip (DetectionEngine.analyzer e') = Some s
             ∧ behavior = BehaviorAnalyzer._compute_score s
             ∧ ((BehaviorAnalyzer.request_count s < 3)%Z → behavior = 0%Q)
  | (None, e') =>
      DetectionEngine._extract_features
        (DetectionEngine.t_features (Handler.detect_clock env)) request ip = None →
      e' = e
  end
  ∧ Handler.detect_and_forward cfg env request ip url_path ua rate_count w
    = Handler.detect_and_forward_reusing cfg env request ip url_path ua rate_count w.
Proof.
  split.
  - destruct (DetectionEngine.score_request_with_behavior _ request ip rate_count rate_limit e)
      as [[[threat behavior]|] e'] eqn:E.
    + exact (score_then_recompute _ _ _ _ _ _ _ _ _ E).
    + intros Hfails. unfold DetectionEngine.score_request_with_behavior in E.
      rewrite Hfails in E. by injection E.
  - unfold Handler.detect_and_forward, Handler.detect_and_forward_reusing,
      DetectionEngine.score_request.
    destruct (DetectionEngine.score_request_with_behavior _ request ip rate_count
                (rate_limit_per_ip cfg) (Handler.engine w))
      as [[[threat behavior]|] e'] eqn:E; cbn [option_map fst]; [|reflexivity].
    unfold Handler.mitigate.
    destruct (negb (Qle_bool (anomaly_threshold cfg) threat)); [reflexivity|].
    cbn [Handler.engine Handler.with_engine].
    destruct (score_then_recompute _ _ _ _ _ _ _ _ _ E) as [-> _]. reflexivity.
Qed.

End RecomputedScore.

(** A request that deviates from the learnt baseline (3 headers instead
    of 8, a body of 27 bytes) scores 0.25, which reaches the strict
    threshold: the address is put on the permanent block list and the
    answer is 403.  The handler and the variant that reuses the first
    behaviour score agree on it. *)
Example flagged_request_is_blocked :
  let '(o, w) := @Handler.reverse_proxy Example.platform strict_cfg [] example_env
                   (post_to "/signin" "198.51.100.4") "signin" learnt_world in
  o = Handler.Returned Handler.forbidden
  ∧ (Handler.redis w ≫= fun r => Some (Redis.sismember IPBlocker.BLOCKLIST_KEY "198.51.100.4" r))
    = Some true
  ∧ length (Handler.tasks w) = 2%nat
  ∧ @Handler.recomputed_behavior Example.platform "198.51.100.4"
      (DetectionEngine.analyzer (Handler.engine w)) = 0%Q.
Proof. vm_compute. repeat split. Qed.

(* --------------------------------------------------------------------- *)
(** ** C3: the per-rule limit of the login rule in the pipeline          *)
(* --------------------------------------------------------------------- *)

(** C3, as stated, fails: a sixth POST to /api/login within the window
    is answered 404 by the first test of the handler; the rule is not
    evaluated (the store is left as it was, nothing is counted), and
    there is no 503, no block key and no 403. *)
Lemma login_post_is_not_proxied :
  let w := world_with (five_recent "rl:rule:Login Protection:198.51.100.4") in
  RulesEngine.match_request [login_rule] "/api/login" "POST" = [login_rule]
  ∧ @Handler.reverse_proxy Example.platform default_settings [login_rule] example_env
      (post_to "/api/login" "198.51.100.4") "api/login" w
    = (Handler.Returned (Http.plain 404 Http.Empty), w).
Proof. split; reflexivity. Qed.

Section RuleEscalation.
Context `{Platform}.
Import RulesEngine.

Lemma check_rule_limit_spec now uuid8 ip rule_name limit window_sec r :
  let key := "rl:rule:" +:+ rule_name +:+ ":" +:+ ip in
  let ws := (now - inject_Z window_sec)%Q in
  let m := RateLimiter.member_of now uuid8 in
  let count := Z.of_nat (size (after_check key now ws m r)) in
  ∃ r',
    RateLimiter.check_rule_limit now uuid8 ip rule_name limit window_sec (Some r)
      = (((count <=? limit)%Z, count), Some r')
    ∧ Redis.zset_of key r' = after_check key now ws m r
    ∧ Redis.sets r' = Redis.sets r
    ∧ Redis.strs r' = Redis.strs r.
Proof.
  intros key ws m count. unfold RateLimiter.check_rule_limit. fold key ws m.
  destruct (execute_window key now ws m (window_sec + 10) r)
    as (removed & added & r' & -> & Hz & _ & Hsets & Hstrs).
  exists r'. cbn [nth]. fold count. repeat split; assumption.
Qed.

(** The ladder of the login rule: block from 95 per cent, the challenge
    from 80 to below 95, the default below 80. *)
Lemma resolve_login_ladder usage :
  Handler._resolve_escalation login_ladder usage
  = if Qle_bool 95 usage then "block"
    else if Qle_bool 80 usage then "js_challenge" else "rate_limit".
Proof.
  unfold Handler._resolve_escalation.
  change (Handler.sorted_steps login_ladder) with login_ladder.
  cbn [fold_left login_ladder threshold action].
  destruct (Qle_bool 80 usage), (Qle_bool 95 usage); reflexivity.
Qed.

(** A rejected request has used more than the whole allowance. *)
Lemma usage_above_limit count limit :
  (0 < limit)%Z → (limit < count)%Z →
  (100 < inject_Z count / inject_Z limit * 100)%Q.
Proof.
  intros Hpos Hlt.
  assert (Hl : (0 < inject_Z limit)%Q) by (unfold Qlt, inject_Z; cbn; lia).
  assert (Hc : (inject_Z limit < inject_Z count)%Q) by (unfold Qlt, inject_Z; cbn; lia).
  assert (H1 : (1 < inject_Z count / inject_Z limit)%Q).
  { apply Qlt_shift_div_l; [exact Hl | lra]. }
  lra.
Qed.

End RuleEscalation.

Section LoginRuleClaim.
Context `{Platform}.
Import RulesEngine.

Lemma parse_duration_login_ladder : Handler._parse_duration login_ladder = Some (Some 3600%Z).
Proof. reflexivity. Qed.

(** What the handler does for a rule with the login ladder when the
    usage is at or above 95 per cent: the block key with the ladder's
    duration, then 403. *)
Lemma rule_exceeded_blocks cfg env request ip url_path ua rule count limit_count limit_window
    (w : Handler.World) r :
  Handler.redis w = Some r →
  escalation rule = login_ladder →
  limit_count ≠ 0%Z → (95 <= usage_pct count limit_count)%Q →
  ∃ w',
    Handler.rule_exceeded cfg env request ip url_path ua rule count limit_count limit_window w
      = (Handler.Returned Handler.forbidden, w')
    ∧ Handler.redis w'
      = Some (Redis.set_ex ("block:" +:+ ip) ("Rule escalation: " +:+ name rule) 3600 r).
Proof.
  intros Hredis Hesc Hne Husage. unfold Handler.rule_exceeded.
  rewrite Hesc, resolve_login_ladder.
  destruct (limit_count =? 0)%Z eqn:E0; [apply Z.eqb_eq in E0; lia|].
  apply Qle_bool_iff in Husage. unfold usage_pct in Husage.
  rewrite Husage. cbn [String.eqb Ascii.eqb Bool.eqb].
  rewrite parse_duration_login_ladder.
  cbn [Handler.redis Handler.upd_traffic]. rewrite Hredis.
  change (IPBlocker.block_raises (Some 3600%Z) (Some r)) with false. cbv iota.
  eexists. split; [reflexivity|].
  cbn [Handler.redis Handler.create_task Handler.upd_traffic Handler.with_redis].
  reflexivity.
Qed.

(** From 80 to below 95 per cent, for a client without the challenge
    cookie: the 503 page, and nothing is blocked. *)
Lemma rule_exceeded_challenges cfg env request ip url_path ua rule count limit_count
    limit_window (w : Handler.World) :
  escalation rule = login_ladder →
  limit_count ≠ 0%Z →
  (80 <= usage_pct count limit_count)%Q → (usage_pct count limit_count < 95)%Q →
  Http.get_first ChallengeManager.CHALLENGE_COOKIE (Http.cookies request) = None →
  ∃ w',
    Handler.rule_exceeded cfg env request ip url_path ua rule count limit_count limit_window w
      = (Handler.Returned
           {| Http.status_code := 503;
              Http.body := Http.ChallengePage
                (ChallengeManager._generate_challenge (jwt_secret cfg) (Handler.t_challenge env)
                   (Handler.challenge_nonce env) ip);
              Http.media_type := Some "text/html"; Http.resp_headers := [] |}, w')
    ∧ Handler.redis w' = Handler.redis w.
Proof.
  intros Hesc Hne H80 H95 Hcookie. unfold Handler.rule_exceeded.
  rewrite Hesc, resolve_login_ladder.
  destruct (limit_count =? 0)%Z eqn:E0; [apply Z.eqb_eq in E0; lia|].
  apply Qle_bool_iff in H80. apply Qlt_bool_iff in H95. unfold Qlt_bool in H95.
  apply negb_true_iff in H95. unfold usage_pct in H80, H95.
  rewrite H80, H95. cbn [String.eqb Ascii.eqb Bool.eqb].
  unfold ChallengeManager.maybe_challenge. rewrite Hcookie. cbn [truthy andb].
  eexists. split; reflexivity.
Qed.

(** C3, amended.  (a) A request whose URL path begins with /api/,
    /api/login among them, is answered 404 before anything else
    happens: no rule is evaluated and the state is left as it was.
    (b) When a rule with the ladder (80: js_challenge; 95: block for
    "1h") has rejected a request, the answer is the escalation outcome
    for the usage percentage [count / limit * 100]: at or above 95, the
    key block:<ip> is set with a time to live of 3600 s and the answer
    is 403; from 80 to below 95, for a client without the challenge
    cookie, the answer is the 503 challenge page.  (c) For a request
    outside the reserved prefixes, from an address that is not blocked,
    whose first matched rule has the per-IP limit "5/minute" and this
    ladder, the pipeline evaluates the per-rule window: the request is
    added to the key rl:rule:<name>:<ip> and counted, and once the count
    exceeds 5 the key block:<ip> is set with a time to live of 3600 s
    and the answer is 403. *)
Theorem login_rule_escalation (cfg : Settings) (rules : list Rule) (env : Handler.Env)
    (request : Http.Request) (path : string) (w : Handler.World) (r : Redis.t)
    (rule : Rule) (rest : list Rule) (per_subnet : option string) :
  let ip := Handler.get_client_ip request in
  let url_path := if String.eqb path "" then "/" else "/" +:+ path in
  let key := "rl:rule:" +:+ name rule +:+ ":" +:+ ip in
  let now := Handler.rule_now env 0 in
  let member := RateLimiter.member_of now (Handler.rule_uuid env 0) in
  let count := Z.of_nat (size (after_check key now (now - 60)%Q member r)) in
  Handler.redis w = Some r →
  PyStr.startswith_any (Http.url_path request) Handler.internal_prefixes = false →
  IPBlocker.is_blocked ip (Some r) = false →
  match_request rules url_path (Http.method request) = rule :: rest →
  limits rule = Some {| per_ip := Some "5/minute"; per_subnet := per_subnet |} →
  escalation rule = login_ladder →
  (5 < count)%Z →
  (∀ request' path' w',
     PyStr.startswith (Http.url_path request') "/api/" = true →
     Handler.reverse_proxy cfg rules env request' path' w'
       = (Handler.Returned (Http.plain 404 Http.Empty), w'))
  ∧ (∀ request' ip' url_path' ua' count' limit' window' w0 r0,
       Handler.redis w0 = Some r0 → limit' ≠ 0%Z →
       ((95 <= usage_pct count' limit')%Q →
        ∃ w',
          Handler.rule_exceeded cfg env request' ip' url_path' ua' rule count' limit' window' w0
            = (Handler.Returned Handler.forbidden, w')
          ∧ Handler.redis w'
            = Some (Redis.set_ex ("block:" +:+ ip') ("Rule escalation: " +:+ name rule)
                      3600 r0))
       ∧ ((80 <= usage_pct count' limit')%Q → (usage_pct count' limit' < 95)%Q →
          Http.get_first ChallengeManager.CHALLENGE_COOKIE (Http.cookies request') = None →
          ∃ w' page,
            Handler.rule_exceeded cfg env request' ip' url_path' ua' rule count' limit' window' w0
              = (Handler.Returned page, w')
            ∧ Http.status_code page = 503%Z
            ∧ Handler.redis w' = Some r0))
  ∧ ∃ w' r',
      Handler.reverse_proxy cfg rules env request path w
        = (Handler.Returned Handler.forbidden, w')
      ∧ Http.status_code Handler.forbidden = 403%Z
      ∧ Handler.redis w' = Some r'
      ∧ Redis.strs r' !! ("block:" +:+ ip) = Some ("Rule escalation: " +:+ name rule)
      ∧ Redis.ttls r' !! ("block:" +:+ ip) = Some 3600%Z
      ∧ Redis.zset_of key r' !! member = Some now.
Proof.
  intros ip url_path key now member count Hredis Hguard Hblocked Hmatch Hlimits Hesc Hcount.
  split; [|split].
  { intros request' path' w' Hapi. unfold Handler.reverse_proxy.
    unfold PyStr.startswith_any, Handler.internal_prefixes. cbn [existsb].
    by rewrite Hapi. }
  { intros request' ip' url_path' ua' count' limit' window' w0 r0 Hr0 Hne. split.
    - intros Husage.
      exact (rule_exceeded_blocks cfg env request' ip' url_path' ua' rule count' limit' window'
               w0 r0 Hr0 Hesc Hne Husage).
    - intros H80 H95 Hcookie.
      destruct (rule_exceeded_challenges cfg env request' ip' url_path' ua' rule count' limit'
                  window' w0 Hesc Hne H80 H95 Hcookie) as (w' & Hex & Hw').
      exists w'. eexists. split; [exact Hex|]. split; [reflexivity|]. by rewrite Hw'. }
  unfold Handler.reverse_proxy. rewrite Hguard. fold ip url_path.
  cbn [Handler.redis Handler.upd_traffic]. rewrite Hredis, Hblocked, Hmatch.
  cbn [Handler.rules_phase]. rewrite Hlimits.
  cbn [per_ip truthy].
  change (parse_rate_string (default "" (Some "5/minute"))) with (Some (5, 60)%Z).
  cbn [Handler.redis Handler.upd_traffic]. rewrite ?Hredis.
  destruct (check_rule_limit_spec (Handler.rule_now env 0) (Handler.rule_uuid env 0) ip
              (name rule) 5 60 r) as (r1 & Hcheck & Hz & _ & _).
  fold now member key in Hcheck, Hz. change (inject_Z 60) with 60%Q in Hcheck, Hz.
  fold count in Hcheck. fold now. rewrite Hcheck.
  destruct (count <=? 5)%Z eqn:E; [apply Z.leb_le in E; lia|]. cbn [negb].
  assert (Husage : (95 <= usage_pct count 5)%Q).
  { pose proof (usage_above_limit count 5 ltac:(lia) Hcount). unfold usage_pct. lra. }
  match goal with
  | |- context [Handler.rule_exceeded ?c ?e ?rq ?i ?u ?a ?rl ?n ?l ?lw ?w0] =>
      destruct (rule_exceeded_blocks c e rq i u a rl n l lw w0 r1) as (w' & Hex & Hw');
        [reflexivity | exact Hesc | lia | exact Husage |]; rewrite Hex
  end.
  exists w'. eexists. split; [reflexivity|]. split; [reflexivity|].
  split; [exact Hw'|]. cbn [Redis.set_ex Redis.strs Redis.ttls].
  rewrite !lookup_insert_eq. split; [reflexivity|]. split; [reflexivity|].
  unfold Redis.zset_of in *. cbn [Redis.set_ex Redis.zsets]. rewrite Hz.
  apply after_check_member.
Qed.

End LoginRuleClaim.

(** The sixth POST to /signin within the window is answered 403. *)
Lemma login_rule_escalation_witness :
  (@Handler.reverse_proxy Example.platform default_settings [signin_rule] example_env
     (post_to "/signin" "198.51.100.4") "signin" signin_world).1
  = Handler.Returned Handler.forbidden.
Proof.
  destruct (@login_rule_escalation Example.platform default_settings [signin_rule] example_env
              (post_to "/signin" "198.51.100.4") "signin" signin_world
              (five_recent "rl:rule:Signin Protection:198.51.100.4")
              signin_rule [] (Some "50/minute"))
    as (_ & _ & w' & r' & Heq & _).
  - reflexivity.
  - reflexivity.
  - vm_compute. reflexivity.
  - reflexivity.
  - reflexivity.
  - reflexivity.
  - vm_compute. reflexivity.
  - rewrite Heq. reflexivity.
Defined.

(** The same request evaluated: 403, the block key with its time to
    live, and the request counted under the rule key. *)
Example sixth_signin_post :
  let '(o, w) := @Handler.reverse_proxy Example.platform default_settings [signin_rule]
                   example_env (post_to "/signin" "198.51.100.4") "signin" signin_world in
  o = Handler.Returned Handler.forbidden
  ∧ (Handler.redis w ≫= fun r => Redis.ttls r !! "block:198.51.100.4") = Some 3600%Z
  ∧ (Handler.redis w ≫= fun r => Redis.strs r !! "block:198.51.100.4")
    = Some "Rule escalation: Signin Protection"
  ∧ size (Scenario.zset_at "rl:rule:Signin Protection:198.51.100.4" (Handler.redis w)) = 6%nat
  ∧ Handler.blocked_requests (Handler.traffic w) = 1%Z.
Proof. vm_compute. repeat split. Qed.

(** A first POST to /signin goes through the rule, the global limits and
    the detection, and is relayed from the upstream. *)
Example first_signin_post :
  let '(o, w) := @Handler.reverse_proxy Example.platform default_settings [signin_rule]
                   example_env (post_to "/signin" "198.51.100.4") "signin"
                   (world_with Redis.empty) in
  (match o with Handler.Returned resp => Some (Http.status_code resp) | _ => None end)
    = Some 200%Z
  ∧ Handler.forwarded_requests (Handler.traffic w) = 1%Z
  ∧ size (Scenario.zset_at "rl:rule:Signin Protection:198.51.100.4" (Handler.redis w)) = 1%nat
  ∧ size (Scenario.zset_at "rl:ip:198.51.100.4" (Handler.redis w)) = 1%nat.
Proof. vm_compute. repeat split. Qed.

(** The challenge band of the ladder: at 80 per cent (4 of 5) a client
    without the cookie gets the 503 page. *)
Example challenge_at_eighty_per_cent :
  match (@Handler.rule_exceeded Example.platform default_settings example_env
           (post_to "/signin" "198.51.100.4") "198.51.100.4" "/signin" "Mozilla/5.0"
           signin_rule 4 5 60 (world_with Redis.empty)).1 with
  | Handler.Returned resp => Http.status_code resp
  | Handler.Raised => 0%Z
  end = 503%Z.
Proof. vm_compute. reflexivity. Qed.

(* ===================================================================== *)
(** * Part III. Further properties of the code                           *)
(* ===================================================================== *)

(* --------------------------------------------------------------------- *)
(** ** The blocker                                                       *)
(* --------------------------------------------------------------------- *)

Section BlockerFacts.

Ltac sets :=
  rewrite ?elem_of_elements, ?elem_of_union, ?elem_of_difference, ?elem_of_singleton;
  intuition congruence.

Lemma block_key_inj ip ip' : "block:" +:+ ip = "block:" +:+ ip' → ip = ip'.
Proof. intros Heq. by apply (inj (String.append "block:")) in Heq. Qed.

Lemma lists_differ : IPBlocker.BLOCKLIST_KEY ≠ IPBlocker.ALLOWLIST_KEY.
Proof. discriminate. Qed.

Lemma set_of_sadd key key' m r :
  Redis.set_of key' (Redis.sadd key m r)
  = if decide (key = key') then {[m]} ∪ Redis.set_of key r else Redis.set_of key' r.
Proof.
  unfold Redis.set_of, Redis.sadd; cbn. case_decide as E.
  - subst. by rewrite lookup_insert_eq.
  - by rewrite lookup_insert_ne.
Qed.

Lemma set_of_srem key key' m r :
  Redis.set_of key' (Redis.srem key m r)
  = if decide (key = key') then Redis.set_of key r ∖ {[m]} else Redis.set_of key' r.
Proof.
  unfold Redis.set_of, Redis.srem; cbn. case_decide as E.
  - subst. by rewrite lookup_insert_eq.
  - by rewrite lookup_insert_ne.
Qed.

(** No operation of the blocker takes an address off the allow list. *)
Lemma run_op_keeps_allowlist op ip r :
  Redis.sismember IPBlocker.ALLOWLIST_KEY ip r = true →
  ∃ r', run_op op (Some r) = Some r'
        ∧ Redis.sismember IPBlocker.ALLOWLIST_KEY ip r' = true.
Proof.
  unfold Redis.sismember. rewrite bool_decide_eq_true. intros Hin.
  destruct op as [ip' reason [d|] | ip' | ip']; cbn [run_op IPBlocker.block IPBlocker.unblock
    IPBlocker.allow]; try destruct (d =? 0)%Z; try destruct (Redis.valid_ex d);
    eexists; (split; [reflexivity|]); rewrite bool_decide_eq_true.
  - rewrite set_of_sadd. by case_decide.
  - rewrite set_of_sadd. by case_decide.
  - exact Hin.
  - exact Hin.
  - rewrite set_of_sadd. by case_decide.
  - rewrite set_of_srem. case_decide as E; [by destruct lists_differ|]. exact Hin.
  - rewrite set_of_sadd. case_decide; [set_solver | exact Hin].
Qed.

(** X1.  Once an address is on the allow list it is never reported as
    blocked, whatever blocks, unblocks and further allow-list entries
    follow, for this or any other address. *)
Theorem allowlisted_is_never_blocked (ip : string) (ops : list blocker_op) (r : Redis.t) :
  IPBlocker.is_blocked ip (run_ops ops (IPBlocker.allow ip (Some r))) = false.
Proof.
  assert (Hinv : ∀ ops r0, Redis.sismember IPBlocker.ALLOWLIST_KEY ip r0 = true →
            IPBlocker.is_blocked ip (run_ops ops (Some r0)) = false).
  { clear. induction ops as [|op ops IH]; intros r0 Hin.
    - cbn. by rewrite Hin.
    - destruct (run_op_keeps_allowlist op ip r0 Hin) as (r' & Hop & Hin').
      cbn [run_ops fold_left]. rewrite Hop. by apply IH. }
  apply Hinv. unfold Redis.sismember. rewrite bool_decide_eq_true, set_of_sadd.
  case_decide; [set_solver | done].
Qed.

Lemma is_blocked_spec ip r :
  IPBlocker.is_blocked ip (Some r)
  = negb (bool_decide (ip ∈ Redis.set_of IPBlocker.ALLOWLIST_KEY r))
    && (bool_decide (is_Some (Redis.strs r !! ("block:" +:+ ip)))
        || bool_decide (ip ∈ Redis.set_of IPBlocker.BLOCKLIST_KEY r)).
Proof.
  unfold IPBlocker.is_blocked, Redis.sismember, Redis.exists_.
  destruct (bool_decide (ip ∈ Redis.set_of IPBlocker.ALLOWLIST_KEY r)); [reflexivity|].
  by destruct (bool_decide (is_Some (Redis.strs r !! ("block:" +:+ ip)))).
Qed.

Lemma block_lookup ip reason d r :
  ∃ r', IPBlocker.block ip reason d (Some r) = Some r'
    ∧ Redis.set_of IPBlocker.ALLOWLIST_KEY r' = Redis.set_of IPBlocker.ALLOWLIST_KEY r
    ∧ (match d with
       | Some n => if (n =? 0)%Z then
                     Redis.strs r' = Redis.strs r
                     ∧ Redis.set_of IPBlocker.BLOCKLIST_KEY r'
                       = {[ip]} ∪ Redis.set_of IPBlocker.BLOCKLIST_KEY r
                   else if Redis.valid_ex n then
                     Redis.strs r' = <["block:" +:+ ip := reason]> (Redis.strs r)
                     ∧ Redis.ttls r' !! ("block:" +:+ ip) = Some n
                     ∧ Redis.set_of IPBlocker.BLOCKLIST_KEY r'
                       = Redis.set_of IPBlocker.BLOCKLIST_KEY r
                   else r' = r
       | None => Redis.strs r' = Redis.strs r
                 ∧ Redis.set_of IPBlocker.BLOCKLIST_KEY r'
                   = {[ip]} ∪ Redis.set_of IPBlocker.BLOCKLIST_KEY r
       end).
Proof.
  unfold IPBlocker.block.
  destruct d as [n|]; [destruct (n =? 0)%Z; [|destruct (Redis.valid_ex n)]|]; eexists;
    (split; [reflexivity|]); rewrite ?set_of_sadd; repeat case_decide; try done;
    try (by destruct lists_differ).
  cbn. rewrite lookup_insert_eq. done.
Qed.

Lemma valid_duration_ex n :
  valid_duration (Some n) → (n =? 0)%Z = false → Redis.valid_ex n = true.
Proof.
  cbn. intros Hn E. apply Z.eqb_neq in E. unfold Redis.valid_ex. apply Z.ltb_lt. lia.
Qed.

Lemma unblock_lookup ip r :
  ∃ r', IPBlocker.unblock ip (Some r) = Some r'
    ∧ Redis.set_of IPBlocker.ALLOWLIST_KEY r' = Redis.set_of IPBlocker.ALLOWLIST_KEY r
    ∧ Redis.strs r' = delete ("block:" +:+ ip) (Redis.strs r)
    ∧ Redis.set_of IPBlocker.BLOCKLIST_KEY r'
      = Redis.set_of IPBlocker.BLOCKLIST_KEY r ∖ {[ip]}.
Proof.
  unfold IPBlocker.unblock. eexists. split; [reflexivity|].
  rewrite !set_of_srem. repeat case_decide; try done; by destruct lists_differ.
Qed.

(** X2.  For an address that is not on the allow list: after [block],
    with or without a duration (and before a temporary block runs out),
    [is_blocked] answers [True]; after
    [unblock] it answers [False] again.  Blocking or unblocking one
    address changes the answer for no other address. *)
Theorem block_and_unblock (ip reason : string) (d : option Z) (r : Redis.t) :
  valid_duration d →
  Redis.sismember IPBlocker.ALLOWLIST_KEY ip r = false →
  IPBlocker.is_blocked ip (IPBlocker.block ip reason d (Some r)) = true
  ∧ IPBlocker.is_blocked ip (IPBlocker.unblock ip (IPBlocker.block ip reason d (Some r))) = false
  ∧ ∀ ip', ip' ≠ ip →
      IPBlocker.is_blocked ip' (IPBlocker.block ip reason d (Some r))
        = IPBlocker.is_blocked ip' (Some r)
      ∧ IPBlocker.is_blocked ip' (IPBlocker.unblock ip (Some r))
        = IPBlocker.is_blocked ip' (Some r).
Proof.
  intros Hvalid. unfold Redis.sismember. rewrite bool_decide_eq_false. intros Hallow.
  destruct (block_lookup ip reason d r) as (r1 & Hb & Ha1 & Hd).
  rewrite Hb. destruct (unblock_lookup ip r1) as (r2 & Hu & Ha2 & Hs2 & Hl2). rewrite Hu.
  split; [|split].
  - rewrite is_blocked_spec, Ha1. rewrite (bool_decide_eq_false_2 _ Hallow). cbn [negb andb].
    apply orb_true_iff.
    destruct d as [n|]; [destruct (n =? 0)%Z eqn:E0|].
    + right. destruct Hd as [_ ->]. rewrite bool_decide_eq_true. sets.
    + rewrite (valid_duration_ex n Hvalid E0) in Hd.
      left. destruct Hd as [-> _]. rewrite bool_decide_eq_true, lookup_insert_eq. by eexists.
    + right. destruct Hd as [_ ->]. rewrite bool_decide_eq_true. sets.
  - rewrite is_blocked_spec, Hs2, Hl2, lookup_delete_eq.
    rewrite (bool_decide_eq_false_2 (is_Some None)) by (intros [? ?]; discriminate).
    rewrite (bool_decide_eq_false_2 (ip ∈ _ ∖ {[ip]})) by sets.
    by rewrite andb_false_r.
  - intros ip' Hne.
    assert (Hk : "block:" +:+ ip ≠ "block:" +:+ ip')
      by (intros E; apply block_key_inj in E; congruence).
    split.
    + rewrite !is_blocked_spec, Ha1. f_equal.
      destruct d as [n|]; [destruct (n =? 0)%Z eqn:E0|].
      * destruct Hd as [-> ->]. f_equal. apply bool_decide_ext. sets.
      * rewrite (valid_duration_ex n Hvalid E0) in Hd.
        destruct Hd as (-> & _ & ->). by rewrite lookup_insert_ne.
      * destruct Hd as [-> ->]. f_equal. apply bool_decide_ext. sets.
    + destruct (unblock_lookup ip r) as (r3 & Hu3 & Ha3 & Hs3 & Hl3). rewrite Hu3.
      rewrite !is_blocked_spec, Ha3, Hs3, Hl3. rewrite lookup_delete_ne by done.
      do 2 f_equal. apply bool_decide_ext. sets.
Qed.

Lemma block_and_unblock_witness :
  IPBlocker.is_blocked "203.0.113.5"
    (IPBlocker.block "203.0.113.5" "manual" (Some 600%Z) (Some Redis.empty)) = true.
Proof.
  refine (proj1 (block_and_unblock "203.0.113.5" "manual" (Some 600%Z) Redis.empty _ _)).
  - cbn. lia.
  - vm_compute. reflexivity.
Defined.

(** X3.  [get_blocked_ips] lists the permanent blocks only: a block with
    a non-zero duration leaves the list as it was, a block without a
    duration, or with the duration 0, puts the address on it, and after
    [unblock] the address is not on it.  Without a client the list is
    empty. *)
Theorem blocked_list_is_permanent_only (ip reason : string) (n : Z) (r : Redis.t) :
  ((0 < n)%Z →
   IPBlocker.get_blocked_ips (IPBlocker.block ip reason (Some n) (Some r))
     = IPBlocker.get_blocked_ips (Some r))
  ∧ ip ∈ IPBlocker.get_blocked_ips (IPBlocker.block ip reason None (Some r))
  ∧ IPBlocker.block ip reason (Some 0%Z) (Some r) = IPBlocker.block ip reason None (Some r)
  ∧ (ip ∉ IPBlocker.get_blocked_ips (IPBlocker.unblock ip (Some r)))
  ∧ IPBlocker.get_blocked_ips (IPBlocker.block ip reason (Some n) None) = [].
Proof.
  split; [|split; [|split; [|split]]].
  - intros Hn. destruct (block_lookup ip reason (Some n) r) as (r1 & -> & _ & Hd).
    destruct (n =? 0)%Z eqn:E; [apply Z.eqb_eq in E; lia|].
    rewrite valid_duration_ex in Hd by (done || cbn; lia).
    destruct Hd as (_ & _ & Hl). unfold IPBlocker.get_blocked_ips. by rewrite Hl.
  - destruct (block_lookup ip reason None r) as (r1 & -> & _ & _ & Hl).
    unfold IPBlocker.get_blocked_ips. rewrite Hl. apply elem_of_elements. sets.
  - reflexivity.
  - destruct (unblock_lookup ip r) as (r1 & -> & _ & _ & Hl).
    unfold IPBlocker.get_blocked_ips. rewrite Hl, elem_of_elements. sets.
  - reflexivity.
Qed.

End BlockerFacts.

(* --------------------------------------------------------------------- *)
(** ** The layers of the rate limiter                                    *)
(* --------------------------------------------------------------------- *)

Section RateLimiterLayers.
Context `{Platform}.

Lemma window_start_le now w : (0 <= w)%Z → (now - inject_Z w <= now)%Q.
Proof.
  intros Hw. assert (0 <= inject_Z w)%Q by (unfold Qle, inject_Z; cbn; lia). lra.
Qed.

(** After a check the trimmed window holds no member that [ZCOUNT] from
    the window start would leave out. *)
Lemma zcount_after_check key now ws member r r' :
  (ws <= now)%Q →
  Redis.zset_of key r' = after_check key now ws member r →
  Redis.zcount key ws r' = Z.of_nat (size (after_check key now ws member r)).
Proof.
  intros Hle Hz. unfold Redis.zcount. rewrite Hz. do 2 f_equal.
  apply map_filter_id. intros i x. unfold after_check. intros Hl.
  apply lookup_insert_Some in Hl as [[_ <-] | [_ Hl]].
  - unfold Redis.at_least. cbn. by apply Qle_bool_iff.
  - apply map_lookup_filter_Some in Hl as [_ Habove].
    unfold Redis.above, Redis.at_least in *. cbn in *.
    apply Qle_bool_iff, Qlt_le_weak, Qnot_le_lt. intros Hc.
    apply Qle_bool_iff in Hc. congruence.
Qed.

Lemma after_check_size_pos key now ws member r :
  (1 <= Z.of_nat (size (after_check key now ws member r)))%Z.
Proof.
  destruct (size (after_check key now ws member r)) eqn:E; [|lia].
  apply map_size_empty_inv in E.
  pose proof (after_check_member key now ws member r) as Hm.
  rewrite E in Hm. by rewrite lookup_empty in Hm.
Qed.

Lemma after_check_ext key now ws member r r' :
  Redis.zset_of key r' = Redis.zset_of key r →
  after_check key now ws member r' = after_check key now ws member r.
Proof. unfold after_check. by intros ->. Qed.

(** [allow] in closed form, on the store before the call. *)
Lemma allow_spec cfg now uuid8 ip r :
  let ws := (now - inject_Z RateLimiter.WINDOW_SEC)%Q in
  let m := RateLimiter.member_of now uuid8 in
  let ipk := "rl:ip:" +:+ ip in
  let subk := "rl:sub:" +:+ RateLimiter._ip_to_subnet ip in
  let ok_ip := (Z.of_nat (size (after_check ipk now ws m r)) <=? rate_limit_per_ip cfg)%Z in
  let ok_sub := (Z.of_nat (size (after_check subk now ws m r)) <=? rate_limit_per_subnet cfg)%Z in
  let ok_glob :=
    (Z.of_nat (size (after_check "rl:global" now ws m r)) <=? rate_limit_global cfg)%Z in
  ∃ r',
    RateLimiter.allow cfg now uuid8 ip (Some r) = (ok_ip && ok_sub && ok_glob, Some r')
    ∧ Redis.zset_of ipk r' = after_check ipk now ws m r
    ∧ Redis.zset_of subk r'
      = (if ok_ip then after_check subk now ws m r else Redis.zset_of subk r)
    ∧ Redis.zset_of "rl:global" r'
      = (if ok_ip && ok_sub then after_check "rl:global" now ws m r
         else Redis.zset_of "rl:global" r)
    ∧ (∀ key, key ≠ ipk → key ≠ subk → key ≠ "rl:global" →
         Redis.zset_of key r' = Redis.zset_of key r)
    ∧ Redis.sets r' = Redis.sets r
    ∧ Redis.strs r' = Redis.strs r.
Proof.
  intros ws m ipk subk ok_ip ok_sub ok_glob.
  assert (Hne_is : ipk ≠ subk) by apply ip_key_not_sub_key.
  assert (Hne_ig : ipk ≠ "rl:global") by apply ip_key_not_global_key.
  assert (Hne_sg : subk ≠ "rl:global") by apply sub_key_not_global_key.
  unfold RateLimiter.allow. fold ws m ipk subk.
  destruct (check_key_spec ipk now ws m (rate_limit_per_ip cfg) r)
    as (r1 & -> & Hip1 & Hoth1 & Hsets1 & Hstrs1).
  fold ok_ip. destruct ok_ip; cbn [negb andb].
  2:{ exists r1. split; [reflexivity|]. split; [exact Hip1|].
      split; [by apply Hoth1|]. split; [by apply Hoth1|].
      split; [|done]. intros key Hk _ _. by apply Hoth1. }
  destruct (check_key_spec subk now ws m (rate_limit_per_subnet cfg) r1)
    as (r2 & -> & Hsub2 & Hoth2 & Hsets2 & Hstrs2).
  rewrite (after_check_ext subk now ws m r r1) in * by (by apply Hoth1).
  fold ok_sub. destruct ok_sub; cbn [negb andb].
  2:{ exists r2. split; [reflexivity|].
      split; [by rewrite Hoth2, Hip1|]. split; [exact Hsub2|].
      split; [by rewrite Hoth2, Hoth1|].
      split; [|split; congruence]. intros key Hk1 Hk2 _. by rewrite Hoth2, Hoth1. }
  destruct (check_key_spec "rl:global" now ws m (rate_limit_global cfg) r2)
    as (r3 & -> & Hglob3 & Hoth3 & Hsets3 & Hstrs3).
  rewrite (after_check_ext "rl:global" now ws m r r2) in *
    by (by rewrite Hoth2, Hoth1).
  fold ok_glob.
  exists r3. split; [by destruct ok_glob|].
  split; [by rewrite Hoth3, Hoth2, Hip1|].
  split; [by rewrite Hoth3, Hsub2|].
  split; [exact Hglob3|].
  split; [|split; congruence].
  intros key Hk1 Hk2 Hk3. by rewrite Hoth3, Hoth2, Hoth1.
Qed.

(** [allow_with_count] makes the calls of [allow] and reads the per-IP
    count from the store they leave. *)
Lemma allow_with_count_allow cfg now uuid8 ip client :
  RateLimiter.allow_with_count cfg now uuid8 ip client
  = ((RateLimiter.allow cfg now uuid8 ip client).1,
     RateLimiter._get_count ("rl:ip:" +:+ ip) (now - inject_Z RateLimiter.WINDOW_SEC)
       (RateLimiter.allow cfg now uuid8 ip client).2,
     (RateLimiter.allow cfg now uuid8 ip client).2).
Proof.
  unfold RateLimiter.allow_with_count, RateLimiter.allow.
  destruct client as [r|]; [|reflexivity].
  destruct (RateLimiter._check_key _ _ _ _ (rate_limit_per_ip cfg) _) as [[] c1];
    cbn [negb]; [|reflexivity].
  destruct (RateLimiter._check_key _ _ _ _ (rate_limit_per_subnet cfg) _) as [[] c2];
    cbn [negb]; [|reflexivity].
  by destruct (RateLimiter._check_key _ _ _ _ (rate_limit_global cfg) _) as [[] c3].
Qed.

(** X4.  [allow_with_count] decides as [allow] does and leaves the same
    store.  The count it returns is the size of the per-IP window after
    the call, the new request included, whether the request was allowed
    or not: it is at least 1, at most the per-IP limit when the request
    was allowed, and it is what [get_ip_count] reads at that moment. *)
Theorem allow_with_count_agrees (cfg : Settings) (now : Q) (uuid8 ip : string) (r : Redis.t) :
  let count :=
    Z.of_nat (size (after_check ("rl:ip:" +:+ ip) now (now - inject_Z RateLimiter.WINDOW_SEC)
                      (RateLimiter.member_of now uuid8) r)) in
  let answer := RateLimiter.allow cfg now uuid8 ip (Some r) in
  RateLimiter.allow_with_count cfg now uuid8 ip (Some r) = (answer.1, count, answer.2)
  ∧ RateLimiter.get_ip_count now ip answer.2 = count
  ∧ (1 <= count)%Z
  ∧ (answer.1 = true → (count <= rate_limit_per_ip cfg)%Z).
Proof.
  intros count answer. rewrite allow_with_count_allow. fold answer.
  destruct (allow_spec cfg now uuid8 ip r) as (r' & Hallow & Hip & _).
  unfold answer. rewrite Hallow. cbn [fst snd RateLimiter.get_ip_count RateLimiter._get_count].
  assert (Hc : Redis.zcount ("rl:ip:" +:+ ip) (now - inject_Z RateLimiter.WINDOW_SEC) r' = count).
  { apply zcount_after_check; [|exact Hip]. apply window_start_le. by vm_compute. }
  rewrite Hc. split; [reflexivity|]. split; [reflexivity|].
  split; [apply after_check_size_pos|].
  intros Hok. apply andb_true_iff in Hok as [Hok _]. apply andb_true_iff in Hok as [Hok _].
  by apply Z.leb_le in Hok.
Qed.

(** X5.  [allow] on the store before the call: the answer is the
    conjunction of the three tests, each on the window trimmed and
    extended by this request.  The request is always recorded in the
    per-IP window; in the subnet window only when the per-IP test
    passed; in the global window only when both passed.  No other sorted
    set changes. *)
Theorem allow_layers (cfg : Settings) (now : Q) (uuid8 ip : string) (r : Redis.t) :
  let ws := (now - inject_Z RateLimiter.WINDOW_SEC)%Q in
  let m := RateLimiter.member_of now uuid8 in
  let ipk := "rl:ip:" +:+ ip in
  let subk := "rl:sub:" +:+ RateLimiter._ip_to_subnet ip in
  let ok_ip := (Z.of_nat (size (after_check ipk now ws m r)) <=? rate_limit_per_ip cfg)%Z in
  let ok_sub := (Z.of_nat (size (after_check subk now ws m r)) <=? rate_limit_per_subnet cfg)%Z in
  let ok_glob :=
    (Z.of_nat (size (after_check "rl:global" now ws m r)) <=? rate_limit_global cfg)%Z in
  ∃ r',
    RateLimiter.allow cfg now uuid8 ip (Some r) = (ok_ip && ok_sub && ok_glob, Some r')
    ∧ Redis.zset_of ipk r' = after_check ipk now ws m r
    ∧ Redis.zset_of subk r'
      = (if ok_ip then after_check subk now ws m r else Redis.zset_of subk r)
    ∧ Redis.zset_of "rl:global" r'
      = (if ok_ip && ok_sub then after_check "rl:global" now ws m r
         else Redis.zset_of "rl:global" r)
    ∧ (∀ key, key ≠ ipk → key ≠ subk → key ≠ "rl:global" →
         Redis.zset_of key r' = Redis.zset_of key r).
Proof.
  intros ws m ipk subk ok_ip ok_sub ok_glob.
  destruct (allow_spec cfg now uuid8 ip r) as (r' & Hallow & Hip & Hsub & Hglob & Hoth & _).
  exists r'. repeat split; assumption.
Qed.

End RateLimiterLayers.

(* --------------------------------------------------------------------- *)
(** ** The rate limiter and the blocker do not touch each other's keys   *)
(* --------------------------------------------------------------------- *)

Section Independence.
Context `{Platform}.

Lemma is_blocked_ext ip r r' :
  Redis.sets r' = Redis.sets r → Redis.strs r' = Redis.strs r →
  IPBlocker.is_blocked ip (Some r') = IPBlocker.is_blocked ip (Some r).
Proof.
  intros Hsets Hstrs.
  unfold IPBlocker.is_blocked, Redis.sismember, Redis.exists_, Redis.set_of.
  by rewrite Hsets, Hstrs.
Qed.

Lemma check_rule_limit_effect now uuid8 ip rule_name limit window_sec r :
  let key := "rl:rule:" +:+ rule_name +:+ ":" +:+ ip in
  ∃ answer r',
    RateLimiter.check_rule_limit now uuid8 ip rule_name limit window_sec (Some r)
      = (answer, Some r')
    ∧ (∀ key', key ≠ key' → Redis.zset_of key' r' = Redis.zset_of key' r)
    ∧ Redis.sets r' = Redis.sets r
    ∧ Redis.strs r' = Redis.strs r.
Proof.
  intros key. unfold RateLimiter.check_rule_limit. fold key.
  destruct (execute_window key now (now - inject_Z window_sec)
              (RateLimiter.member_of now uuid8) (window_sec + 10) r)
    as (removed & added & r' & -> & _ & Hoth & Hsets & Hstrs).
  by eexists _, r'.
Qed.

Lemma run_op_zsets op r :
  ∃ r', run_op op (Some r) = Some r' ∧ Redis.zsets r' = Redis.zsets r.
Proof.
  destruct op as [ip reason [d|] | ip | ip];
    cbn [run_op IPBlocker.block IPBlocker.unblock IPBlocker.allow];
    try destruct (d =? 0)%Z; try destruct (Redis.valid_ex d); by eexists.
Qed.

(** X6.  No call of the rate limiter changes what the blocker answers:
    after [allow], [allow_with_count] or [check_rule_limit], for any
    address, [is_blocked] and the list of permanent blocks are as before.
    And no block, unblock or allow-list entry changes a count of the rate
    limiter. *)
Theorem limiter_and_blocker_are_independent (cfg : Settings) (now : Q)
    (uuid8 ip rule_name : string) (limit window_sec : Z) (client : option Redis.t) :
  (∀ c, c = (RateLimiter.allow cfg now uuid8 ip client).2
        ∨ c = (RateLimiter.allow_with_count cfg now uuid8 ip client).2
        ∨ c = (RateLimiter.check_rule_limit now uuid8 ip rule_name limit window_sec client).2 →
        (∀ ip', IPBlocker.is_blocked ip' c = IPBlocker.is_blocked ip' client)
        ∧ IPBlocker.get_blocked_ips c = IPBlocker.get_blocked_ips client)
  ∧ (∀ op t ip', RateLimiter.get_ip_count t ip' (run_op op client)
                 = RateLimiter.get_ip_count t ip' client).
Proof.
  split.
  - assert (Hkeep : ∀ r r', Redis.sets r' = Redis.sets r → Redis.strs r' = Redis.strs r →
              (∀ ip', IPBlocker.is_blocked ip' (Some r') = IPBlocker.is_blocked ip' (Some r))
              ∧ IPBlocker.get_blocked_ips (Some r') = IPBlocker.get_blocked_ips (Some r)).
    { intros r r' Hsets Hstrs. split; [intros ip'; by apply is_blocked_ext|].
      unfold IPBlocker.get_blocked_ips, Redis.set_of. by rewrite Hsets. }
    intros c Hc. rewrite allow_with_count_allow in Hc. cbn [snd] in Hc.
    destruct client as [r|].
    2:{ destruct Hc as [-> | [-> | ->]]; by split. }
    destruct (allow_spec cfg now uuid8 ip r) as (r1 & Hallow & _ & _ & _ & _ & Hs1 & Ht1).
    destruct (check_rule_limit_effect now uuid8 ip rule_name limit window_sec r)
      as (answer & r2 & Hrule & _ & Hs2 & Ht2).
    rewrite Hallow, Hrule in Hc. cbn [snd] in Hc.
    destruct Hc as [-> | [-> | ->]]; by apply Hkeep.
  - intros op t ip'. destruct client as [r|].
    + destruct (run_op_zsets op r) as (r' & -> & Hz).
      cbn [RateLimiter.get_ip_count RateLimiter._get_count].
      unfold Redis.zcount, Redis.zset_of. by rewrite Hz.
    + by destruct op as [? ? [d|] | ? | ?].
Qed.

End Independence.

(* --------------------------------------------------------------------- *)
(** ** The windows of the rules                                          *)
(* --------------------------------------------------------------------- *)

Section RuleWindows.
Context `{Platform}.

Lemma append_cons x (a b : string) : String x a +:+ b = String x (a +:+ b).
Proof. reflexivity. Qed.

Lemma append_empty (b : string) : EmptyString +:+ b = b.
Proof. reflexivity. Qed.

Lemma colon_split_inj a a' b b' :
  free_of ":" a = true → free_of ":" a' = true →
  a +:+ ":" +:+ b = a' +:+ ":" +:+ b' → a = a' ∧ b = b'.
Proof.
  revert a'. induction a as [|x a IH]; intros [|x' a'] Ha Ha' E;
    rewrite ?append_cons, ?append_empty in E.
  - by injection E as ->.
  - injection E as <- _. by cbn in Ha'.
  - injection E as -> _. by cbn in Ha.
  - injection E as -> E.
    unfold free_of in Ha, Ha'. cbn in Ha, Ha'.
    apply andb_true_iff in Ha as [_ Ha]. apply andb_true_iff in Ha' as [_ Ha'].
    destruct (IH a' Ha Ha' E) as [-> ->]. done.
Qed.

Lemma rule_key_inj name name' ip ip' :
  free_of ":" name = true → free_of ":" name' = true →
  "rl:rule:" +:+ name +:+ ":" +:+ ip = "rl:rule:" +:+ name' +:+ ":" +:+ ip' →
  name = name' ∧ ip = ip'.
Proof.
  intros Hn Hn' E. rewrite !append_cons, !append_empty in E.
  injection E as E. by apply colon_split_inj in E.
Qed.

(** X7.  When rule names hold no colon, every pair of a rule and an
    address has a window of its own: a call of [check_rule_limit] for one
    pair leaves the window of every other pair as it was.  It also
    leaves the per-IP, subnet and global windows of [allow] as they
    were, whatever the names. *)
Theorem rule_windows_are_separate (now : Q) (uuid8 ip ip' name name' : string)
    (limit window_sec : Z) (r : Redis.t) :
  free_of ":" name = true → free_of ":" name' = true →
  name ≠ name' ∨ ip ≠ ip' →
  ∃ answer r',
    RateLimiter.check_rule_limit now uuid8 ip name limit window_sec (Some r)
      = (answer, Some r')
    ∧ Redis.zset_of ("rl:rule:" +:+ name' +:+ ":" +:+ ip') r'
      = Redis.zset_of ("rl:rule:" +:+ name' +:+ ":" +:+ ip') r
    ∧ (∀ a, Redis.zset_of ("rl:ip:" +:+ a) r' = Redis.zset_of ("rl:ip:" +:+ a) r
            ∧ Redis.zset_of ("rl:sub:" +:+ a) r' = Redis.zset_of ("rl:sub:" +:+ a) r)
    ∧ Redis.zset_of "rl:global" r' = Redis.zset_of "rl:global" r.
Proof.
  intros Hn Hn' Hne.
  destruct (check_rule_limit_effect now uuid8 ip name limit window_sec r)
    as (answer & r' & Hrule & Hoth & _).
  exists answer, r'. split; [exact Hrule|].
  split; [|split; [intros a; split|]]; apply Hoth; try (cbn; discriminate).
  intros E. apply rule_key_inj in E as [-> ->]; [|done..]. by destruct Hne.
Qed.

(** X8.  The key of a rule's window is the rule name and the address
    joined by a colon, so a rule whose name ends in [:x] counts the
    address [ip] in the window in which the rule without that ending
    counts the address [x:ip]. *)
Theorem rule_windows_alias (now : Q) (uuid8 ip name x : string) (limit window_sec : Z)
    (client : option Redis.t) :
  RateLimiter.check_rule_limit now uuid8 ip (name +:+ ":" +:+ x) limit window_sec client
  = RateLimiter.check_rule_limit now uuid8 (x +:+ ":" +:+ ip) name limit window_sec client.
Proof.
  unfold RateLimiter.check_rule_limit. destruct client as [r|]; [|reflexivity].
  by rewrite !append_assoc.
Qed.

End RuleWindows.

Lemma rule_windows_are_separate_witness :
  ∃ answer r',
    @RateLimiter.check_rule_limit Example.platform 1000 "00000001" "203.0.113.9" "login" 5 60
      (Some Redis.empty) = (answer, Some r')
    ∧ Redis.zset_of "rl:rule:signin:203.0.113.9" r' = ∅.
Proof.
  destruct (@rule_windows_are_separate Example.platform 1000 "00000001" "203.0.113.9"
              "203.0.113.9" "login" "signin" 5 60 Redis.empty)
    as (answer & r' & Hrule & Hother & _).
  - reflexivity.
  - reflexivity.
  - left. discriminate.
  - exists answer, r'. split; [exact Hrule | exact Hother].
Defined.

(* --------------------------------------------------------------------- *)
(** ** Decimal strings: [int(str(n))]                                    *)
(* --------------------------------------------------------------------- *)

Section DecimalRoundTrip.

Lemma all_digits_of_uint d : all_digits (NilEmpty.string_of_uint d) = true.
Proof.
  unfold all_digits.
  induction d; cbn [NilEmpty.string_of_uint list_ascii_of_string forallb];
    [reflexivity | rewrite IHd; vm_compute; reflexivity ..].
Qed.

Lemma decimal_from_pos d : ∀ p,
  decimal_from (Z.pos p) (NilEmpty.string_of_uint d) = Z.pos (Pos.of_uint_acc d p).
Proof.
  induction d; intros p; cbn [NilEmpty.string_of_uint decimal_from Pos.of_uint_acc];
    [reflexivity | rewrite <- IHd; f_equal ..].
  all: match goal with
       | |- context [PyStr.digit_val ?c] =>
           let v := eval vm_compute in (PyStr.digit_val c) in
           change (PyStr.digit_val c) with v
       end; cbn [from_option id]; lia.
Qed.

Lemma decimal_of_uint d : decimal (NilEmpty.string_of_uint d) = Z.of_N (Pos.of_uint d).
Proof.
  unfold decimal.
  induction d; cbn [NilEmpty.string_of_uint decimal_from Pos.of_uint];
    [reflexivity | exact IHd | apply decimal_from_pos ..].
Qed.

Lemma string_of_pos p :
  NilZero.string_of_uint (Pos.to_uint p) = NilEmpty.string_of_uint (Pos.to_uint p)
  ∧ NilEmpty.string_of_uint (Pos.to_uint p) ≠ EmptyString
  ∧ decimal (NilEmpty.string_of_uint (Pos.to_uint p)) = Z.pos p.
Proof.
  pose proof (DecimalPos.Unsigned.to_uint_nonnil p) as Hnil.
  split; [by destruct (Pos.to_uint p)|].
  split; [by destruct (Pos.to_uint p)|].
  by rewrite decimal_of_uint, DecimalPos.Unsigned.of_to.
Qed.

Lemma digit_val_range a :
  (0 <= default 0 (PyStr.digit_val a) <= 9)%Z
  ∧ (PyStr.is_digit a = true → a ≠ "0"%char → 1 <= default 0 (PyStr.digit_val a))%Z.
Proof.
  destruct a as [[] [] [] [] [] [] [] []]; vm_compute; repeat split; congruence.
Qed.

Lemma decimal_from_shift s : ∀ acc,
  decimal_from acc s = (acc * 10 ^ Z.of_nat (String.length s) + decimal s)%Z.
Proof.
  unfold decimal.
  induction s as [|a s IH]; intros acc; cbn [decimal_from String.length].
  - change (Z.of_nat 0) with 0%Z. lia.
  - rewrite (IH (10 * acc + _)%Z), (IH (10 * 0 + _)%Z).
    rewrite Nat2Z.inj_succ, Z.pow_succ_r by lia. ring.
Qed.

Lemma decimal_range s : (0 <= decimal s < 10 ^ Z.of_nat (String.length s))%Z.
Proof.
  induction s as [|a s IH]; [by cbn|].
  unfold decimal at 1 2. cbn [decimal_from String.length].
  rewrite decimal_from_shift.
  destruct (digit_val_range a) as [Ha _].
  rewrite Nat2Z.inj_succ, Z.pow_succ_r by lia.
  set (P := (10 ^ Z.of_nat (String.length s))%Z) in *.
  set (v := default 0%Z (PyStr.digit_val a)) in *.
  set (d := decimal s) in *.
  assert (0 <= v * P)%Z by (apply Z.mul_nonneg_nonneg; lia).
  assert (v * P <= 9 * P)%Z by (apply Z.mul_le_mono_nonneg_r; lia).
  lia.
Qed.

Lemma decimal_lower a s :
  PyStr.is_digit a = true → a ≠ "0"%char →
  (10 ^ Z.of_nat (String.length s) <= decimal (String a s))%Z.
Proof.
  intros Hd Hnz. unfold decimal at 1. cbn [decimal_from]. rewrite decimal_from_shift.
  destruct (digit_val_range a) as [_ Ha]. specialize (Ha Hd Hnz).
  pose proof (decimal_range s) as Hs.
  set (P := (10 ^ Z.of_nat (String.length s))%Z) in *.
  set (v := default 0%Z (PyStr.digit_val a)) in *.
  set (d := decimal s) in *.
  assert (1 * P <= v * P)%Z by (apply Z.mul_le_mono_nonneg_r; lia).
  lia.
Qed.

(** The decimal text of a positive number starts with a digit other
    than 0. *)
Lemma to_uint_head p :
  ∃ c rest, NilEmpty.string_of_uint (Pos.to_uint p) = String c rest
            ∧ PyStr.is_digit c = true ∧ c ≠ "0"%char.
Proof.
  assert (Hn : Pos.to_uint p = Decimal.unorm (Pos.to_uint p)).
  { pose proof (DecimalPos.Unsigned.to_of (Pos.to_uint p)) as Hto.
    rewrite DecimalPos.Unsigned.of_to in Hto. exact Hto. }
  assert (Hz : Decimal.nzhead (Pos.to_uint p) ≠ Decimal.Nil).
  { intros E. apply DecimalFacts.unorm_0 in E. rewrite <- Hn in E.
    by apply (DecimalPos.Unsigned.to_uint_nonzero p). }
  rewrite (DecimalFacts.unorm_nzhead _ Hz) in Hn.
  pose proof (DecimalFacts.nzhead_nonzero (Pos.to_uint p)) as Hnz. rewrite <- Hn in Hnz.
  destruct (Pos.to_uint p) as [|u|u|u|u|u|u|u|u|u|u] eqn:E;
    [done | exfalso; by apply (Hnz u) | ..];
    cbn [NilEmpty.string_of_uint]; eexists _, _; (split; [reflexivity|]); split;
    (reflexivity || discriminate).
Qed.

(** A positive number has at most 4300 digits exactly when it is below
    [10^4300]. *)
Lemma str_of_pos_length p :
  (PyStr.MAX_STR_DIGITS
     <? Z.of_nat (String.length (NilEmpty.string_of_uint (Pos.to_uint p))))%Z
  = (10 ^ PyStr.MAX_STR_DIGITS <=? Z.pos p)%Z.
Proof.
  destruct (string_of_pos p) as (_ & _ & Hval).
  destruct (to_uint_head p) as (c & rest & E & Hc & Hnz).
  pose proof (decimal_range (NilEmpty.string_of_uint (Pos.to_uint p))) as Hup.
  pose proof (decimal_lower c rest Hc Hnz) as Hlow.
  rewrite <- E, Hval in Hlow. rewrite Hval in Hup. rewrite E in Hup |- *.
  cbn [String.length] in *. rewrite Nat2Z.inj_succ in *.
  set (n := Z.of_nat (String.length rest)) in *.
  assert (Hn : (0 <= n)%Z) by (unfold n; lia).
  set (M := PyStr.MAX_STR_DIGITS) in *.
  assert (HM : (0 <= M)%Z) by (unfold M; discriminate).
  clearbody n M.
  destruct (Z.ltb_spec M (Z.succ n)) as [Hlt|Hge];
    destruct (Z.leb_spec (10 ^ M) (Z.pos p)) as [Hbig|Hsmall]; try reflexivity; exfalso.
  - assert (10 ^ M <= 10 ^ n)%Z by (apply Z.pow_le_mono_r; lia). lia.
  - assert (10 ^ Z.succ n <= 10 ^ M)%Z by (apply Z.pow_le_mono_r; lia). lia.
Qed.

(** [int(str(n)) == n], as far as [int] reads that many digits. *)
Lemma int_str_of_int n :
  PyStr.int (PyStr.str_of_int n)
  = if (10 ^ PyStr.MAX_STR_DIGITS <=? Z.abs n)%Z then None else Some n.
Proof.
  destruct n as [|p|p]; [reflexivity|..]; unfold PyStr.str_of_int;
    cbn [Z.to_int NilZero.string_of_int];
    [change (Z.abs (Z.pos p)) with (Z.pos p) | change (Z.abs (Z.neg p)) with (Z.pos p)];
    rewrite <- (str_of_pos_length p);
    destruct (string_of_pos p) as (-> & Hne & Hval);
    pose proof (all_digits_of_uint (Pos.to_uint p)) as Hall.
  - rewrite int_of_digits by done. by rewrite Hval.
  - unfold PyStr.int. rewrite int_strip_id.
    + rewrite int_digits_all_digits by (done || by left).
      fold (decimal (NilEmpty.string_of_uint (Pos.to_uint p))).
      rewrite Hval, (count_digits_all _ Hall). reflexivity.
    + cbn [list_ascii_of_string forallb]. by rewrite digits_no_space.
Qed.

Lemma str_of_int_colon_free n : free_of ":" (PyStr.str_of_int n) = true.
Proof.
  destruct n as [|p|p]; [reflexivity|..]; unfold PyStr.str_of_int;
    cbn [Z.to_int NilZero.string_of_int];
    destruct (string_of_pos p) as (-> & _ & _);
    pose proof (all_digits_of_uint (Pos.to_uint p)) as Hall.
  - by apply digits_free_of.
  - unfold free_of. cbn [list_ascii_of_string forallb].
    fold (free_of ":" (NilEmpty.string_of_uint (Pos.to_uint p))).
    by rewrite digits_free_of.
Qed.

End DecimalRoundTrip.

(* --------------------------------------------------------------------- *)
(** ** A challenge from issue to acceptance                              *)
(* --------------------------------------------------------------------- *)

Section ChallengeRoundTrip.
Context `{Platform}.

Lemma split_token p1 p2 p3 p4 p5 :
  free_of ":" p1 = true → free_of ":" p2 = true → free_of ":" p3 = true →
  free_of ":" p4 = true → free_of ":" p5 = true →
  PyStr.split ":" (p1 +:+ ":" +:+ p2 +:+ ":" +:+ p3 +:+ ":" +:+ p4 +:+ ":" +:+ p5)
  = [p1; p2; p3; p4; p5].
Proof. exact (split_join5 ":" p1 p2 p3 p4 p5). Qed.

Lemma float_range_is_readable t :
  (Z.abs t <? PyFloat.OVERFLOW)%Z = true →
  (10 ^ PyStr.MAX_STR_DIGITS <=? Z.abs t)%Z = false.
Proof.
  intros Hrange. apply Z.ltb_lt in Hrange. apply Z.leb_gt.
  assert (Hle : (PyFloat.OVERFLOW <= 10 ^ PyStr.MAX_STR_DIGITS)%Z)
    by (apply Z.leb_le; vm_compute; reflexivity).
  lia.
Qed.

(** What [_verify_token] answers for a token of [_generate_challenge]
    with a proof-of-work nonce appended. *)
Lemma verify_issued secret issued now nonce ip ip' pow_nonce :
  let token := ChallengeManager._generate_challenge secret issued nonce ip in
  free_of ":" ip = true → free_of ":" nonce = true → free_of ":" pow_nonce = true →
  free_of ":" (hmac_sha256_hexdigest secret
                 (ip +:+ ":" +:+ nonce +:+ ":" +:+ PyStr.str_of_int (PyStr.int_of_float issued)))
    = true →
  ChallengeManager._verify_token secret now (token +:+ ":" +:+ pow_nonce) ip'
  = String.eqb ip ip'
    && (Z.abs (PyStr.int_of_float issued) <? PyFloat.OVERFLOW)%Z
    && Qle_bool (now - inject_Z (PyStr.int_of_float issued)) 3600
    && PyStr.startswith (sha256_hexdigest (token +:+ ":" +:+ pow_nonce)) "00".
Proof.
  intros token Hip Hnonce Hpow Hsig. unfold token, ChallengeManager._generate_challenge.
  cbv zeta. set (ts := PyStr.str_of_int (PyStr.int_of_float issued)) in *.
  set (sig := hmac_sha256_hexdigest secret (ip +:+ ":" +:+ nonce +:+ ":" +:+ ts)) in *.
  rewrite !append_assoc. unfold ChallengeManager._verify_token.
  rewrite split_token by (done || apply str_of_int_colon_free).
  destruct (String.eqb ip ip'); cbn [negb andb]; [|reflexivity].
  unfold ts at 1. rewrite int_str_of_int. fold ts. unfold PyFloat.of_int.
  destruct (Z.abs (PyStr.int_of_float issued) <? PyFloat.OVERFLOW)%Z eqn:Erange.
  2:{ destruct (10 ^ PyStr.MAX_STR_DIGITS <=? _)%Z; [reflexivity | by rewrite Erange]. }
  rewrite (float_range_is_readable _ Erange), Erange. cbn [andb].
  change (inject_Z ChallengeManager.CHALLENGE_TTL) with 3600%Q.
  destruct (Qle_bool (now - inject_Z (PyStr.int_of_float issued)) 3600);
    cbn [negb andb]; [|reflexivity].
  fold sig. rewrite String.eqb_refl. cbn [negb]. by rewrite !append_assoc.
Qed.

(** X9.  A token issued by [_generate_challenge] for an address without
    colons, completed with a proof-of-work nonce for which the SHA-256
    digest begins with [00], is accepted for that address as long as the
    time since the issue time, truncated to a whole second, is at most
    3600 seconds: [maybe_challenge] then lets a request with this cookie
    through.  After that time it is refused, and for any other address
    it is refused at any time.  (The issue time is a float; a rational
    beyond the range of floats would be refused as a time stamp.) *)
Theorem issued_token_round_trip (secret : string) (issued now : Q)
    (nonce ip pow_nonce : string) :
  let token := ChallengeManager._generate_challenge secret issued nonce ip in
  let cookie := token +:+ ":" +:+ pow_nonce in
  let is_float := (Z.abs (PyStr.int_of_float issued) <? PyFloat.OVERFLOW)%Z in
  free_of ":" ip = true → free_of ":" nonce = true → free_of ":" pow_nonce = true →
  free_of ":" (hmac_sha256_hexdigest secret
                 (ip +:+ ":" +:+ nonce +:+ ":" +:+ PyStr.str_of_int (PyStr.int_of_float issued)))
    = true →
  PyStr.startswith (sha256_hexdigest cookie) "00" = true →
  ChallengeManager._verify_token secret now cookie ip
    = is_float && Qle_bool (now - inject_Z (PyStr.int_of_float issued)) 3600
  ∧ (∀ ip', ip' ≠ ip → ChallengeManager._verify_token secret now cookie ip' = false)
  ∧ (∀ nonce' request,
       is_float = true →
       (now - inject_Z (PyStr.int_of_float issued) <= 3600)%Q →
       Http.get_first ChallengeManager.CHALLENGE_COOKIE (Http.cookies request) = Some cookie →
       ChallengeManager.maybe_challenge secret now nonce' request ip = None).
Proof.
  intros token cookie is_float Hip Hnonce Hpow Hsig Hwork.
  assert (Hv : ∀ ip', ChallengeManager._verify_token secret now cookie ip'
                      = String.eqb ip ip' && is_float
                        && Qle_bool (now - inject_Z (PyStr.int_of_float issued)) 3600).
  { intros ip'. unfold cookie, token. rewrite verify_issued by done.
    fold token. fold cookie. by rewrite Hwork, andb_true_r. }
  split; [by rewrite Hv, String.eqb_refl|].
  split.
  - intros ip' Hne. rewrite Hv. destruct (String.eqb_spec ip ip'); [congruence | reflexivity].
  - intros nonce' request Hfloat Httl Hcookie. unfold ChallengeManager.maybe_challenge.
    rewrite Hcookie. change (default EmptyString (Some cookie)) with cookie.
    rewrite Hv, String.eqb_refl, Hfloat. apply Qle_bool_iff in Httl. rewrite Httl.
    assert (Hne : truthy (Some cookie) = true).
    { unfold cookie, token, ChallengeManager._generate_challenge. cbv zeta.
      rewrite !append_assoc. destruct ip; [|reflexivity].
      rewrite append_empty. reflexivity. }
    by rewrite Hne.
Qed.

End ChallengeRoundTrip.

Lemma issued_token_round_trip_witness :
  @ChallengeManager._verify_token Example.platform "change-me-in-production" 1700000100
    (@ChallengeManager._generate_challenge Example.platform "change-me-in-production"
       1700000000.25 "000102030405060708090a0b0c0d0e0f" "203.0.113.9" +:+ ":" +:+ "699")
    "203.0.113.9"
  = (Z.abs (PyStr.int_of_float 1700000000.25) <? PyFloat.OVERFLOW)%Z
    && Qle_bool (1700000100 - inject_Z (PyStr.int_of_float 1700000000.25)) 3600.
Proof.
  refine (proj1 (@issued_token_round_trip Example.platform "change-me-in-production"
                   1700000000.25 1700000100 "000102030405060708090a0b0c0d0e0f"
                   "203.0.113.9" "699" _ _ _ _ _)); vm_compute; reflexivity.
Defined.

(* --------------------------------------------------------------------- *)
(** ** Ends of strings                                                   *)
(* --------------------------------------------------------------------- *)

Section StringEnds.

Lemma list_of_append s t :
  list_ascii_of_string (s +:+ t) = list_ascii_of_string s ++ list_ascii_of_string t.
Proof.
  induction s as [|a s IH]; [reflexivity|].
  rewrite append_cons. cbn [list_ascii_of_string app]. by rewrite IH.
Qed.

Lemma string_of_app l1 l2 :
  string_of_list_ascii (l1 ++ l2) = string_of_list_ascii l1 +:+ string_of_list_ascii l2.
Proof.
  induction l1 as [|a l1 IH]; [reflexivity|].
  cbn [app string_of_list_ascii]. by rewrite append_cons, IH.
Qed.

Lemma rev_string_snoc s c :
  PyStr.rev_string (s +:+ String c EmptyString) = String c (PyStr.rev_string s).
Proof.
  unfold PyStr.rev_string. rewrite list_of_append. cbn [list_ascii_of_string].
  by rewrite List.rev_app_distr.
Qed.

Lemma rev_string_cons c s :
  PyStr.rev_string (String c s) = PyStr.rev_string s +:+ String c EmptyString.
Proof.
  unfold PyStr.rev_string. cbn [list_ascii_of_string List.rev].
  by rewrite string_of_app.
Qed.

Lemma prefix_char d c s :
  String.prefix (String d EmptyString) (String c s) = Ascii.eqb d c.
Proof.
  cbn [String.prefix]. destruct (ascii_dec d c) as [->|Hne].
  - rewrite Ascii.eqb_refl. by destruct s.
  - symmetry. by apply Ascii.eqb_neq.
Qed.

(** [(s + c).endswith(d)] for single characters [c] and [d]. *)
Lemma endswith_snoc s c d :
  PyStr.endswith (s +:+ String c EmptyString) (String d EmptyString) = Ascii.eqb d c.
Proof.
  unfold PyStr.endswith. rewrite rev_string_snoc.
  change (PyStr.rev_string (String d EmptyString)) with (String d EmptyString).
  apply prefix_char.
Qed.

Lemma endswith_char_inv s d :
  PyStr.endswith s (String d EmptyString) = true → ∃ q, s = q +:+ String d EmptyString.
Proof.
  unfold PyStr.endswith.
  change (PyStr.rev_string (String d EmptyString)) with (String d EmptyString).
  intros Hp. destruct (PyStr.rev_string s) as [|c t] eqn:E; [discriminate|].
  rewrite prefix_char in Hp. apply Ascii.eqb_eq in Hp as ->.
  exists (PyStr.rev_string t).
  by rewrite <- (rev_string_involutive s), E, rev_string_cons.
Qed.

(** [(s + c)[:-1]]. *)
Lemma drop_last_snoc s c : PyStr.drop_last (s +:+ String c EmptyString) = s.
Proof.
  unfold PyStr.drop_last. rewrite list_of_append. cbn [list_ascii_of_string].
  by rewrite List.removelast_last, string_of_list_ascii_of_string.
Qed.

Lemma prefix_iff p s : String.prefix p s = true ↔ ∃ rest, s = p +:+ rest.
Proof.
  revert s. induction p as [|a p IH]; intros s.
  - split; [intros _; by exists s | intros _; by destruct s].
  - destruct s as [|b s]; cbn [String.prefix].
    + split; [discriminate | intros [rest E]; by rewrite append_cons in E].
    + destruct (ascii_dec a b) as [->|Hne].
      * rewrite IH. split; intros [rest E]; exists rest.
        -- by rewrite append_cons, E.
        -- rewrite append_cons in E. by injection E.
      * split; [discriminate|]. intros [rest E]. rewrite append_cons in E.
        injection E as E _. congruence.
Qed.

End StringEnds.

(* --------------------------------------------------------------------- *)
(** ** Which rules a request matches                                     *)
(* --------------------------------------------------------------------- *)

Section RuleMatching.
Import RulesEngine.

(** X10.  [_path_matches]: a rule path that ends in a star matches the
    request paths that begin with what stands before that last star; any
    other rule path matches the equal request path only. *)
Theorem path_matches_spec (request_path rule_path : string) :
  _path_matches request_path rule_path = true
  ↔ (∃ q rest, rule_path = q +:+ "*" ∧ request_path = q +:+ rest)
    ∨ ((∀ q, rule_path ≠ q +:+ "*") ∧ request_path = rule_path).
Proof.
  unfold _path_matches.
  destruct (PyStr.endswith rule_path "*") eqn:E.
  - apply endswith_char_inv in E as [q ->]. rewrite drop_last_snoc.
    unfold PyStr.startswith. rewrite prefix_iff. split.
    + intros [rest ->]. left. by exists q, rest.
    + intros [(q' & rest & Hq & ->) | [Hno _]]; [|by destruct (Hno q)].
      apply (f_equal PyStr.drop_last) in Hq. rewrite !drop_last_snoc in Hq. subst q'.
      by exists rest.
  - assert (Hno : ∀ q, rule_path ≠ q +:+ "*").
    { intros q ->. by rewrite endswith_snoc in E. }
    rewrite String.eqb_eq. split.
    + intros ->. by right.
    + intros [(q & _ & Hq & _) | [_ ->]]; [by destruct (Hno q) | reflexivity].
Qed.

Lemma upper_ascii_idem a :
  PyStr.upper_ascii (PyStr.upper_ascii a) = PyStr.upper_ascii a
  ∧ PyStr.upper_ascii (PyStr.lower_ascii a) = PyStr.upper_ascii a.
Proof. destruct a as [[] [] [] [] [] [] [] []]; vm_compute; by split. Qed.

Lemma upper_idem s :
  PyStr.upper (PyStr.upper s) = PyStr.upper s ∧ PyStr.upper (PyStr.lower s) = PyStr.upper s.
Proof.
  unfold PyStr.upper, PyStr.lower.
  induction s as [|a s [IH1 IH2]]; [by split|]. cbn [PyStr.map_string].
  destruct (upper_ascii_idem a) as [-> ->]. by rewrite IH1, IH2.
Qed.

Lemma truthy_spec o : truthy o = true ↔ ∃ s, o = Some s ∧ s ≠ EmptyString.
Proof.
  destruct o as [[|a s]|]; cbn; split; try discriminate; try (intros (s' & E & Hne); congruence).
  intros _. by eexists.
Qed.

(** X11.  [match_request] returns, in the order of the rule list, the
    enabled rules whose path and method tests pass.  A missing or empty
    [match_path] passes for every path and a missing or empty
    [match_method] for every method; methods are compared without regard
    to the case of ASCII letters, so the method in upper or lower case
    selects the same rules. *)
Theorem match_request_spec (rules : list Rule) (path method : string) :
  (∀ rule, In rule (match_request rules path method)
     ↔ In rule rules
       ∧ enabled rule = true
       ∧ (match_path rule = None ∨ match_path rule = Some EmptyString
          ∨ ∃ rp, match_path rule = Some rp ∧ _path_matches path rp = true)
       ∧ (match_method rule = None ∨ match_method rule = Some EmptyString
          ∨ ∃ m, match_method rule = Some m ∧ PyStr.upper m = PyStr.upper method))
  ∧ match_request rules path (PyStr.upper method) = match_request rules path method
  ∧ match_request rules path (PyStr.lower method) = match_request rules path method
  ∧ (∀ rules', match_request (rules ++ rules') path method
               = match_request rules path method ++ match_request rules' path method).
Proof.
  split; [|split; [|split]].
  - intros rule. unfold match_request. rewrite filter_In. unfold rule_matches.
    rewrite !andb_true_iff, !negb_true_iff, !andb_false_iff, !negb_false_iff.
    rewrite String.eqb_eq.
    assert (Hfalse : ∀ o, truthy o = false ↔ o = None ∨ o = Some EmptyString).
    { intros [[|a s]|]; cbn; split; try discriminate; try tauto; try (by right); try (by left).
      intros [|]; discriminate. }
    rewrite !Hfalse. split.
    + intros (Hin & (Hen & Hp) & Hm). split; [exact Hin|]. split; [exact Hen|]. split.
      * destruct Hp as [[?|?]|Hp]; [tauto | tauto |].
        destruct (match_path rule) as [rp|]; [|tauto]. right. right. by exists rp.
      * destruct Hm as [[?|?]|Hm]; [tauto | tauto |].
        destruct (match_method rule) as [m|]; [|tauto]. right. right. by exists m.
    + intros (Hin & Hen & Hp & Hm). split; [exact Hin|]. split; [split; [exact Hen|]|].
      * destruct Hp as [?|[?|(rp & -> & Hp)]]; [tauto | tauto | by right].
      * destruct Hm as [?|[?|(m & -> & Hm)]]; [tauto | tauto | by right].
  - unfold match_request. apply filter_ext. intros rule. unfold rule_matches.
    by rewrite (proj1 (upper_idem method)).
  - unfold match_request. apply filter_ext. intros rule. unfold rule_matches.
    by rewrite (proj2 (upper_idem method)).
  - intros rules'. unfold match_request. apply List.filter_app.
Qed.

End RuleMatching.

(* --------------------------------------------------------------------- *)
(** ** The escalation ladder of a rule                                   *)
(* --------------------------------------------------------------------- *)

Section EscalationLadder.
Context `{Platform}.
Import RulesEngine.

Lemma insert_step_perm s l : Handler.insert_step s l ≡ₚ s :: l.
Proof.
  induction l as [|x l IH]; [reflexivity|]. cbn [Handler.insert_step].
  destruct (Qlt_bool (threshold s) (threshold x)); [reflexivity|].
  rewrite IH. apply perm_swap.
Qed.

Lemma insert_step_sorted s l :
  StronglySorted (fun a b => (threshold a <= threshold b)%Q) l → StronglySorted (fun a b => (threshold a <= threshold b)%Q) (Handler.insert_step s l).
Proof.
  induction l as [|x l IH]; intros Hs; cbn [Handler.insert_step].
  - by repeat constructor.
  - apply StronglySorted_inv in Hs as [Hl Hx].
    destruct (Qlt_bool (threshold s) (threshold x)) eqn:E.
    + apply Qlt_bool_iff in E. constructor; [by constructor|].
      constructor; [by apply Qlt_le_weak|].
      eapply Forall_impl; [exact Hx|]. cbn. intros y Hy.
      apply Qle_trans with (threshold x); [by apply Qlt_le_weak | exact Hy].
    + apply Qlt_bool_false in E. constructor; [by apply IH|].
      rewrite insert_step_perm. by constructor.
Qed.

Lemma sorted_steps_spec steps :
  Handler.sorted_steps steps ≡ₚ steps ∧ StronglySorted (fun a b => (threshold a <= threshold b)%Q) (Handler.sorted_steps steps).
Proof.
  unfold Handler.sorted_steps.
  assert (Hgen : ∀ acc, StronglySorted (fun a b => (threshold a <= threshold b)%Q) acc →
            fold_left (fun acc s => Handler.insert_step s acc) steps acc ≡ₚ acc ++ steps
            ∧ StronglySorted (fun a b => (threshold a <= threshold b)%Q)
                (fold_left (fun acc s => Handler.insert_step s acc) steps acc)).
  { induction steps as [|s steps IH]; intros acc Hacc; cbn [fold_left].
    - by rewrite app_nil_r.
    - destruct (IH (Handler.insert_step s acc) (insert_step_sorted s acc Hacc)) as [Hp Hs].
      split; [|exact Hs]. rewrite Hp, insert_step_perm.
      by rewrite <- Permutation_middle. }
  apply (Hgen []). constructor.
Qed.

Lemma sorted_before l1 s l2 :
  StronglySorted (fun a b => (threshold a <= threshold b)%Q) (l1 ++ s :: l2) → Forall (fun x => (threshold x <= threshold s)%Q) l1.
Proof.
  induction l1 as [|x l1 IH]; intros Hs; [constructor|].
  cbn [app] in Hs. apply StronglySorted_inv in Hs as [Hl Hx].
  constructor; [|by apply IH].
  rewrite Forall_app, Forall_cons in Hx. by destruct Hx as (_ & Hx & _).
Qed.

(** The last element of a list that passes a test. *)
Lemma last_passing {A} (test : A → bool) (l : list A) :
  Forall (fun x => test x = false) l
  ∨ ∃ l1 x l2, l = l1 ++ x :: l2 ∧ test x = true ∧ Forall (fun y => test y = false) l2.
Proof.
  induction l as [|x l IH] using rev_ind; [left; constructor|].
  destruct (test x) eqn:E.
  - right. exists l, x, []. by repeat split.
  - destruct IH as [Hall | (l1 & y & l2 & -> & Hy & Hl2)].
    + left. rewrite Forall_app. split; [exact Hall | by repeat constructor].
    + right. exists l1, y, (l2 ++ [x]). rewrite <- app_assoc. split; [reflexivity|].
      split; [exact Hy|]. rewrite Forall_app. split; [exact Hl2 | by repeat constructor].
Qed.

Lemma resolve_fold usage l1 s l2 a0 :
  Qle_bool (threshold s) usage = true →
  Forall (fun y => Qle_bool (threshold y) usage = false) l2 →
  fold_left (fun a step => if Qle_bool (threshold step) usage then action step else a)
    (l1 ++ s :: l2) a0 = action s.
Proof.
  intros Hs Hl2. rewrite fold_left_app. cbn [fold_left]. rewrite Hs.
  generalize (action s). induction Hl2 as [|y l2 Hy _ IH]; intros a; [reflexivity|].
  cbn [fold_left]. rewrite Hy. apply IH.
Qed.

Lemma resolve_fold_none usage l a0 :
  Forall (fun y => Qle_bool (threshold y) usage = false) l →
  fold_left (fun a step => if Qle_bool (threshold step) usage then action step else a) l a0
  = a0.
Proof.
  intros Hl. induction Hl as [|y l Hy _ IH]; [reflexivity|].
  cbn [fold_left]. by rewrite Hy.
Qed.

Lemma Qle_bool_false a b : Qle_bool a b = false ↔ (b < a)%Q.
Proof.
  split.
  - intros E. apply Qnot_le_lt. intros Hle. apply Qle_bool_iff in Hle. congruence.
  - intros Hlt. destruct (Qle_bool a b) eqn:E; [|reflexivity].
    apply Qle_bool_iff in E. apply Qlt_not_le in Hlt. contradiction.
Qed.

(** X12.  [_resolve_escalation] answers with the action of a step whose
    threshold the usage has reached and which has the greatest threshold
    among the steps reached, in whatever order the steps are written;
    when the usage is below every threshold, or there is no step, it
    answers [rate_limit]. *)
Theorem resolve_escalation_spec (steps : list EscalationStep) (usage_pct : Q) :
  (Handler._resolve_escalation steps usage_pct = "rate_limit"
   ∧ ∀ s, In s steps → (usage_pct < threshold s)%Q)
  ∨ ∃ s, In s steps
      ∧ (threshold s <= usage_pct)%Q
      ∧ Handler._resolve_escalation steps usage_pct = action s
      ∧ ∀ s', In s' steps → (threshold s' <= usage_pct)%Q → (threshold s' <= threshold s)%Q.
Proof.
  destruct (sorted_steps_spec steps) as [Hperm Hsorted].
  unfold Handler._resolve_escalation.
  destruct (last_passing (fun s => Qle_bool (threshold s) usage_pct)
              (Handler.sorted_steps steps)) as [Hnone | (l1 & s & l2 & Hl & Hs & Hl2)].
  - left. split; [by apply resolve_fold_none|].
    intros s Hin. apply Qle_bool_false.
    rewrite List.Forall_forall in Hnone. apply Hnone.
    apply list_elem_of_In. rewrite Hperm. by apply list_elem_of_In.
  - right. exists s. rewrite Hl in Hperm, Hsorted.
    split; [apply list_elem_of_In; rewrite <- Hperm, elem_of_app, elem_of_cons; tauto|].
    split; [by apply Qle_bool_iff|].
    split; [rewrite Hl; by apply resolve_fold|].
    intros s' Hin Hle. apply list_elem_of_In in Hin. rewrite <- Hperm in Hin.
    apply elem_of_app in Hin as [Hin | Hin].
    + pose proof (sorted_before l1 s l2 Hsorted) as Hb.
      rewrite List.Forall_forall in Hb. apply Hb. by apply list_elem_of_In.
    + apply elem_of_cons in Hin as [-> | Hin]; [apply Qle_refl|].
      rewrite List.Forall_forall in Hl2. apply list_elem_of_In in Hin.
      apply Hl2 in Hin. apply Qle_bool_iff in Hle. congruence.
Qed.

Lemma first_duration_none l :
  Forall (fun s => truthy (duration s) = false) l → Handler.first_duration l = Some None.
Proof.
  intros Hl. induction Hl as [|s l Hs _ IH]; [reflexivity|].
  cbn [Handler.first_duration]. by rewrite Hs.
Qed.

Lemma first_duration_found l1 s l2 :
  Forall (fun s => truthy (duration s) = false) l1 → truthy (duration s) = true →
  Handler.first_duration (l1 ++ s :: l2)
  = option_map Some (Handler._duration_to_seconds (default EmptyString (duration s))).
Proof.
  intros Hl1 Hs. induction Hl1 as [|x l1 Hx _ IH]; cbn [app Handler.first_duration].
  - by rewrite Hs.
  - by rewrite Hx.
Qed.

(** X13.  [_parse_duration] takes the duration of a step that has one
    (not empty) and has the greatest threshold among the steps that have
    one, whatever action that step names, and converts it with
    [_duration_to_seconds]; a conversion error is the error of the call.
    When no step has a duration the answer is [None], a block without
    an end. *)
Theorem parse_duration_spec (steps : list EscalationStep) :
  (Handler._parse_duration steps = Some None
   ∧ ∀ s, In s steps → truthy (duration s) = false)
  ∨ ∃ s d, In s steps
      ∧ duration s = Some d ∧ d ≠ EmptyString
      ∧ Handler._parse_duration steps = option_map Some (Handler._duration_to_seconds d)
      ∧ ∀ s', In s' steps → truthy (duration s') = true →
          (threshold s' <= threshold s)%Q.
Proof.
  destruct (sorted_steps_spec steps) as [Hperm Hsorted].
  unfold Handler._parse_duration.
  destruct (last_passing (fun s => truthy (duration s)) (Handler.sorted_steps steps))
    as [Hnone | (l1 & s & l2 & Hl & Hs & Hl2)].
  - left. split.
    + apply first_duration_none. by apply Forall_rev.
    + intros s Hin. rewrite List.Forall_forall in Hnone. apply Hnone.
      apply list_elem_of_In. rewrite Hperm. by apply list_elem_of_In.
  - right. rewrite Hl in Hperm, Hsorted.
    destruct (truthy_spec (duration s)) as [Htr _].
    destruct (Htr Hs) as (d & Hd & Hne).
    exists s, d.
    split; [apply list_elem_of_In; rewrite <- Hperm, elem_of_app, elem_of_cons; tauto|].
    split; [exact Hd|]. split; [exact Hne|].
    split.
    + rewrite Hl, rev_app_distr. cbn [List.rev]. rewrite <- app_assoc. cbn [app].
      rewrite first_duration_found by (by apply Forall_rev || done). by rewrite Hd.
    + intros s' Hin Htruthy. apply list_elem_of_In in Hin. rewrite <- Hperm in Hin.
      apply elem_of_app in Hin as [Hin | Hin].
      * pose proof (sorted_before l1 s l2 Hsorted) as Hb.
        rewrite List.Forall_forall in Hb. apply Hb. by apply list_elem_of_In.
      * apply elem_of_cons in Hin as [-> | Hin]; [apply Qle_refl|].
        rewrite List.Forall_forall in Hl2. apply list_elem_of_In in Hin.
        apply Hl2 in Hin. congruence.
Qed.

End EscalationLadder.

(* --------------------------------------------------------------------- *)
(** ** Durations                                                         *)
(* --------------------------------------------------------------------- *)

Section Durations.
Context `{Platform}.

Lemma snoc_exists s : s ≠ EmptyString → ∃ q c, s = q +:+ String c EmptyString.
Proof.
  intros Hne. destruct (PyStr.rev_string s) as [|c t] eqn:E.
  - destruct Hne. by rewrite <- (rev_string_involutive s), E.
  - exists (PyStr.rev_string t), c.
    by rewrite <- (rev_string_involutive s), E, rev_string_cons.
Qed.

Lemma map_string_append f s t :
  PyStr.map_string f (s +:+ t) = PyStr.map_string f s +:+ PyStr.map_string f t.
Proof.
  induction s as [|a s IH]; [reflexivity|].
  rewrite append_cons. cbn [PyStr.map_string]. by rewrite append_cons, IH.
Qed.

Lemma sign_or_digit_plain a :
  PyStr.is_digit a || Ascii.eqb a "-" = true →
  PyStr.is_space a = false ∧ PyStr.lower_ascii a = a.
Proof.
  destruct a as [[] [] [] [] [] [] [] []]; vm_compute; intros Hd;
    try discriminate Hd; by split.
Qed.

(** [str(n)]: digits after an optional minus sign, the last character a
    digit. *)
Lemma str_of_int_shape n :
  forallb (fun a => PyStr.is_digit a || Ascii.eqb a "-")
    (list_ascii_of_string (PyStr.str_of_int n)) = true
  ∧ ∃ q c, PyStr.str_of_int n = q +:+ String c EmptyString ∧ PyStr.is_digit c = true.
Proof.
  assert (Hdigits : ∀ p,
            forallb (fun a => PyStr.is_digit a || Ascii.eqb a "-")
              (list_ascii_of_string (NilEmpty.string_of_uint (Pos.to_uint p))) = true
            ∧ ∃ q c, NilEmpty.string_of_uint (Pos.to_uint p) = q +:+ String c EmptyString
                     ∧ PyStr.is_digit c = true).
  { intros p. destruct (string_of_pos p) as (_ & Hne & _).
    pose proof (all_digits_of_uint (Pos.to_uint p)) as Hall. unfold all_digits in Hall.
    split.
    - rewrite forallb_forall in *. intros a Ha. by rewrite (Hall a Ha).
    - destruct (snoc_exists _ Hne) as (q & c & E). exists q, c. split; [exact E|].
      rewrite E, list_of_append, forallb_app in Hall.
      apply andb_true_iff in Hall as [_ Hc]. cbn in Hc. by rewrite andb_true_r in Hc. }
  destruct n as [|p|p]; unfold PyStr.str_of_int; cbn [Z.to_int NilZero.string_of_int].
  - split; [reflexivity|]. by exists EmptyString, "0"%char.
  - destruct (string_of_pos p) as (-> & _ & _). apply Hdigits.
  - destruct (string_of_pos p) as (-> & _ & _). destruct (Hdigits p) as (Hall & q & c & E & Hc).
    split; [cbn [list_ascii_of_string forallb]; by rewrite Hall|].
    exists (String "-" q), c. by rewrite E, append_cons.
Qed.

(** [_duration_to_seconds] on [str(n)] followed by one character. *)
Lemma duration_with_unit n u :
  PyStr.is_space u = false →
  Handler._duration_to_seconds (PyStr.str_of_int n +:+ String u EmptyString)
  = if Ascii.eqb "m" (PyStr.lower_ascii u)
    then option_map (fun k => k * 60)%Z (PyStr.int (PyStr.str_of_int n))
    else if Ascii.eqb "h" (PyStr.lower_ascii u)
    then option_map (fun k => k * 3600)%Z (PyStr.int (PyStr.str_of_int n))
    else if Ascii.eqb "d" (PyStr.lower_ascii u)
    then option_map (fun k => k * 86400)%Z (PyStr.int (PyStr.str_of_int n))
    else if Ascii.eqb "s" (PyStr.lower_ascii u) then PyStr.int (PyStr.str_of_int n)
    else PyStr.int (PyStr.str_of_int n +:+ String (PyStr.lower_ascii u) EmptyString).
Proof.
  intros Hu. destruct (str_of_int_shape n) as [Hplain _].
  unfold Handler._duration_to_seconds. rewrite strip_id.
  2:{ rewrite list_of_append, forallb_app. cbn [list_ascii_of_string forallb].
      rewrite Hu, andb_true_r. cbn [negb]. rewrite forallb_forall in *. intros a Ha.
      by destruct (sign_or_digit_plain a (Hplain a Ha)) as [-> _]. }
  assert (Hlow : PyStr.lower (PyStr.str_of_int n) = PyStr.str_of_int n).
  { unfold PyStr.lower. clear -Hplain. induction (PyStr.str_of_int n) as [|a s IH]; [reflexivity|].
    cbn [list_ascii_of_string forallb] in Hplain. apply andb_true_iff in Hplain as [Ha Hs].
    cbn [PyStr.map_string]. destruct (sign_or_digit_plain a Ha) as [_ ->]. by rewrite IH. }
  unfold PyStr.lower in *. rewrite map_string_append, Hlow. cbn [PyStr.map_string].
  by rewrite !endswith_snoc, drop_last_snoc.
Qed.

(** X14.  [_duration_to_seconds] reads the decimal text of an integer
    followed by [m], [h], [d] or [s], in either case, as that many
    minutes, hours, days or seconds, and the text of an integer alone as
    seconds.  An integer of more than 4300 digits is refused with the
    [ValueError] of [int]. *)
Theorem duration_to_seconds_units (n : Z) :
  let read (v : Z) :=
    if (10 ^ PyStr.MAX_STR_DIGITS <=? Z.abs n)%Z then None else Some v in
  Handler._duration_to_seconds (PyStr.str_of_int n +:+ "m") = read (n * 60)%Z
  ∧ Handler._duration_to_seconds (PyStr.str_of_int n +:+ "h") = read (n * 3600)%Z
  ∧ Handler._duration_to_seconds (PyStr.str_of_int n +:+ "d") = read (n * 86400)%Z
  ∧ Handler._duration_to_seconds (PyStr.str_of_int n +:+ "s") = read n
  ∧ Handler._duration_to_seconds (PyStr.str_of_int n) = read n
  ∧ Handler._duration_to_seconds (PyStr.str_of_int n +:+ "M") = read (n * 60)%Z
  ∧ Handler._duration_to_seconds (PyStr.str_of_int n +:+ "H") = read (n * 3600)%Z
  ∧ Handler._duration_to_seconds (PyStr.str_of_int n +:+ "D") = read (n * 86400)%Z
  ∧ Handler._duration_to_seconds (PyStr.str_of_int n +:+ "S") = read n.
Proof.
  intros read.
  assert (Hbare : Handler._duration_to_seconds (PyStr.str_of_int n) = read n).
  { destruct (str_of_int_shape n) as (Hplain & q & c & E & Hc).
    unfold Handler._duration_to_seconds. rewrite strip_id.
    2:{ rewrite forallb_forall in *. intros a Ha.
        by destruct (sign_or_digit_plain a (Hplain a Ha)) as [-> _]. }
    assert (Hlow : PyStr.lower (PyStr.str_of_int n) = PyStr.str_of_int n).
    { unfold PyStr.lower. clear -Hplain.
      induction (PyStr.str_of_int n) as [|a s IH]; [reflexivity|].
      cbn [list_ascii_of_string forallb] in Hplain. apply andb_true_iff in Hplain as [Ha Hs].
      cbn [PyStr.map_string]. destruct (sign_or_digit_plain a Ha) as [_ ->]. by rewrite IH. }
    rewrite Hlow, int_str_of_int. rewrite E, !endswith_snoc.
    assert (Hunit : Ascii.eqb "m" c = false ∧ Ascii.eqb "h" c = false
                    ∧ Ascii.eqb "d" c = false ∧ Ascii.eqb "s" c = false).
    { clear -Hc. destruct c as [[] [] [] [] [] [] [] []]; vm_compute in Hc;
        try discriminate Hc; by repeat split. }
    by destruct Hunit as (-> & -> & -> & ->). }
  repeat split; try exact Hbare; rewrite duration_with_unit by reflexivity;
    cbn [PyStr.lower_ascii PyStr.is_upper Ascii.eqb]; rewrite int_str_of_int; unfold read;
    by destruct (10 ^ PyStr.MAX_STR_DIGITS <=? Z.abs n)%Z.
Qed.

End Durations.

(* --------------------------------------------------------------------- *)
(** ** The client address                                                *)
(* --------------------------------------------------------------------- *)

Section ClientAddress.
Context `{Platform}.

(** X15.  [get_client_ip] trusts the [X-Forwarded-For] header: when the
    header is present and not empty the address is its text before the
    first comma, stripped of white space, whatever address the
    connection comes from; only without the header, or with an empty
    one, it is the peer address, or [0.0.0.0] when there is none. *)
Theorem client_ip_from_forwarded_header (request : Http.Request) :
  (∀ first rest,
     Http.get_first "x-forwarded-for" (Http.headers request) = Some (first +:+ "," +:+ rest) →
     free_of "," first = true →
     Handler.get_client_ip request = PyStr.strip first)
  ∧ (∀ value,
       Http.get_first "x-forwarded-for" (Http.headers request) = Some value →
       value ≠ EmptyString → free_of "," value = true →
       Handler.get_client_ip request = PyStr.strip value)
  ∧ (Http.get_first "x-forwarded-for" (Http.headers request) = None
     ∨ Http.get_first "x-forwarded-for" (Http.headers request) = Some EmptyString →
     Handler.get_client_ip request = default "0.0.0.0" (Http.client_host request)).
Proof.
  unfold Handler.get_client_ip. split; [|split].
  - intros first rest -> Hfree.
    assert (Htruthy : truthy (Some (first +:+ "," +:+ rest)) = true).
    { destruct first; [|reflexivity]. by rewrite append_empty. }
    rewrite Htruthy. change (default EmptyString (Some ?x)) with x.
    change ("," +:+ rest) with (String "," rest). by rewrite split_app.
  - intros value -> Hne Hfree.
    assert (Htruthy : truthy (Some value) = true) by (by destruct value).
    rewrite Htruthy. change (default EmptyString (Some ?x)) with x.
    by rewrite split_free.
  - by intros [-> | ->].
Qed.

End ClientAddress.

(* --------------------------------------------------------------------- *)
(** ** What is sent upstream and what comes back                         *)
(* --------------------------------------------------------------------- *)

Section Forwarding.
Context `{Platform}.

Lemma dict_get_set_ne {V} k k' (v : V) d :
  k ≠ k' → PyDict.get k' (PyDict.set k v d) = PyDict.get k' d.
Proof.
  intros Hne. induction d as [|[k0 v0] d IH]; cbn [PyDict.set PyDict.get].
  - destruct (String.eqb_spec k' k); [congruence | reflexivity].
  - destruct (String.eqb_spec k k0) as [->|Hk]; cbn [PyDict.get].
    + destruct (String.eqb_spec k' k0); [congruence | reflexivity].
    + by rewrite IH.
Qed.


Lemma get_first_app k l1 l2 :
  Http.get_first k (l1 ++ l2)
  = match Http.get_first k l1 with Some v => Some v | None => Http.get_first k l2 end.
Proof.
  induction l1 as [|[k0 v0] l1 IH]; [reflexivity|]. cbn [app Http.get_first].
  by destruct (String.eqb k k0).
Qed.













End Forwarding.

(* --------------------------------------------------------------------- *)
(** ** The counters over one request                                     *)
(* --------------------------------------------------------------------- *)

Section Counters.
Context `{Platform}.

Lemma deque_append_length {A} maxlen (d : list A) x :
  (0 < maxlen)%Z →
  Z.of_nat (length (BehaviorAnalyzer.deque_append maxlen d x))
  = Z.min (Z.of_nat (length d) + 1) maxlen.
Proof.
  intros Hpos. unfold BehaviorAnalyzer.deque_append. cbv zeta.
  rewrite length_drop, length_app. cbn [length]. lia.
Qed.

Lemma within_refl tc : counts_within 0 0 0 0 tc tc.
Proof. unfold counts_within. repeat split; lia. Qed.

Lemma within_trans b1 l1 f1 c1 b2 l2 f2 c2 tc tc1 tc2 :
  counts_within b1 l1 f1 c1 tc tc1 → counts_within b2 l2 f2 c2 tc1 tc2 →
  counts_within (b1 + b2) (l1 + l2) (f1 + f2) (c1 + c2) tc tc2.
Proof.
  unfold counts_within.
  intros (Ht1 & Ha1 & Hr1 & Hb1 & Hl1 & Hf1 & Hc1 & He1)
         (Ht2 & Ha2 & Hr2 & Hb2 & Hl2 & Hf2 & Hc2 & He2).
  repeat split; try congruence; lia.
Qed.

Lemma within_weaken b l f c b' l' f' c' tc tc' :
  counts_within b l f c tc tc' →
  (b <= b')%Z → (l <= l')%Z → (f <= f')%Z → (c <= c')%Z →
  counts_within b' l' f' c' tc tc'.
Proof.
  unfold counts_within. intros (Ht & Ha & Hr & Hb & Hl & Hf & Hc & He) ? ? ? ?.
  repeat split; try congruence; lia.
Qed.

Lemma within_bump b l f c tc :
  (0 <= b)%Z → (0 <= l)%Z → (0 <= f)%Z → (0 <= c)%Z →
  counts_within b l f c tc (Handler.bump b l f c tc).
Proof. unfold counts_within, Handler.bump. cbn. intros. repeat split; lia. Qed.

Lemma within_event ev tc : counts_within 0 0 0 0 tc (Handler.add_event ev tc).
Proof.
  unfold counts_within, Handler.add_event. cbn.
  pose proof (deque_append_length 200 (Handler.recent_events tc) ev) as Hlen.
  repeat split; lia.
Qed.

Ltac widen tac := eapply within_weaken; [tac | lia ..].

Ltac bumped H :=
  widen ltac:(eapply within_trans; [exact H | apply within_bump; lia]).

Lemma event_then_bump b l f c ev tc :
  (0 <= b)%Z → (0 <= l)%Z → (0 <= f)%Z → (0 <= c)%Z →
  counts_within b l f c tc (Handler.bump b l f c (Handler.add_event ev tc)).
Proof.
  intros. widen ltac:(eapply within_trans; [apply within_event | apply within_bump; lia]).
Qed.

Lemma bump_then_event b l f c ev tc :
  (0 <= b)%Z → (0 <= l)%Z → (0 <= f)%Z → (0 <= c)%Z →
  counts_within b l f c tc (Handler.add_event ev (Handler.bump b l f c tc)).
Proof.
  intros.
  widen ltac:(apply (within_trans b l f c 0 0 0 0 _ (Handler.bump b l f c tc));
              [apply within_bump; lia | apply within_event]).
Qed.

Lemma rule_exceeded_counts cfg env request ip url_path ua rule count limit_count limit_window w :
  counts_within 1 1 0 1 (Handler.traffic w)
    (Handler.traffic (Handler.rule_exceeded cfg env request ip url_path ua rule count
                        limit_count limit_window w).2).
Proof.
  unfold Handler.rule_exceeded. cbv zeta.
  set (w1 := Handler.upd_traffic (Handler.add_event _) (Handler.upd_traffic _ w)).
  assert (H1 : counts_within 0 1 0 0 (Handler.traffic w) (Handler.traffic w1)).
  { unfold w1. cbn [Handler.traffic Handler.upd_traffic]. apply bump_then_event; lia. }
  clearbody w1.
  destruct (String.eqb _ "block").
  - destruct (Handler._parse_duration _) as [duration|]; cbn [snd].
    + destruct (IPBlocker.block_raises _ _); cbn [snd].
      * widen ltac:(exact H1).
      * cbn [Handler.traffic Handler.create_task Handler.upd_traffic Handler.with_redis].
        bumped H1.
    + widen ltac:(exact H1).
  - destruct (if String.eqb _ "js_challenge" then _ else _) as [resp|]; cbn [snd].
    + cbn [Handler.traffic Handler.upd_traffic]. bumped H1.
    + widen ltac:(exact H1).
Qed.

Lemma rules_phase_counts cfg env request ip url_path ua matched : ∀ i w,
  let result := Handler.rules_phase cfg env request ip url_path ua i matched w in
  counts_within 1 1 0 1 (Handler.traffic w) (Handler.traffic result.2)
  ∧ (result.1 = None → Handler.traffic result.2 = Handler.traffic w)
  ∧ Handler.engine result.2 = Handler.engine w.
Proof.
  induction matched as [|rule rest IH]; intros i w; cbn [Handler.rules_phase].
  - cbn. split; [|by split]. widen ltac:(apply within_refl).
  - destruct (RulesEngine.limits rule) as [lim|]; [|apply IH].
    destruct (truthy (RulesEngine.per_ip lim)); [|apply IH].
    destruct (RulesEngine.parse_rate_string _) as [[limit_count limit_window]|].
    2:{ cbn. split; [|by split]. widen ltac:(apply within_refl). }
    destruct (RateLimiter.check_rule_limit _ _ _ _ _ _ _) as [[allowed count] c].
    destruct allowed; cbn [negb].
    + specialize (IH (S i) (Handler.with_redis c w)). exact IH.
    + pose proof (rule_exceeded_counts cfg env request ip url_path ua rule count limit_count
                    limit_window (Handler.with_redis c w)) as Hc.
      assert (He : Handler.engine
                     (Handler.rule_exceeded cfg env request ip url_path ua rule count
                        limit_count limit_window (Handler.with_redis c w)).2
                   = Handler.engine w).
      { unfold Handler.rule_exceeded. cbv zeta.
        destruct (String.eqb _ "block").
        - destruct (Handler._parse_duration _); [|reflexivity].
          by destruct (IPBlocker.block_raises _ _).
        - by destruct (if String.eqb _ "js_challenge" then _ else _). }
      destruct (Handler.rule_exceeded _ _ _ _ _ _ _ _ _ _ _) as [o w'].
      cbn [fst snd] in *. split; [exact Hc|]. split; [discriminate | exact He].
Qed.

Lemma mitigate_counts cfg env request ip url_path ua rate_count threat_score w :
  let result := Handler.mitigate cfg env request ip url_path ua rate_count threat_score w in
  counts_within 1 1 0 1 (Handler.traffic w) (Handler.traffic result.2)
  ∧ (result.1 = None → counts_within 0 0 0 0 (Handler.traffic w) (Handler.traffic result.2)).
Proof.
  unfold Handler.mitigate.
  destruct (negb _).
  { cbn. split; [|intros _; apply within_refl]. widen ltac:(apply within_refl). }
  unfold Handler.mitigate_scored. cbv zeta.
  destruct (DetectionEngine.classify_attack _ _ _ _ _ _) as [attack_type|].
  2:{ cbn. split; [|discriminate]. widen ltac:(apply within_refl). }
  destruct (if under_attack_mode cfg then BLOCK else protection_level cfg).
  - cbn [fst snd Handler.traffic Handler.create_task Handler.upd_traffic].
    split; [|intros _; apply within_event]. widen ltac:(apply within_event).
  - destruct (ChallengeManager.maybe_challenge _ _ _ _ _) as [resp|];
      cbn [fst snd Handler.traffic Handler.create_task Handler.upd_traffic].
    + split; [|discriminate]. widen ltac:(apply event_then_bump; lia).
    + split; [|intros _; apply within_refl]. widen ltac:(apply within_refl).
  - cbn [fst snd Handler.traffic Handler.create_task Handler.upd_traffic].
    split; [|discriminate]. widen ltac:(apply event_then_bump; lia).
  - cbn [fst snd Handler.traffic Handler.create_task Handler.upd_traffic Handler.with_redis].
    split; [|discriminate]. widen ltac:(apply event_then_bump; lia).
  - cbn [fst snd Handler.traffic Handler.create_task Handler.upd_traffic Handler.with_redis].
    split; [|discriminate]. widen ltac:(apply event_then_bump; lia).
Qed.

Lemma forward_counts env request ip url_path threat_score w :
  counts_within 0 0 1 0 (Handler.traffic w)
    (Handler.traffic (Handler.forward env request ip url_path threat_score w).2).
Proof.
  unfold Handler.forward. cbv zeta.
  destruct (Handler.upstream env _); cbn [snd Handler.traffic Handler.upd_traffic].
  - apply within_bump; lia.
  - widen ltac:(apply within_refl).
Qed.

Lemma detect_and_forward_counts cfg env request ip url_path ua rate_count w :
  counts_within 1 1 1 1 (Handler.traffic w)
    (Handler.traffic (Handler.detect_and_forward cfg env request ip url_path ua rate_count w).2).
Proof.
  unfold Handler.detect_and_forward.
  destruct (DetectionEngine.score_request _ _ _ _ _ _) as [[threat_score|] e].
  2:{ cbn. widen ltac:(apply within_refl). }
  pose proof (mitigate_counts cfg env request ip url_path ua rate_count threat_score
                (Handler.with_engine e w)) as [Hm Hnone].
  cbv zeta in Hm, Hnone.
  destruct (Handler.mitigate _ _ _ _ _ _ _ _ _) as [[o|] w1]; cbn [fst snd] in *.
  - widen ltac:(exact Hm).
  - widen ltac:(exact (within_trans _ _ _ _ _ _ _ _ _ _ _ (Hnone eq_refl)
                         (forward_counts env request ip url_path threat_score w1))).
Qed.

(** X17.  The counters over one call of [reverse_proxy].  A request for
    a reserved path is answered 404 and changes nothing at all.  Any
    other request, however it ends (also with an exception), counts as
    exactly one request, adds the client address and the time to the
    counters, raises each of the counters of blocked, rate-limited,
    forwarded and challenged requests by at most one, and leaves at
    most 200 events unless more were there before. *)
Theorem request_counters (cfg : Settings) (rules : list RulesEngine.Rule) (env : Handler.Env)
    (request : Http.Request) (path : string) (w : Handler.World) :
  let result := Handler.reverse_proxy cfg rules env request path w in
  if PyStr.startswith_any (Http.url_path request) Handler.internal_prefixes
  then result = (Handler.Returned (Http.plain 404 Http.Empty), w)
  else counts_within 1 1 1 1
         (Handler.record_request (Handler.t_record env) (Handler.get_client_ip request)
            (Handler.traffic w))
         (Handler.traffic result.2).
Proof.
  intros result. unfold result, Handler.reverse_proxy. cbv zeta.
  destruct (PyStr.startswith_any _ _); [reflexivity|].
  set (w0 := Handler.upd_traffic (Handler.record_request _ _) w).
  change (Handler.record_request (Handler.t_record env) (Handler.get_client_ip request)
            (Handler.traffic w)) with (Handler.traffic w0).
  destruct (IPBlocker.is_blocked _ _).
  { cbn [snd Handler.traffic Handler.upd_traffic].
    widen ltac:(apply bump_then_event; lia). }
  pose proof (rules_phase_counts cfg env request (Handler.get_client_ip request)
                (if String.eqb path EmptyString then "/" else "/" +:+ path)
                (default EmptyString (Http.get_first "user-agent" (Http.headers request)))
                (RulesEngine.match_request rules
                   (if String.eqb path EmptyString then "/" else "/" +:+ path)
                   (Http.method request)) 0 w0) as (Hr & Hnone & _).
  cbv zeta in Hr, Hnone.
  destruct (Handler.rules_phase _ _ _ _ _ _ _ _ _) as [[o|] w1]; cbn [fst snd] in *.
  { widen ltac:(exact Hr). }
  specialize (Hnone eq_refl).
  destruct (RateLimiter.allow_with_count _ _ _ _ _) as [[rate_allowed rate_count] c].
  destruct rate_allowed; cbn [negb].
  - pose proof (detect_and_forward_counts cfg env request (Handler.get_client_ip request)
                  (if String.eqb path EmptyString then "/" else "/" +:+ path)
                  (default EmptyString (Http.get_first "user-agent" (Http.headers request)))
                  rate_count (Handler.with_redis c w1)) as Hd.
    cbn [Handler.traffic Handler.with_redis] in Hd. by rewrite Hnone in Hd.
  - cbn [snd Handler.traffic Handler.upd_traffic Handler.create_task Handler.with_redis].
    rewrite Hnone. widen ltac:(apply bump_then_event; lia).
Qed.

End Counters.

(* --------------------------------------------------------------------- *)
(** ** Requests per second                                               *)
(* --------------------------------------------------------------------- *)

Section RequestsPerSecond.
Context `{Platform}.

Lemma deque_append_last {A} maxlen (d : list A) x :
  (0 < maxlen)%Z → ∃ kept, BehaviorAnalyzer.deque_append maxlen d x = kept ++ [x].
Proof.
  intros Hpos. unfold BehaviorAnalyzer.deque_append. cbv zeta.
  exists (drop (Z.to_nat (Z.of_nat (length (d ++ [x])) - maxlen)) d).
  rewrite drop_app_le; [reflexivity|]. rewrite length_app. cbn [length]. lia.
Qed.

(** X18.  [requests_per_second] after a request has been recorded: the
    value is a number of tenths between 0 and 1000, since at most 10000
    request times are kept; and it is at least 0.1 while the request
    just recorded is less than ten seconds old. *)
Theorem requests_per_second_bounds (recorded : Q) (ip : string) (tc : Handler.TrafficCounters)
    (now : Q) :
  let rps := Handler.requests_per_second now (Handler.record_request recorded ip tc) in
  (0 <= rps)%Q ∧ (rps <= 1000)%Q
  ∧ (∃ n : nat, rps == inject_Z (Z.of_nat n) / 10)%Q
  ∧ ((now - 10 < recorded)%Q → (1 # 10 <= rps)%Q).
Proof.
  intros rps. unfold rps, Handler.requests_per_second, Handler.record_request.
  cbn [Handler._request_times]. cbv zeta.
  set (times := BehaviorAnalyzer.deque_append 10000 (Handler._request_times tc) recorded).
  set (count := length (List.filter (fun t => Qgt_bool t (now - 10)) times)).
  assert (Hlen : (Z.of_nat (length times) <= 10000)%Z).
  { unfold times. rewrite deque_append_length by lia. lia. }
  assert (Hcount : (count <= length times)%nat) by apply List.filter_length_le.
  assert (Hdiv : ∀ z : Z, (inject_Z z / 10 == z # 10)%Q).
  { intros z. unfold Qdiv, Qmult, Qinv, inject_Z, Qeq. cbn. lia. }
  rewrite Hdiv. split; [|split; [|split]].
  - unfold Qle. cbn. lia.
  - unfold Qle. cbn. lia.
  - exists count. by rewrite Hdiv.
  - intros Hrecent.
    destruct (deque_append_last 10000 (Handler._request_times tc) recorded) as [kept Hk];
      [lia|].
    assert (Hone : (1 <= count)%nat).
    { unfold count, times. rewrite Hk, List.filter_app, length_app.
      cbn [List.filter]. apply Qgt_bool_iff in Hrecent. rewrite Hrecent. cbn [length]. lia. }
    unfold Qle. cbn. lia.
Qed.

End RequestsPerSecond.

(* --------------------------------------------------------------------- *)
(** ** The heuristic score                                               *)
(* --------------------------------------------------------------------- *)

Section ScorerFacts.
Local Open Scope Q_scope.

Lemma clamp01_id x : 0 <= x → x <= 1 → clamp01 x == x.
Proof.
  intros H0 H1. unfold clamp01. rewrite (Q.max_r 0 x H0). by apply Q.min_r.
Qed.

Lemma clamp01_mono x y : x <= y → clamp01 x <= clamp01 y.
Proof.
  intros Hle. unfold clamp01. apply Q.min_le_compat_l. by apply Q.max_le_compat_l.
Qed.

Lemma z_to_score_range value mean std :
  0 <= AnomalyScorer._z_to_score value mean std ∧ AnomalyScorer._z_to_score value mean std <= 1.
Proof.
  exact (ramp_range (if Qeq_bool std 0 then 0 else Qabs (value - mean) / std)).
Qed.

Lemma score_user_agent_range ua :
  0 <= AnomalyScorer._score_user_agent ua ∧ AnomalyScorer._score_user_agent ua <= 0.9.
Proof.
  unfold AnomalyScorer._score_user_agent.
  destruct (String.eqb ua EmptyString); [split; discriminate|].
  destruct (existsb _ _); split; discriminate.
Qed.

Lemma score_path_range path :
  0 <= AnomalyScorer._score_path path ∧ AnomalyScorer._score_path path <= 0.8.
Proof.
  unfold AnomalyScorer._score_path.
  destruct (512 <? String.length path)%nat; [split; discriminate|].
  destruct (40 <? AnomalyScorer.unique_chars path)%nat; split; discriminate.
Qed.

(** The score as the weighted sum of its signals. *)
Lemma score_weighted features baseline rate_ratio behavior_score :
  AnomalyScorer.score features baseline rate_ratio behavior_score
  == if BaselineModel.is_ready baseline
     then 0.15 * AnomalyScorer._z_to_score (inject_Z (default 0%Z (f_header_count features)))
                   (BaselineModel.mean_header_count baseline)
                   (BaselineModel.std_header_count baseline)
          + 0.10 * AnomalyScorer._z_to_score
                     (inject_Z (default 0%Z (f_content_length features)))
                     (BaselineModel.mean_content_length baseline)
                     (BaselineModel.std_content_length baseline)
          + 0.20 * AnomalyScorer._score_user_agent (default EmptyString (f_user_agent features))
          + 0.10 * AnomalyScorer._score_path (default "/" (f_path features))
          + 0.20 * clamp01 rate_ratio + 0.25 * clamp01 behavior_score
     else 0.
Proof.
  unfold AnomalyScorer.score. cbv zeta.
  unfold AnomalyScorer.WEIGHTS, AnomalyScorer.signal, Qsum.
  cbn [List.map List.find fst snd fold_left String.eqb Ascii.eqb Bool.eqb].
  destruct (BaselineModel.is_ready baseline); cbn [negb]; [|reflexivity].
  destruct (z_to_score_range (inject_Z (default 0%Z (f_header_count features)))
              (BaselineModel.mean_header_count baseline)
              (BaselineModel.std_header_count baseline)) as [Hhc0 Hhc1].
  destruct (z_to_score_range (inject_Z (default 0%Z (f_content_length features)))
              (BaselineModel.mean_content_length baseline)
              (BaselineModel.std_content_length baseline)) as [Hcl0 Hcl1].
  destruct (score_user_agent_range (default EmptyString (f_user_agent features)))
    as [Hua0 Hua1].
  destruct (score_path_range (default "/" (f_path features))) as [Hpe0 Hpe1].
  destruct (clamp01_range rate_ratio) as [Hr0 Hr1].
  destruct (clamp01_range behavior_score) as [Hb0 Hb1].
  rewrite clamp01_id; lra.
Qed.

Lemma heuristic_range features baseline rate_ratio behavior_score :
  0 <= AnomalyScorer.score features baseline rate_ratio behavior_score
  ∧ AnomalyScorer.score features baseline rate_ratio behavior_score <= 0.96
  ∧ (BaselineModel.is_ready baseline = false →
     AnomalyScorer.score features baseline rate_ratio behavior_score = 0).
Proof.
  split; [|split].
  3:{ unfold AnomalyScorer.score. by intros ->. }
  all: rewrite score_weighted; destruct (BaselineModel.is_ready baseline); [|discriminate].
  all: destruct (z_to_score_range (inject_Z (default 0%Z (f_header_count features)))
              (BaselineModel.mean_header_count baseline)
              (BaselineModel.std_header_count baseline)) as [Hhc0 Hhc1];
    destruct (z_to_score_range (inject_Z (default 0%Z (f_content_length features)))
              (BaselineModel.mean_content_length baseline)
              (BaselineModel.std_content_length baseline)) as [Hcl0 Hcl1];
    destruct (score_user_agent_range (default EmptyString (f_user_agent features)))
      as [Hua0 Hua1];
    destruct (score_path_range (default "/" (f_path features))) as [Hpe0 Hpe1];
    destruct (clamp01_range rate_ratio) as [Hr0 Hr1];
    destruct (clamp01_range behavior_score) as [Hb0 Hb1]; lra.
Qed.

(** X19.  The heuristic score is 0 while the baseline is not ready.
    Once it is ready the score is the weighted sum of the six signals
    itself: the weights add up to 1 and every signal lies between 0 and
    1, so the final clamp changes nothing.  As the user-agent signal is
    at most 0.9 and the path signal at most 0.8, the score never exceeds
    0.96; and it does not fall when the rate ratio or the behaviour
    score rises. *)
Theorem scorer_weighted_sum (features : Features) (baseline : BaselineModel.t)
    (rate_ratio behavior_score : Q) :
  let hc := AnomalyScorer._z_to_score (inject_Z (default 0%Z (f_header_count features)))
              (BaselineModel.mean_header_count baseline)
              (BaselineModel.std_header_count baseline) in
  let cl := AnomalyScorer._z_to_score (inject_Z (default 0%Z (f_content_length features)))
              (BaselineModel.mean_content_length baseline)
              (BaselineModel.std_content_length baseline) in
  let ua := AnomalyScorer._score_user_agent (default EmptyString (f_user_agent features)) in
  let pe := AnomalyScorer._score_path (default "/" (f_path features)) in
  let score := AnomalyScorer.score features baseline rate_ratio behavior_score in
  (BaselineModel.is_ready baseline = false → score = 0)
  ∧ (BaselineModel.is_ready baseline = true →
     score == 0.15 * hc + 0.10 * cl + 0.20 * ua + 0.10 * pe
              + 0.20 * clamp01 rate_ratio + 0.25 * clamp01 behavior_score)
  ∧ 0 <= score ∧ score <= 0.96
  ∧ ∀ rate_ratio' behavior_score',
      rate_ratio <= rate_ratio' → behavior_score <= behavior_score' →
      score <= AnomalyScorer.score features baseline rate_ratio' behavior_score'.
Proof.
  intros hc cl ua pe score.
  destruct (heuristic_range features baseline rate_ratio behavior_score)
    as (H0 & H1 & Hlearning).
  split; [exact Hlearning|].
  split; [intros Hready; unfold score; by rewrite score_weighted, Hready|].
  split; [exact H0|]. split; [exact H1|].
  intros r' b' Hr Hb. unfold score. rewrite !score_weighted.
  destruct (BaselineModel.is_ready baseline); [|discriminate].
  pose proof (clamp01_mono _ _ Hr). pose proof (clamp01_mono _ _ Hb). lra.
Qed.

End ScorerFacts.

(* --------------------------------------------------------------------- *)
(** ** Regions of the classifier                                         *)
(* --------------------------------------------------------------------- *)

Section ClassifierRegions.
Import AttackClassifier.
Local Open Scope Q_scope.

Lemma Qgt_bool_false a b : a <= b → Qgt_bool a b = false.
Proof. intros Hle. unfold Qgt_bool. apply Qle_bool_iff in Hle. by rewrite Hle. Qed.

(** X20.  The classifier never answers [UNKNOWN].  A rate ratio above
    0.85 is an HTTP flood whatever else the request looks like.  With a
    rate ratio of at most 0.3 and a behaviour score of at most 0.3 the
    request is benign.  When the rate limit is not positive the ratio
    counts as 0, and then only [SLOWLORIS], [API_ABUSE] or benign are
    possible. *)
Theorem classify_regions (features : Features) (rate_count rate_limit : Z)
    (behavior_score : Q) :
  let verdict := classify features rate_count rate_limit behavior_score in
  verdict ≠ Some UNKNOWN
  ∧ (0.85 < rate_ratio_of rate_count rate_limit → verdict = Some HTTP_FLOOD)
  ∧ (rate_ratio_of rate_count rate_limit <= 0.3 → behavior_score <= 0.3 → verdict = None)
  ∧ ((rate_limit <= 0)%Z →
     verdict = None ∨ verdict = Some SLOWLORIS ∨ verdict = Some API_ABUSE).
Proof.
  intros verdict. unfold verdict, classify. cbv zeta.
  set (r := rate_ratio_of rate_count rate_limit).
  split; [|split; [|split]].
  - repeat match goal with |- context [if ?c then _ else _] => destruct c end; discriminate.
  - intros Hr. apply Qgt_bool_iff in Hr. rewrite Hr.
    by destruct (Qgt_bool r 0.6 && _).
  - intros Hr Hb.
    rewrite !(Qgt_bool_false r) by lra. rewrite !(Qgt_bool_false behavior_score) by lra.
    by rewrite !andb_false_r.
  - intros Hlimit.
    assert (Hr : r = 0).
    { unfold r, rate_ratio_of. destruct (0 <? rate_limit)%Z eqn:E; [|reflexivity].
      apply Z.ltb_lt in E. lia. }
    rewrite Hr. change (Qgt_bool 0 0.6) with false. change (Qgt_bool 0 0.85) with false.
    change (Qgt_bool 0 0.3) with false. change (Qgt_bool 0 0.5) with false.
    change (Qgt_bool 0 0.4) with false. rewrite !andb_false_r. cbn [andb orb].
    repeat match goal with |- context [if ?c then _ else _] => destruct c end; tauto.
Qed.

End ClassifierRegions.

(* --------------------------------------------------------------------- *)
(** ** The threat score of the engine                                    *)
(* --------------------------------------------------------------------- *)

Section EngineScore.
Context `{Platform}.
Local Open Scope Q_scope.





End EngineScore.

(* --------------------------------------------------------------------- *)
(** ** When the detection denies nothing                                 *)
(* --------------------------------------------------------------------- *)

Section NeverDenied.
Context `{Platform}.
Local Open Scope Q_scope.






End NeverDenied.



(* --------------------------------------------------------------------- *)
(** ** The signals of the behaviour score                                *)
(* --------------------------------------------------------------------- *)

Section BehaviorSignals.
Context `{Platform}.
Import BehaviorAnalyzer.
Local Open Scope Q_scope.

Lemma remove_dups_length {A} `{EqDecision A} (l : list A) :
  (length (remove_dups l) <= length l)%nat.
Proof.
  induction l as [|x l IH]; [reflexivity|]. cbn [remove_dups length].
  destruct (decide_rel elem_of x l); cbn [length]; lia.
Qed.

Lemma remove_dups_nonempty {A} `{EqDecision A} (x : A) (l : list A) :
  (1 <= length (remove_dups (x :: l)))%nat.
Proof.
  assert (Hin : x ∈ remove_dups (x :: l)) by (apply elem_of_remove_dups; left).
  destruct (remove_dups (x :: l)); [by apply elem_of_nil in Hin | cbn; lia].
Qed.

Lemma Qmin_one_range x : 0 <= x → 0 <= Qmin 1 x ∧ Qmin 1 x <= 1.
Proof.
  intros Hx. split; [apply Q.min_glb; [discriminate | exact Hx] | apply Q.le_min_l].
Qed.

Lemma timing_regularity_range s : 0 <= _timing_regularity s ∧ _timing_regularity s <= 1.
Proof.
  unfold _timing_regularity. cbv zeta.
  repeat match goal with |- context [if ?c then _ else _] => destruct c end;
    split; discriminate.
Qed.

Lemma path_diversity_range s :
  0 <= _path_diversity s ∧ _path_diversity s <= 1
  ∧ (paths_visited s ≠ [] → 0 < _path_diversity s).
Proof.
  unfold _path_diversity. cbv zeta.
  destruct (paths_visited s) as [|p ps]; [repeat split; (discriminate || done)|].
  pose proof (remove_dups_length (p :: ps)) as Hle.
  pose proof (remove_dups_nonempty p ps) as Hpos.
  unfold Qlen. set (u := length (remove_dups (p :: ps))) in *.
  assert (Hnpos : (1 <= length (p :: ps))%nat) by (cbn [length]; lia).
  set (n := length (p :: ps)) in *.
  assert (Hn : 0 < inject_Z (Z.of_nat n)) by (change 0 with (inject_Z 0); rewrite <- Zlt_Qlt; lia).
  assert (Hu : 0 < inject_Z (Z.of_nat u)) by (change 0 with (inject_Z 0); rewrite <- Zlt_Qlt; lia).
  assert (Hun : inject_Z (Z.of_nat u) <= inject_Z (Z.of_nat n)) by (rewrite <- Zle_Qle; lia).
  split; [apply Qle_shift_div_l; [exact Hn | lra]|].
  split; [apply Qle_shift_div_r; [exact Hn | lra]|].
  intros _. apply Qlt_shift_div_l; [exact Hn | lra].
Qed.

Lemma header_consistency_range s : 0 <= _header_consistency s ∧ _header_consistency s <= 1.
Proof.
  unfold _header_consistency. cbv zeta. apply Qmin_one_range.
  repeat match goal with |- context [if ?c then _ else _] => destruct c end; discriminate.
Qed.

Lemma rate_score_range s : 0 <= _rate_score s ∧ _rate_score s <= 1.
Proof.
  unfold _rate_score. cbv zeta.
  repeat match goal with |- context [if ?c then _ else _] => destruct c end;
    split; discriminate.
Qed.

Lemma browser_indicators_range s : 0 <= _browser_indicators s ∧ _browser_indicators s <= 1.
Proof.
  unfold _browser_indicators. cbv zeta. apply Qmin_one_range.
  repeat match goal with |- context [if ?c then _ else _] => destruct c end; discriminate.
Qed.

(** X24.  Every signal of the behaviour score lies between 0 and 1, the
    path diversity above 0 once a path has been visited.  So from the
    third request on the score is the weighted sum of the signals
    itself, the final clamp cutting nothing, and it stays below 1 for a
    session that has visited a path. *)
Theorem behavior_signals_in_range (s : IPSession) :
  (0 <= _timing_regularity s ∧ _timing_regularity s <= 1)
  ∧ (0 <= _path_diversity s ∧ _path_diversity s <= 1)
  ∧ (0 <= _header_consistency s ∧ _header_consistency s <= 1)
  ∧ (0 <= _rate_score s ∧ _rate_score s <= 1)
  ∧ (0 <= _browser_indicators s ∧ _browser_indicators s <= 1)
  ∧ ((3 <= request_count s)%Z →
     _compute_score s
     == 0.30 * _timing_regularity s + 0.15 * (1 - _path_diversity s)
        + 0.15 * _header_consistency s + 0.20 * _rate_score s
        + 0.20 * _browser_indicators s)
  ∧ (paths_visited s ≠ [] → _compute_score s < 1).
Proof.
  pose proof (timing_regularity_range s) as Ht.
  pose proof (path_diversity_range s) as (Hp0 & Hp1 & Hppos).
  pose proof (header_consistency_range s) as Hh.
  pose proof (rate_score_range s) as Hr.
  pose proof (browser_indicators_range s) as Hb.
  split; [exact Ht|]. split; [by split|]. split; [exact Hh|]. split; [exact Hr|].
  split; [exact Hb|].
  assert (Hsum : clamp01 (Qsum (List.map (fun vw => vw.1 * vw.2) (signals_of s)))
                 == 0.30 * _timing_regularity s + 0.15 * (1 - _path_diversity s)
                    + 0.15 * _header_consistency s + 0.20 * _rate_score s
                    + 0.20 * _browser_indicators s).
  { unfold Qsum, signals_of. cbn [List.map fold_left fst snd].
    destruct Ht, Hh, Hr, Hb. rewrite clamp01_id; lra. }
  split.
  - intros Hge. unfold _compute_score. apply Z.ltb_ge in Hge. by rewrite Hge.
  - intros Hpaths. specialize (Hppos Hpaths). unfold _compute_score.
    destruct (request_count s <? 3)%Z; [reflexivity|]. cbv zeta. rewrite Hsum.
    destruct Ht, Hh, Hr, Hb. lra.
Qed.

End BehaviorSignals.

(* --------------------------------------------------------------------- *)
(** ** A session after a run of requests                                 *)
(* --------------------------------------------------------------------- *)

Section SessionHistory.
Context `{Platform}.
Import BehaviorAnalyzer.

Lemma session_after_snoc hits h :
  session_after (hits ++ [h]) = record_hit (session_after hits) h.
Proof. unfold session_after. by rewrite fold_left_app. Qed.

Lemma deque_append_drop {A} (maxlen k : nat) (l : list A) x :
  (0 < maxlen)%nat → k = (length l - maxlen)%nat →
  deque_append (Z.of_nat maxlen) (drop k l) x = drop (S (length l) - maxlen) (l ++ [x]).
Proof.
  intros Hpos ->. unfold deque_append. cbv zeta.
  rewrite <- (drop_app_le l [x]) by lia.
  rewrite drop_drop. f_equal. rewrite length_drop, length_app. cbn [length]. lia.
Qed.

(** X25.  The session of an address after any run of requests, starting
    from a new session: the request count is the number of requests,
    the visited paths are the last 100 paths in order, there are at most
    200 inter-arrival times and fewer than requests, the methods are
    those used, and the referer and cookie flags tell whether any
    request carried one.  Before the third request the behaviour score
    is 0. *)
Theorem session_after_hits (hits : list Hit) :
  let s := session_after hits in
  request_count s = Z.of_nat (length hits)
  ∧ paths_visited s = drop (length hits - 100) (List.map hit_path hits)
  ∧ (length (inter_arrival_times s) <= Nat.min 200 (length hits - 1))%nat
  ∧ methods_used s = list_to_set (List.map hit_method hits)
  ∧ has_referer s = existsb (fun h => truthy (hit_referer h)) hits
  ∧ has_cookies s = existsb (fun h => truthy (hit_cookie h)) hits
  ∧ ((length hits < 3)%nat → _compute_score s = 0%Q).
Proof.
  cbv zeta.
  assert (Hmain :
    request_count (session_after hits) = Z.of_nat (length hits)
    ∧ paths_visited (session_after hits) = drop (length hits - 100) (List.map hit_path hits)
    ∧ (length (inter_arrival_times (session_after hits))
       <= Nat.min 200 (length hits - 1))%nat
    ∧ methods_used (session_after hits) = list_to_set (List.map hit_method hits)
    ∧ has_referer (session_after hits) = existsb (fun h => truthy (hit_referer h)) hits
    ∧ has_cookies (session_after hits) = existsb (fun h => truthy (hit_cookie h)) hits).
  { induction hits as [|h hits IH] using rev_ind.
    - cbn. repeat split; lia.
    - destruct IH as (Hcount & Hpaths & Hiat & Hmethods & Href & Hcook).
      rewrite session_after_snoc. unfold record_hit, record.
      cbn [request_count paths_visited inter_arrival_times methods_used has_referer
             has_cookies].
      rewrite length_app, !List.map_app, !existsb_app. cbn [length List.map existsb].
      split; [lia|].
      split.
      { rewrite Hpaths. replace (length hits + 1 - 100)%nat
          with (S (length (List.map hit_path hits)) - 100)%nat
          by (rewrite List.length_map; lia).
        apply (deque_append_drop 100); [lia | by rewrite List.length_map]. }
      split.
      { destruct hits as [|h0 hits0] using rev_ind.
        { change (session_after []) with new_session.
          cbn [last_seen inter_arrival_times new_session].
          change (Qgt_bool 0 0) with false. cbn [length]. lia. }
        clear IHhits0.
        rewrite length_app in *. cbn [length] in *.
        destruct (Qgt_bool _ 0); [|lia].
        pose proof (deque_append_length 200 (inter_arrival_times
                      (session_after (hits0 ++ [h0])))
                      (hit_time h - last_seen (session_after (hits0 ++ [h0])))%Q) as Hlen.
        lia. }
      split.
      { rewrite Hmethods, list_to_set_app_L. cbn [list_to_set foldr].
        apply set_eq. intros x.
        rewrite !elem_of_union, elem_of_singleton, elem_of_empty. tauto. }
      split.
      { rewrite Href, orb_false_r. clear.
        destruct (truthy (hit_referer h));
          destruct (existsb (fun h => truthy (hit_referer h)) hits); reflexivity. }
      { rewrite Hcook, orb_false_r. clear.
        destruct (truthy (hit_cookie h));
          destruct (existsb (fun h => truthy (hit_cookie h)) hits); reflexivity. } }
  destruct Hmain as (Hcount & Hrest). split; [exact Hcount|].
  repeat (split; [tauto|]).
  intros Hlt. unfold _compute_score. rewrite Hcount.
  assert (Hlt3 : (Z.of_nat (length hits) <? 3)%Z = true) by (apply Z.ltb_lt; lia).
  by rewrite Hlt3.
Qed.

End SessionHistory.

(* --------------------------------------------------------------------- *)
(** ** The table of sessions                                             *)
(* --------------------------------------------------------------------- *)

Section SessionTable.
Context `{Platform}.
Import BehaviorAnalyzer.

Lemma dict_get_None {V} k (d : list (string * V)) :
  PyDict.get k d = None ↔ k ∉ List.map fst d.
Proof.
  induction d as [|[k0 v0] d IH]; cbn [PyDict.get List.map fst].
  - split; [intros _; apply not_elem_of_nil | done].
  - rewrite not_elem_of_cons. destruct (String.eqb_spec k k0) as [->|Hne].
    + split; [discriminate | intros [? _]; congruence].
    + rewrite IH. tauto.
Qed.

Lemma keys_filter {V} (P : string * V → bool) (d : list (string * V)) k :
  k ∈ List.map fst (List.filter P d) → k ∈ List.map fst d.
Proof.
  induction d as [|kv d IH]; cbn [List.filter List.map]; [done|].
  destruct (P kv); cbn [List.map]; rewrite ?elem_of_cons; tauto.
Qed.

Lemma NoDup_keys_filter {V} (P : string * V → bool) (d : list (string * V)) :
  NoDup (List.map fst d) → NoDup (List.map fst (List.filter P d)).
Proof.
  induction d as [|kv d IH]; cbn [List.filter List.map]; [done|].
  rewrite NoDup_cons. intros [Hnot Hd].
  destruct (P kv); cbn [List.map]; [|by apply IH].
  apply NoDup_cons. split; [|by apply IH]. intros Hin. by apply keys_filter in Hin.
Qed.

(** Removing entries from a dict leaves the other values as they are. *)
Lemma dict_get_filter {V} (P : string * V → bool) (d : list (string * V)) k :
  NoDup (List.map fst d) →
  PyDict.get k (List.filter P d) = PyDict.get k d ∨ PyDict.get k (List.filter P d) = None.
Proof.
  induction d as [|[k0 v0] d IH]; cbn [List.filter List.map fst]; [by left|].
  rewrite NoDup_cons. intros [Hnot Hd].
  destruct (P (k0, v0)); cbn [PyDict.get].
  - destruct (String.eqb k k0); [by left | by apply IH].
  - destruct (String.eqb_spec k k0) as [->|Hne]; [|by apply IH].
    right. apply dict_get_None. intros Hin. by apply keys_filter in Hin.
Qed.

Lemma dict_set_keys {V} k (v : V) (d : list (string * V)) :
  List.map fst (PyDict.set k v d)
  = if bool_decide (k ∈ List.map fst d) then List.map fst d else List.map fst d ++ [k].
Proof.
  induction d as [|[k0 v0] d IH]; cbn [PyDict.set List.map fst].
  - rewrite bool_decide_eq_false_2 by apply not_elem_of_nil. reflexivity.
  - destruct (String.eqb_spec k k0) as [->|Hne]; cbn [List.map fst].
    + rewrite bool_decide_eq_true_2 by left. reflexivity.
    + rewrite IH. case_bool_decide as Hin.
      * rewrite bool_decide_eq_true_2 by (by right). reflexivity.
      * rewrite bool_decide_eq_false_2; [reflexivity|].
        rewrite not_elem_of_cons. tauto.
Qed.

Lemma oldest_from_key best (d : list (string * IPSession)) :
  oldest_from best d ∈ best.1 :: List.map fst d.
Proof.
  revert best. induction d as [|kv d IH]; intros best; cbn [oldest_from List.map].
  - left.
  - destruct (Qlt_bool _ _).
    + right. apply IH.
    + specialize (IH best). rewrite !elem_of_cons in *. tauto.
Qed.

Lemma dict_del_shorter {V} k (d : list (string * V)) :
  k ∈ List.map fst d → (length (PyDict.del k d) < length d)%nat.
Proof.
  unfold PyDict.del. induction d as [|[k0 v0] d IH]; cbn [List.map fst List.filter length].
  - intros Hin. by apply elem_of_nil in Hin.
  - rewrite elem_of_cons. intros Hin.
    pose proof (List.filter_length_le (fun kv : string * V => negb (String.eqb k kv.1)) d).
    destruct (String.eqb_spec k k0) as [->|Hne]; cbn [negb length]; [lia|].
    destruct Hin as [->|Hin]; [done|]. specialize (IH Hin). lia.
Qed.

(** X26.  The table of sessions, for a table with one entry per
    address: after [record_and_score] there is still one entry per
    address, the table holds at most 50000 entries (or as many as
    before, if there were more), and the session of every other address
    is as it was or has been evicted.  Nothing is evicted while the
    last clean-up is less than 60 seconds ago and the table holds fewer
    than 50000 entries. *)
Theorem session_table_bounded (now : Q) (ip path method ua al : string)
    (referer cookie : option string) (hoh : string) (a : t) :
  NoDup (List.map fst (sessions a)) →
  let a' := (record_and_score now ip path method ua al referer cookie hoh a).2 in
  NoDup (List.map fst (sessions a'))
  ∧ (Z.of_nat (length (sessions a')) <= Z.max MAX_TRACKED (Z.of_nat (length (sessions a))))%Z
  ∧ (∀ ip', ip' ≠ ip →
       get_session ip' a' = get_session ip' a ∨ get_session ip' a' = None)
  ∧ ((now - last_cleanup a < 60)%Q →
     (Z.of_nat (length (sessions a)) < MAX_TRACKED)%Z →
     ∀ ip', ip' ≠ ip → get_session ip' a' = get_session ip' a).
Proof.
  intros Hnodup a'.
  (* the clean-up *)
  assert (Hclean : NoDup (List.map fst (sessions (_maybe_cleanup now a)))
                   ∧ (length (sessions (_maybe_cleanup now a)) <= length (sessions a))%nat
                   ∧ (∀ k, PyDict.get k (sessions (_maybe_cleanup now a))
                           = PyDict.get k (sessions a)
                           ∨ PyDict.get k (sessions (_maybe_cleanup now a)) = None)
                   ∧ ((now - last_cleanup a < 60)%Q → _maybe_cleanup now a = a)).
  { unfold _maybe_cleanup. destruct (Qlt_bool (now - last_cleanup a) 60) eqn:E.
    - split; [exact Hnodup|]. split; [lia|]. split; [by left | done].
    - cbn [sessions]. split; [by apply NoDup_keys_filter|].
      split; [apply List.filter_length_le|]. split; [intros k; by apply dict_get_filter|].
      intros Hlt. apply Qlt_bool_iff in Hlt. congruence. }
  destruct Hclean as (Hnd1 & Hlen1 & Hget1 & Hsame1).
  unfold a', record_and_score. cbv zeta.
  set (a1 := _maybe_cleanup now a) in *.
  destruct (PyDict.get ip (sessions a1)) as [session|] eqn:Eget.
  - (* a known address: its entry is updated in place *)
    cbn [snd sessions].
    assert (Hin : ip ∈ List.map fst (sessions a1)).
    { destruct (decide (ip ∈ List.map fst (sessions a1))) as [|Hnot]; [done|].
      apply dict_get_None in Hnot. congruence. }
    assert (Hkeys : List.map fst (PyDict.set ip (record now path method ua al referer cookie
                                                   hoh session) (sessions a1))
                    = List.map fst (sessions a1)).
    { rewrite dict_set_keys. by rewrite bool_decide_eq_true_2. }
    split; [by rewrite Hkeys|].
    split.
    { apply (f_equal (@length string)) in Hkeys. rewrite !List.length_map in Hkeys. lia. }
    split.
    + intros ip' Hne. unfold get_session. cbn [sessions].
      rewrite dict_get_set_ne by congruence. apply Hget1.
    + intros Hlt _ ip' Hne. unfold get_session. cbn [sessions].
      rewrite dict_get_set_ne by congruence.
      pose proof (Hsame1 Hlt) as Heq. subst a1. by rewrite Heq.
  - (* a new address: room is made when the table is full *)
    cbn [snd sessions].
    set (d := match sessions a1 with
              | kv :: rest =>
                  if (MAX_TRACKED <=? Z.of_nat (length (sessions a1)))%Z
                  then PyDict.del (oldest_from kv rest) (sessions a1)
                  else sessions a1
              | [] => []
              end).
    assert (Hd : NoDup (List.map fst d)
                 ∧ (Z.of_nat (length d) < Z.max MAX_TRACKED (Z.of_nat (length (sessions a))))%Z
                 ∧ (∀ k, PyDict.get k d = PyDict.get k (sessions a1) ∨ PyDict.get k d = None)
                 ∧ ((Z.of_nat (length (sessions a1)) < MAX_TRACKED)%Z → d = sessions a1)).
    { unfold d. destruct (sessions a1) as [|kv rest] eqn:Es.
      - split; [constructor|]. split; [unfold MAX_TRACKED; cbn [length]; lia|].
        split; [by left | done].
      - destruct (MAX_TRACKED <=? Z.of_nat (length (kv :: rest)))%Z eqn:Efull.
        + apply Z.leb_le in Efull.
          pose proof (dict_del_shorter (oldest_from kv rest) (kv :: rest)
                        (oldest_from_key kv rest)) as Hshort.
          split; [by apply NoDup_keys_filter|]. split; [lia|].
          split; [intros k; by apply dict_get_filter | lia].
        + apply Z.leb_gt in Efull. split; [exact Hnd1|]. split; [lia|].
          split; [by left | done]. }
    destruct Hd as (Hnd & Hlen & Hget & Hsame). clearbody d.
    assert (Hnot : ip ∉ List.map fst d).
    { apply dict_get_None. destruct (Hget ip) as [-> | ->]; [exact Eget | reflexivity]. }
    assert (Hkeys : List.map fst (PyDict.set ip (record now path method ua al referer cookie
                                                   hoh new_session) d)
                    = List.map fst d ++ [ip]).
    { rewrite dict_set_keys. by rewrite bool_decide_eq_false_2. }
    split.
    { rewrite Hkeys. apply NoDup_app. split; [exact Hnd|].
      split; [|apply NoDup_singleton]. intros x Hx Hx'. apply list_elem_of_singleton in Hx'.
      by subst x. }
    split.
    { apply (f_equal (@length string)) in Hkeys.
      rewrite length_app, !List.length_map in Hkeys. cbn [length] in Hkeys. lia. }
    split.
    + intros ip' Hne. unfold get_session. cbn [sessions].
      rewrite dict_get_set_ne by congruence.
      destruct (Hget ip') as [-> | ->]; [apply Hget1 | by right].
    + intros Hlt Hroom ip' Hne. unfold get_session. cbn [sessions].
      rewrite dict_get_set_ne by congruence.
      pose proof (Hsame1 Hlt) as Heq. subst a1. rewrite Heq in *. by rewrite Hsame.
Qed.

End SessionTable.

Lemma session_table_bounded_witness :
  NoDup (List.map fst
           (BehaviorAnalyzer.sessions
              (@BehaviorAnalyzer.record_and_score Example.platform 1000 "198.51.100.4" "/"
                 "GET" "Mozilla/5.0" "en" None None "d41d8cd9" BehaviorAnalyzer.init).2)).
Proof.
  refine (proj1 (@session_table_bounded Example.platform 1000 "198.51.100.4" "/" "GET"
                   "Mozilla/5.0" "en" None None "d41d8cd9" BehaviorAnalyzer.init _)).
  cbn. constructor.
Defined.

(* --------------------------------------------------------------------- *)
(** ** The observation window of the baseline                            *)
(* --------------------------------------------------------------------- *)

Section BaselineWindow.
Import BaselineModel.
Local Open Scope Q_scope.

(** [_evict_old] drops a prefix of observations older than the cut-off
    and stops at the first one that is not, or that has no time stamp,
    which raises. *)
Lemma evict_split cutoff obs :
  ∃ dropped,
    obs = dropped ++ (evict cutoff obs).1
    ∧ Forall (fun o => ∃ ts, f_timestamp o = Some ts ∧ ts < cutoff) dropped
    ∧ match (evict cutoff obs).1 with
      | [] => (evict cutoff obs).2 = true
      | o :: _ =>
          match f_timestamp o with
          | Some ts => cutoff <= ts ∧ (evict cutoff obs).2 = true
          | None => (evict cutoff obs).2 = false
          end
      end.
Proof.
  induction obs as [|o obs IH]; [by exists []|].
  cbn [evict]. destruct (f_timestamp o) as [ts|] eqn:Ets.
  - destruct (Qlt_bool ts cutoff) eqn:E.
    + destruct IH as (dropped & Heq & Hold & Hhead). exists (o :: dropped).
      split; [cbn [app]; by rewrite <- Heq|]. split; [|exact Hhead].
      constructor; [|exact Hold]. exists ts. split; [exact Ets | by apply Qlt_bool_iff].
    + exists []. split; [reflexivity|]. split; [constructor|].
      cbn [fst snd]. rewrite Ets. split; [by apply Qlt_bool_false | reflexivity].
  - exists []. split; [reflexivity|]. split; [constructor|].
    cbn [fst snd]. by rewrite Ets.
Qed.

(** X27.  [record_observation] appends the observation and then drops
    the longest prefix of observations older than the window, nothing
    else: everything dropped is older, and the first observation kept
    is not.  It raises when the first observation that is not dropped
    has no time stamp, and when the window is beyond the range of
    floats (then nothing is dropped); the observation has been appended
    by then.  When the observations are in the order of their time
    stamps, every one kept lies within the window.  The set of
    addresses seen only grows, also when the observations of an address
    are dropped; and the statistics and the readiness of the baseline
    are not touched. *)
Theorem record_observation_window (now : Q) (features : Features) (b : t) :
  let b' := (record_observation now features b).1 in
  let returns := (record_observation now features b).2 in
  let cutoff := now - inject_Z (window_sec b) in
  match PyFloat.of_int (window_sec b) with
  | None => returns = false ∧ observations b' = observations b ++ [features]
  | Some _ =>
      (∃ dropped,
         observations b ++ [features] = dropped ++ observations b'
         ∧ Forall (fun o => ∃ ts, f_timestamp o = Some ts ∧ ts < cutoff) dropped)
      ∧ match observations b' with
        | [] => returns = true
        | o :: _ =>
            match f_timestamp o with
            | Some ts => cutoff <= ts ∧ returns = true
            | None => returns = false
            end
        end
      ∧ (StronglySorted
           (fun o1 o2 => ∃ t1 t2, f_timestamp o1 = Some t1 ∧ f_timestamp o2 = Some t2
                                  ∧ t1 <= t2)
           (observations b ++ [features]) →
         Forall (fun o => ∀ ts, f_timestamp o = Some ts → cutoff <= ts) (observations b'))
  end
  ∧ ips_seen b ⊆ ips_seen b'
  ∧ (∀ ip, f_client_ip features = Some ip → ip ∈ ips_seen b')
  ∧ is_ready b' = is_ready b
  ∧ (mean_header_count b', std_header_count b', mean_content_length b',
     std_content_length b', mean_rps b', std_rps b')
    = (mean_header_count b, std_header_count b, mean_content_length b,
       std_content_length b, mean_rps b, std_rps b).
Proof.
  intros b' returns cutoff. unfold b', returns, record_observation. cbv zeta.
  split.
  { unfold PyFloat.of_int. destruct (Z.abs (window_sec b) <? PyFloat.OVERFLOW)%Z; [|by split].
    fold cutoff.
    destruct (evict_split cutoff (observations b ++ [features]))
      as (dropped & Heq & Hold & Hhead).
    destruct (evict cutoff (observations b ++ [features])) as [kept evicted].
    cbn [fst snd observations] in *.
    split; [by exists dropped|]. split; [exact Hhead|].
    intros Hsorted. rewrite Heq in Hsorted.
    assert (Hkept : StronglySorted
              (fun o1 o2 => ∃ t1 t2, f_timestamp o1 = Some t1 ∧ f_timestamp o2 = Some t2
                                     ∧ t1 <= t2) kept).
    { clear -Hsorted. induction dropped as [|d dropped IH]; [exact Hsorted|].
      apply IH. cbn [app] in Hsorted. by apply StronglySorted_inv in Hsorted as [? _]. }
    destruct kept as [|o rest]; [constructor|].
    apply StronglySorted_inv in Hkept as [_ Hrest].
    constructor.
    - intros ts Hts. rewrite Hts in Hhead. tauto.
    - eapply Forall_impl; [exact Hrest|]. cbn. intros x (t1 & t2 & Ht1 & Ht2 & Hle) ts Hts.
      rewrite Ht2 in Hts. injection Hts as <-. rewrite Ht1 in Hhead. lra. }
  assert (Hsame : ∀ kept_done : list Features * bool,
            (let '(kept, evicted) := kept_done in
             ({| window_sec := window_sec b; observations := kept;
                 ips_seen := match f_client_ip features with
                             | Some ip => {[ip]} ∪ ips_seen b
                             | None => ips_seen b
                             end;
                 mean_rps := mean_rps b; std_rps := std_rps b;
                 mean_header_count := mean_header_count b;
                 std_header_count := std_header_count b;
                 mean_content_length := mean_content_length b;
                 std_content_length := std_content_length b;
                 is_ready := is_ready b |}, evicted)).1
            = {| window_sec := window_sec b; observations := kept_done.1;
                 ips_seen := match f_client_ip features with
                             | Some ip => {[ip]} ∪ ips_seen b
                             | None => ips_seen b
                             end;
                 mean_rps := mean_rps b; std_rps := std_rps b;
                 mean_header_count := mean_header_count b;
                 std_header_count := std_header_count b;
                 mean_content_length := mean_content_length b;
                 std_content_length := std_content_length b;
                 is_ready := is_ready b |}) by (by intros [kept evicted]).
  rewrite Hsame.
  cbn [ips_seen is_ready mean_header_count std_header_count
         mean_content_length std_content_length mean_rps std_rps].
  split.
  { destruct (f_client_ip features); [apply union_subseteq_r | reflexivity]. }
  split; [|split; reflexivity].
  intros ip ->. apply elem_of_union. left. by apply elem_of_singleton.
Qed.

End BaselineWindow.

(* --------------------------------------------------------------------- *)
(** ** The header-order hash                                             *)
(* --------------------------------------------------------------------- *)

Section HeaderOrder.
Context `{Platform}.

Lemma dict_keys_names (hs hs' : list (string * string)) : ∀ seen,
  List.map fst hs' = List.map fst hs → Http.dict_keys hs' seen = Http.dict_keys hs seen.
Proof.
  revert hs'. induction hs as [|[k v] hs IH]; intros [|[k' v'] hs'] seen Hnames;
    try discriminate; [reflexivity|].
  cbn [List.map fst] in Hnames. injection Hnames as -> Hnames. cbn [Http.dict_keys].
  by rewrite !(IH hs' _ Hnames).
Qed.

Lemma dict_keys_repeated (hs : list (string * string)) k v : ∀ seen,
  k ∈ seen ∨ k ∈ List.map fst hs →
  Http.dict_keys (hs ++ [(k, v)]) seen = Http.dict_keys hs seen.
Proof.
  induction hs as [|[k0 v0] hs IH]; intros seen Hin; cbn [app Http.dict_keys List.map fst] in *.
  - destruct Hin as [Hin | Hin]; [|by apply elem_of_nil in Hin].
    by rewrite bool_decide_eq_true_2.
  - case_bool_decide as Hseen.
    + apply IH. rewrite elem_of_cons in Hin. destruct Hin as [? | [-> | ?]]; tauto.
    + f_equal. apply IH. rewrite !elem_of_cons in *. tauto.
Qed.

Lemma dict_keys_elem (hs : list (string * string)) : ∀ seen x,
  x ∈ Http.dict_keys hs seen ↔ x ∈ List.map fst hs ∧ x ∉ seen.
Proof.
  induction hs as [|[k v] hs IH]; intros seen x; cbn [Http.dict_keys List.map fst].
  - rewrite !elem_of_nil. tauto.
  - case_bool_decide as Hseen.
    + rewrite IH, elem_of_cons. split; [tauto|]. intros [[-> | Hin] Hnot]; tauto.
    + rewrite !elem_of_cons, IH, not_elem_of_cons.
      destruct (decide (x = k)) as [->|Hne]; tauto.
Qed.

Lemma dict_keys_NoDup (hs : list (string * string)) : ∀ seen,
  NoDup (Http.dict_keys hs seen).
Proof.
  induction hs as [|[k v] hs IH]; intros seen; cbn [Http.dict_keys]; [constructor|].
  case_bool_decide as Hseen; [apply IH|].
  apply NoDup_cons. split; [|apply IH].
  rewrite dict_keys_elem, not_elem_of_cons. tauto.
Qed.

(** X28.  The header-order hash is taken over the header names, each
    once, in the order of first occurrence.  So it does not depend on
    any header value, and a header sent once more does not change it. *)
Theorem header_order_hash_names (hs : list (string * string)) :
  (∀ hs', List.map fst hs' = List.map fst hs →
     Fingerprint.compute_header_order_hash hs' = Fingerprint.compute_header_order_hash hs)
  ∧ (∀ k v, k ∈ List.map fst hs →
       Fingerprint.compute_header_order_hash (hs ++ [(k, v)])
       = Fingerprint.compute_header_order_hash hs)
  ∧ NoDup (Http.dict_keys hs [])
  ∧ (∀ k, k ∈ Http.dict_keys hs [] ↔ k ∈ List.map fst hs).
Proof.
  unfold Fingerprint.compute_header_order_hash.
  split; [intros hs' Hnames; by rewrite (dict_keys_names hs hs' [] Hnames)|].
  split; [intros k v Hin; rewrite dict_keys_repeated; [reflexivity | by right]|].
  split; [apply dict_keys_NoDup|].
  intros k. rewrite dict_keys_elem. split; [tauto|]. intros Hin. split; [exact Hin|].
  apply not_elem_of_nil.
Qed.

End HeaderOrder.

(* --------------------------------------------------------------------- *)
(** ** Blocks and the requests after them                                *)
(* --------------------------------------------------------------------- *)

Section BlockedRequests.
Context `{Platform}.





End BlockedRequests.


